(** * LWIS transaction processor (lwis_transaction.c)

    A shallow embedding of the transaction life cycle of the LWIS driver:
    the I/O entry interpreter, the per-client event-trigger index, the
    ready (process) queue with its worker, and submit / replace / cancel /
    event-trigger / flush, followed by the properties C1 to C10 of the
    specification.

    Conventions of the embedding.
    - C integers are [Z]; 64-bit wrap-around is written with [wrap64] and
      [sint64].  Error codes are the negative Linux errno values.
    - A [struct lwis_transaction] lives in exactly one list at a time, so
      transactions are held by value in the lists.  The response buffer
      [transaction->resp] is owned by one transaction and is held by value
      too; its io_result area is a list of structured results, and the
      buffers of batch entries are lists of bytes.
    - [info.io_entries] is a pointer that repeating transactions share with
      their per-firing instances: the arrays live in a store [kmem] keyed by
      address, and the interpreter updates them in place.
    - The hash table [transaction_list] is the list of its entries in the
      order the iteration macros visit them; a new entry goes to the front.
    - Everything the file calls but does not define (register backend,
      event-state tables, clock, allocator) is an interface [lwis_env] over
      an environment type [W].
    - Each function runs to its end without interference from other
      contexts; the lock operations it performs are recorded in
      [transaction_lock].  The workqueue is the flag [transaction_work]
      (work pending) and the function [transaction_work_func].
    - Loops that the C code bounds only by the clock take fuel; reading an
      io_entries array that is not in the store, or queueing work on a NULL
      workqueue, is [Fault]. *)

From Stdlib Require Import ZArith List Lia Bool Sorted.
From stdpp Require Import base option list gmap.

#[local] Open Scope Z_scope.

(** ** Outcomes of partial computations *)

Inductive outcome (A : Type) : Type :=
| Done (a : A)
| OutOfFuel
| Fault.
Arguments Done {A} a.
Arguments OutOfFuel {A}.
Arguments Fault {A}.

#[global] Instance outcome_ret : MRet outcome := fun A a => Done a.
#[global] Instance outcome_bind : MBind outcome := fun A B f m =>
  match m with
  | Done a => f a
  | OutOfFuel => OutOfFuel
  | Fault => Fault
  end.

Definition is_done {A} (m : outcome A) : bool :=
  match m with Done _ => true | _ => false end.

(** ** Machine arithmetic and errno values *)

Definition wrap64 (x : Z) : Z := x mod 2 ^ 64.

(** Two's-complement reading of a 64-bit pattern (int64_t). *)
Definition sint64 (x : Z) : Z :=
  let u := wrap64 x in if u <? 2 ^ 63 then u else u - 2 ^ 64.

(** [~x] on a uint64_t. *)
Definition not64 (x : Z) : Z := wrap64 (Z.lnot x).

Definition ENOENT : Z := 2.
Definition ENOMEM : Z := 12.
Definition ENODEV : Z := 19.
Definition EINVAL : Z := 22.
Definition ETIMEDOUT : Z := 110.
Definition ECANCELED : Z := 125.

(** Little-endian bytes of [v], [n] of them (memcpy from a uint64_t). *)
Fixpoint le_bytes (n : nat) (v : Z) : list Z :=
  match n with
  | O => []
  | S n' => (v mod 256) :: le_bytes n' (v / 256)
  end.

(** ** Constants of headers that are not part of this file *)

Class lwis_constants := {
  LWIS_EVENT_ID_NONE : Z;
  LWIS_EVENT_ID_CLIENT_CLEANUP : Z;
  LWIS_EVENT_COUNTER_ON_NEXT_OCCURRENCE : Z;
  LWIS_EVENT_COUNTER_EVERY_TIME : Z;
  TRANSACTION_DEBUG_HISTORY_SIZE : Z;
  sizeof_lwis_transaction_response_header : Z;
  sizeof_lwis_io_result : Z;
  sizeof_lwis_transaction : Z;
  sizeof_lwis_transaction_event_list : Z
}.

(** ** Data model *)

(** The members of the [lwis_io_entry] union, with the fields this file
    reads or writes. *)
Record lwis_io_entry_rw := {
  rw_bid : Z;
  rw_offset : Z;
  rw_val : Z
}.

Record lwis_io_entry_rw_batch := {
  rwb_bid : Z;
  rwb_offset : Z;
  rwb_size_in_bytes : Z;
  rwb_buf : list Z
}.

Record lwis_io_entry_modify := {
  mod_bid : Z;
  mod_offset : Z;
  mod_val : Z;
  mod_val_mask : Z
}.

Record lwis_io_entry_set_bias := {
  set_bias_bias : Z
}.

Record lwis_io_entry_poll := {
  poll_bid : Z;
  poll_offset : Z;
  poll_val : Z;
  poll_mask : Z;
  poll_timeout_ms : Z
}.

(** [struct lwis_io_entry]: the [type] tag selects the union member.
    [LWIS_IO_ENTRY_OTHER] stands for any tag value the interpreter does
    not recognise. *)
Inductive lwis_io_entry :=
| LWIS_IO_ENTRY_READ (rw : lwis_io_entry_rw)
| LWIS_IO_ENTRY_READ_BATCH (rw_batch : lwis_io_entry_rw_batch)
| LWIS_IO_ENTRY_WRITE (rw : lwis_io_entry_rw)
| LWIS_IO_ENTRY_WRITE_BATCH (rw_batch : lwis_io_entry_rw_batch)
| LWIS_IO_ENTRY_MODIFY (md : lwis_io_entry_modify)
| LWIS_IO_ENTRY_BIAS (set_bias : lwis_io_entry_set_bias)
| LWIS_IO_ENTRY_POLL (poll : lwis_io_entry_poll)
| LWIS_IO_ENTRY_OTHER (type : Z).

Record lwis_io_result := {
  res_bid : Z;
  res_offset : Z;
  res_num_value_bytes : Z;
  res_values : list Z
}.

(** The response buffer: the header fields, then the io_result area.
    [resp_alloc_size] is the size the buffer was allocated with. *)
Record lwis_transaction_response := {
  resp_id : Z;
  resp_error_code : Z;
  resp_num_entries : Z;
  resp_results_size_bytes : Z;
  resp_completion_index : Z;
  resp_results : list lwis_io_result;
  resp_alloc_size : Z
}.

Definition resp_set_error_code (e : Z) (r : lwis_transaction_response) :=
  {| resp_id := resp_id r; resp_error_code := e;
     resp_num_entries := resp_num_entries r;
     resp_results_size_bytes := resp_results_size_bytes r;
     resp_completion_index := resp_completion_index r;
     resp_results := resp_results r;
     resp_alloc_size := resp_alloc_size r |}.

Definition resp_set_completion_index (i : Z) (r : lwis_transaction_response) :=
  {| resp_id := resp_id r; resp_error_code := resp_error_code r;
     resp_num_entries := resp_num_entries r;
     resp_results_size_bytes := resp_results_size_bytes r;
     resp_completion_index := i;
     resp_results := resp_results r;
     resp_alloc_size := resp_alloc_size r |}.

Definition resp_set_results (l : list lwis_io_result)
    (r : lwis_transaction_response) :=
  {| resp_id := resp_id r; resp_error_code := resp_error_code r;
     resp_num_entries := resp_num_entries r;
     resp_results_size_bytes := resp_results_size_bytes r;
     resp_completion_index := resp_completion_index r;
     resp_results := l;
     resp_alloc_size := resp_alloc_size r |}.

Record lwis_transaction_info := {
  trigger_event_id : Z;
  trigger_event_counter : Z;
  num_io_entries : Z;
  io_entries : N;
  run_in_event_context : bool;
  allow_counter_eq : bool;
  emit_success_event_id : Z;
  emit_error_event_id : Z;
  info_id : Z;
  current_trigger_event_counter : Z;
  submission_timestamp_ns : Z
}.

Definition info_set_trigger_event_id (v : Z) (i : lwis_transaction_info) :=
  {| trigger_event_id := v;
     trigger_event_counter := trigger_event_counter i;
     num_io_entries := num_io_entries i; io_entries := io_entries i;
     run_in_event_context := run_in_event_context i;
     allow_counter_eq := allow_counter_eq i;
     emit_success_event_id := emit_success_event_id i;
     emit_error_event_id := emit_error_event_id i;
     info_id := info_id i;
     current_trigger_event_counter := current_trigger_event_counter i;
     submission_timestamp_ns := submission_timestamp_ns i |}.

Definition info_set_id (v : Z) (i : lwis_transaction_info) :=
  {| trigger_event_id := trigger_event_id i;
     trigger_event_counter := trigger_event_counter i;
     num_io_entries := num_io_entries i; io_entries := io_entries i;
     run_in_event_context := run_in_event_context i;
     allow_counter_eq := allow_counter_eq i;
     emit_success_event_id := emit_success_event_id i;
     emit_error_event_id := emit_error_event_id i;
     info_id := v;
     current_trigger_event_counter := current_trigger_event_counter i;
     submission_timestamp_ns := submission_timestamp_ns i |}.

Definition info_set_current_trigger_event_counter (v : Z)
    (i : lwis_transaction_info) :=
  {| trigger_event_id := trigger_event_id i;
     trigger_event_counter := trigger_event_counter i;
     num_io_entries := num_io_entries i; io_entries := io_entries i;
     run_in_event_context := run_in_event_context i;
     allow_counter_eq := allow_counter_eq i;
     emit_success_event_id := emit_success_event_id i;
     emit_error_event_id := emit_error_event_id i;
     info_id := info_id i;
     current_trigger_event_counter := v;
     submission_timestamp_ns := submission_timestamp_ns i |}.

Definition info_set_submission_timestamp_ns (v : Z)
    (i : lwis_transaction_info) :=
  {| trigger_event_id := trigger_event_id i;
     trigger_event_counter := trigger_event_counter i;
     num_io_entries := num_io_entries i; io_entries := io_entries i;
     run_in_event_context := run_in_event_context i;
     allow_counter_eq := allow_counter_eq i;
     emit_success_event_id := emit_success_event_id i;
     emit_error_event_id := emit_error_event_id i;
     info_id := info_id i;
     current_trigger_event_counter := current_trigger_event_counter i;
     submission_timestamp_ns := v |}.

Record lwis_transaction := {
  info : lwis_transaction_info;
  resp : lwis_transaction_response
}.

Definition set_info (i : lwis_transaction_info) (t : lwis_transaction) :=
  {| info := i; resp := resp t |}.
Definition set_resp (r : lwis_transaction_response) (t : lwis_transaction) :=
  {| info := info t; resp := r |}.

(** One entry of the [transaction_list] hash table; [event_transactions]
    is the C field [list]. *)
Record lwis_transaction_event_list := {
  event_id : Z;
  event_transactions : list lwis_transaction
}.

(** What [lwis_pending_event_push] buffers: event id, payload, size. *)
Record lwis_pending_event := {
  pe_event_id : Z;
  pe_payload : lwis_transaction_response;
  pe_size : Z
}.

Record lwis_client_debug_info := {
  transaction_hist : list lwis_transaction_info;
  cur_transaction_hist_idx : Z
}.

Inductive lock_op := Acquire | Release.

(** ** Collaborators *)

(** The services the transaction code consumes.  [W] is the state of
    everything outside the transaction structures: device registers,
    event-state tables, the clock and the allocator. *)
Class lwis_env (W : Type) := {
  native_value_bitwidth : W -> Z;
  (* lwis_dev->type == DEVICE_TYPE_I2C *)
  device_type_is_i2c : W -> bool;
  (* lwis_dev->vops.register_io(dev, entry, in_irq, bitwidth): return code
     and the entry as the backend leaves it *)
  register_io : W -> lwis_io_entry -> bool -> Z -> Z * lwis_io_entry * W;
  (* lwis_device_single_register_read(dev, in_irq, bid, offset, &val, bw) *)
  lwis_device_single_register_read :
    W -> bool -> Z -> Z -> Z -> Z * Z * W;
  (* ktime_to_ms(lwis_get_time()) *)
  lwis_get_time_ms : W -> Z * W;
  usleep_range : W -> Z -> Z -> W;
  (* ktime_to_ns(ktime_get()) *)
  ktime_get_ns : W -> Z * W;
  (* kzalloc(size, GFP_ATOMIC) != NULL *)
  kzalloc : W -> Z -> bool * W;
  (* event counter of the device event state, NULL as None *)
  lwis_device_event_state_find : W -> Z -> option Z;
  (* !IS_ERR_OR_NULL(... find_or_create(...)) *)
  lwis_device_event_state_find_or_create : W -> Z -> bool * W;
  lwis_client_event_state_find_or_create : W -> Z -> bool * W
}.

Section Transaction.

Context {K : lwis_constants} {W : Type} {E : lwis_env W}.

(** [struct lwis_client], the fields of the transaction code.
    [kmem] is the kernel memory holding io_entries arrays; [emitted] is
    the log of what was handed to [lwis_pending_events_emit];
    [transaction_lock] is the history of lock operations. *)
Record lwis_client := {
  lwis_dev : W;
  transaction_list : list lwis_transaction_event_list;
  transaction_process_queue : list lwis_transaction;
  transaction_counter : Z;
  transaction_wq : bool;
  transaction_work : bool;
  debug_info : lwis_client_debug_info;
  kmem : gmap N (list lwis_io_entry);
  transaction_lock : list lock_op;
  emitted : list lwis_pending_event
}.

Definition EXPLICIT_EVENT_COUNTER (x : Z) : bool :=
  negb (x =? LWIS_EVENT_COUNTER_ON_NEXT_OCCURRENCE) &&
  negb (x =? LWIS_EVENT_COUNTER_EVERY_TIME).

(** *** I/O entries *)

Definition lwis_entry_bias (entry : lwis_io_entry) (bias : Z) : lwis_io_entry :=
  match entry with
  | LWIS_IO_ENTRY_WRITE rw =>
      LWIS_IO_ENTRY_WRITE
        {| rw_bid := rw_bid rw; rw_offset := wrap64 (rw_offset rw + bias);
           rw_val := rw_val rw |}
  | LWIS_IO_ENTRY_READ rw =>
      LWIS_IO_ENTRY_READ
        {| rw_bid := rw_bid rw; rw_offset := wrap64 (rw_offset rw + bias);
           rw_val := rw_val rw |}
  | LWIS_IO_ENTRY_WRITE_BATCH b =>
      LWIS_IO_ENTRY_WRITE_BATCH
        {| rwb_bid := rwb_bid b; rwb_offset := wrap64 (rwb_offset b + bias);
           rwb_size_in_bytes := rwb_size_in_bytes b; rwb_buf := rwb_buf b |}
  | LWIS_IO_ENTRY_READ_BATCH b =>
      LWIS_IO_ENTRY_READ_BATCH
        {| rwb_bid := rwb_bid b; rwb_offset := wrap64 (rwb_offset b + bias);
           rwb_size_in_bytes := rwb_size_in_bytes b; rwb_buf := rwb_buf b |}
  | LWIS_IO_ENTRY_MODIFY m =>
      LWIS_IO_ENTRY_MODIFY
        {| mod_bid := mod_bid m; mod_offset := wrap64 (mod_offset m + bias);
           mod_val := mod_val m; mod_val_mask := mod_val_mask m |}
  | _ => entry
  end.

Definition poll_matches (p : lwis_io_entry_poll) (val : Z) : bool :=
  Z.land val (poll_mask p) =? Z.land (poll_val p) (poll_mask p).

(** The poll loop.  [val] is the last value read ([~poll.val] before the
    first read).  Besides the return code and the environment the function
    returns the register reads it performed, each as (return code, value),
    added to [reads]. *)
Fixpoint lwis_entry_poll_loop (fuel : nat) (w : W) (p : lwis_io_entry_poll)
    (start val : Z) (reads : list (Z * Z)) : outcome (Z * list (Z * Z) * W) :=
  if val =? poll_val p then Done (- ETIMEDOUT, reads, w)
  else
    match fuel with
    | O => OutOfFuel
    | S fuel' =>
        let '(ret, val', w1) :=
          lwis_device_single_register_read w false (poll_bid p)
            (poll_offset p) (native_value_bitwidth w) in
        if negb (ret =? 0) then Done (ret, reads ++ [(ret, val')], w1)
        else if poll_matches p val'
        then Done (0, reads ++ [(ret, val')], w1)
        else
          let '(now, w2) := lwis_get_time_ms w1 in
          if wrap64 (now - start) >? poll_timeout_ms p
          then Done (- ETIMEDOUT, reads ++ [(ret, val')], w2)
          else
            lwis_entry_poll_loop fuel' (usleep_range w2 1000 1000) p start
              val' (reads ++ [(ret, val')])
    end.

Definition lwis_entry_poll_trace (fuel : nat) (w : W)
    (p : lwis_io_entry_poll) : outcome (Z * list (Z * Z) * W) :=
  let val := not64 (poll_val p) in
  let '(start, w0) := lwis_get_time_ms w in
  lwis_entry_poll_loop fuel w0 p (wrap64 start) val [].

Definition lwis_entry_poll (fuel : nat) (w : W) (p : lwis_io_entry_poll)
    : outcome (Z * W) :=
  '(ret, _, w') ← lwis_entry_poll_trace fuel w p; Done (ret, w').


(** *** Field updates of the client *)

Definition set_lwis_dev (w : W) (c : lwis_client) : lwis_client :=
  {| lwis_dev := w; transaction_list := transaction_list c;
     transaction_process_queue := transaction_process_queue c;
     transaction_counter := transaction_counter c;
     transaction_wq := transaction_wq c;
     transaction_work := transaction_work c; debug_info := debug_info c;
     kmem := kmem c; transaction_lock := transaction_lock c;
     emitted := emitted c |}.

Definition set_transaction_list (l : list lwis_transaction_event_list)
    (c : lwis_client) : lwis_client :=
  {| lwis_dev := lwis_dev c; transaction_list := l;
     transaction_process_queue := transaction_process_queue c;
     transaction_counter := transaction_counter c;
     transaction_wq := transaction_wq c;
     transaction_work := transaction_work c; debug_info := debug_info c;
     kmem := kmem c; transaction_lock := transaction_lock c;
     emitted := emitted c |}.

Definition set_transaction_process_queue (q : list lwis_transaction)
    (c : lwis_client) : lwis_client :=
  {| lwis_dev := lwis_dev c; transaction_list := transaction_list c;
     transaction_process_queue := q;
     transaction_counter := transaction_counter c;
     transaction_wq := transaction_wq c;
     transaction_work := transaction_work c; debug_info := debug_info c;
     kmem := kmem c; transaction_lock := transaction_lock c;
     emitted := emitted c |}.

Definition set_transaction_counter (n : Z) (c : lwis_client) : lwis_client :=
  {| lwis_dev := lwis_dev c; transaction_list := transaction_list c;
     transaction_process_queue := transaction_process_queue c;
     transaction_counter := n;
     transaction_wq := transaction_wq c;
     transaction_work := transaction_work c; debug_info := debug_info c;
     kmem := kmem c; transaction_lock := transaction_lock c;
     emitted := emitted c |}.

Definition set_transaction_work (b : bool) (c : lwis_client) : lwis_client :=
  {| lwis_dev := lwis_dev c; transaction_list := transaction_list c;
     transaction_process_queue := transaction_process_queue c;
     transaction_counter := transaction_counter c;
     transaction_wq := transaction_wq c;
     transaction_work := b; debug_info := debug_info c;
     kmem := kmem c; transaction_lock := transaction_lock c;
     emitted := emitted c |}.

Definition set_debug_info (d : lwis_client_debug_info) (c : lwis_client)
    : lwis_client :=
  {| lwis_dev := lwis_dev c; transaction_list := transaction_list c;
     transaction_process_queue := transaction_process_queue c;
     transaction_counter := transaction_counter c;
     transaction_wq := transaction_wq c;
     transaction_work := transaction_work c; debug_info := d;
     kmem := kmem c; transaction_lock := transaction_lock c;
     emitted := emitted c |}.

Definition set_kmem (m : gmap N (list lwis_io_entry)) (c : lwis_client)
    : lwis_client :=
  {| lwis_dev := lwis_dev c; transaction_list := transaction_list c;
     transaction_process_queue := transaction_process_queue c;
     transaction_counter := transaction_counter c;
     transaction_wq := transaction_wq c;
     transaction_work := transaction_work c; debug_info := debug_info c;
     kmem := m; transaction_lock := transaction_lock c;
     emitted := emitted c |}.

Definition set_transaction_lock (l : list lock_op) (c : lwis_client)
    : lwis_client :=
  {| lwis_dev := lwis_dev c; transaction_list := transaction_list c;
     transaction_process_queue := transaction_process_queue c;
     transaction_counter := transaction_counter c;
     transaction_wq := transaction_wq c;
     transaction_work := transaction_work c; debug_info := debug_info c;
     kmem := kmem c; transaction_lock := l;
     emitted := emitted c |}.

Definition set_emitted (l : list lwis_pending_event) (c : lwis_client)
    : lwis_client :=
  {| lwis_dev := lwis_dev c; transaction_list := transaction_list c;
     transaction_process_queue := transaction_process_queue c;
     transaction_counter := transaction_counter c;
     transaction_wq := transaction_wq c;
     transaction_work := transaction_work c; debug_info := debug_info c;
     kmem := kmem c; transaction_lock := transaction_lock c;
     emitted := l |}.

(** *** Kernel services with a fixed meaning *)

Definition spin_lock_irqsave (c : lwis_client) : lwis_client :=
  set_transaction_lock (transaction_lock c ++ [Acquire]) c.

Definition spin_unlock_irqrestore (c : lwis_client) : lwis_client :=
  set_transaction_lock (transaction_lock c ++ [Release]) c.

(** [queue_work(client->transaction_wq, &client->transaction_work)]:
    the work item becomes pending; a NULL workqueue is dereferenced. *)
Definition queue_work (c : lwis_client) : outcome lwis_client :=
  if transaction_wq c then Done (set_transaction_work true c) else Fault.

Definition lwis_pending_event_push (pending_events : list lwis_pending_event)
    (event : Z) (payload : lwis_transaction_response) (size : Z)
    : list lwis_pending_event :=
  pending_events ++
    [{| pe_event_id := event; pe_payload := payload; pe_size := size |}].

Definition lwis_pending_events_emit (c : lwis_client)
    (pending_events : list lwis_pending_event) : lwis_client :=
  set_emitted (emitted c ++ pending_events) c.

(** *** The event-trigger index *)

Fixpoint event_list_find (tl : list lwis_transaction_event_list)
    (id : Z) : option lwis_transaction_event_list :=
  match tl with
  | [] => None
  | l :: tl' => if event_id l =? id then Some l else event_list_find tl' id
  end.

(** Store [txs] as the list of the first entry for [id] (the entry that
    [event_list_find] returns). *)
Fixpoint event_list_store (tl : list lwis_transaction_event_list)
    (id : Z) (txs : list lwis_transaction)
    : list lwis_transaction_event_list :=
  match tl with
  | [] => []
  | l :: tl' =>
      if event_id l =? id
      then {| event_id := id; event_transactions := txs |} :: tl'
      else l :: event_list_store tl' id txs
  end.

Definition event_list_create (c : lwis_client) (id : Z)
    : option lwis_transaction_event_list * lwis_client :=
  let '(ok, w) :=
    kzalloc (lwis_dev c) sizeof_lwis_transaction_event_list in
  let c1 := set_lwis_dev w c in
  if ok then
    let event_list := {| event_id := id; event_transactions := [] |} in
    (Some event_list,
     set_transaction_list (event_list :: transaction_list c1) c1)
  else (None, c1).

Definition event_list_find_or_create (c : lwis_client) (id : Z)
    : option lwis_transaction_event_list * lwis_client :=
  match event_list_find (transaction_list c) id with
  | None => event_list_create c id
  | Some l => (Some l, c)
  end.

(** *** Executing a transaction *)

Definition save_transaction_to_history (c : lwis_client)
    (trans_info : lwis_transaction_info) : lwis_client :=
  let d := debug_info c in
  let hist :=
    <[Z.to_nat (cur_transaction_hist_idx d) := trans_info]>
      (transaction_hist d) in
  let idx := cur_transaction_hist_idx d + 1 in
  set_debug_info
    {| transaction_hist := hist;
       cur_transaction_hist_idx :=
         if idx >=? TRANSACTION_DEBUG_HISTORY_SIZE then 0 else idx |} c.

(** Batch buffers are held by value in the entries, so what is left of
    [free_transaction] is the release of the io_entries array. *)
Definition free_transaction (c : lwis_client) (t : lwis_transaction)
    : lwis_client :=
  set_kmem (delete (io_entries (info t)) (kmem c)) c.

(** [info->io_entries[0 .. num_io_entries-1]]. *)
Definition load_io_entries (m : gmap N (list lwis_io_entry))
    (i : lwis_transaction_info) : option (list lwis_io_entry) :=
  if num_io_entries i <=? 0 then Some []
  else
    match m !! io_entries i with
    | Some arr =>
        if (Z.of_nat (length arr) <? num_io_entries i) then None
        else Some (take (Z.to_nat (num_io_entries i)) arr)
    | None => None
    end.

Definition store_io_entries (m : gmap N (list lwis_io_entry))
    (i : lwis_transaction_info) (es : list lwis_io_entry)
    : gmap N (list lwis_io_entry) :=
  if num_io_entries i <=? 0 then m
  else
    match m !! io_entries i with
    | Some arr =>
        <[io_entries i := es ++ drop (Z.to_nat (num_io_entries i)) arr]> m
    | None => m
    end.

Definition entry_rw_val (e : lwis_io_entry) : Z :=
  match e with
  | LWIS_IO_ENTRY_READ rw | LWIS_IO_ENTRY_WRITE rw => rw_val rw
  | _ => 0
  end.

Definition entry_rw_batch_buf (e : lwis_io_entry) : list Z :=
  match e with
  | LWIS_IO_ENTRY_READ_BATCH b | LWIS_IO_ENTRY_WRITE_BATCH b => rwb_buf b
  | _ => []
  end.

Definition push_result (r : lwis_io_result) (resp : lwis_transaction_response)
    : lwis_transaction_response :=
  resp_set_results (resp_results resp ++ [r]) resp.

(** The variables of the [for] loop of [process_transaction]:
    [ls_processed] holds the entries [0 .. i-1] as the loop left them. *)
Record loop_state := {
  ls_dev : W;
  ls_bias : Z;
  ls_i : Z;
  ls_ret : Z;
  ls_resp : lwis_transaction_response;
  ls_processed : list lwis_io_entry
}.

(** The loop continues: [entry] is stored back, [completion_index = i],
    [++i]. *)
Definition loop_continue (s : loop_state) (w : W) (bias ret : Z)
    (r : lwis_transaction_response) (entry : lwis_io_entry)
    : outcome (bool * loop_state) :=
  Done (false,
        {| ls_dev := w; ls_bias := bias; ls_i := ls_i s + 1; ls_ret := ret;
           ls_resp := resp_set_completion_index (ls_i s) r;
           ls_processed := ls_processed s ++ [entry] |}).

(** [resp->error_code = err; goto event_push]. *)
Definition loop_stop (s : loop_state) (w : W) (ret err : Z)
    (r : lwis_transaction_response) (entry : lwis_io_entry)
    : outcome (bool * loop_state) :=
  Done (true,
        {| ls_dev := w; ls_bias := ls_bias s; ls_i := ls_i s; ls_ret := ret;
           ls_resp := resp_set_error_code err r;
           ls_processed := ls_processed s ++ [entry] |}).

(** The body of the loop after [lwis_entry_bias] has been applied. *)
Definition execute_entry (fuel : nat) (in_irq : bool)
    (reg_value_bytewidth : Z) (entry : lwis_io_entry) (s : loop_state)
    : outcome (bool * loop_state) :=
  let w := ls_dev s in
  let r := ls_resp s in
  match entry with
  | LWIS_IO_ENTRY_WRITE _
  | LWIS_IO_ENTRY_WRITE_BATCH _
  | LWIS_IO_ENTRY_MODIFY _ =>
      let '(ret, entry', w') :=
        register_io w entry in_irq (native_value_bitwidth w) in
      if negb (ret =? 0) then loop_stop s w' ret ret r entry'
      else loop_continue s w' (ls_bias s) ret r entry'
  | LWIS_IO_ENTRY_READ rw =>
      let io_result :=
        {| res_bid := rw_bid rw; res_offset := rw_offset rw;
           res_num_value_bytes := reg_value_bytewidth;
           res_values := repeat 0 (Z.to_nat reg_value_bytewidth) |} in
      let '(ret, entry', w') :=
        register_io w entry in_irq (native_value_bitwidth w) in
      if negb (ret =? 0)
      then loop_stop s w' ret ret (push_result io_result r) entry'
      else
        let io_result' :=
          {| res_bid := rw_bid rw; res_offset := rw_offset rw;
             res_num_value_bytes := reg_value_bytewidth;
             res_values :=
               le_bytes (Z.to_nat reg_value_bytewidth)
                 (entry_rw_val entry') |} in
        loop_continue s w' (ls_bias s) ret (push_result io_result' r) entry'
  | LWIS_IO_ENTRY_READ_BATCH b =>
      let entry1 :=
        LWIS_IO_ENTRY_READ_BATCH
          {| rwb_bid := rwb_bid b; rwb_offset := rwb_offset b;
             rwb_size_in_bytes := rwb_size_in_bytes b;
             rwb_buf := repeat 0 (Z.to_nat (rwb_size_in_bytes b)) |} in
      let '(ret, entry', w') :=
        register_io w entry1 in_irq (native_value_bitwidth w) in
      let io_result :=
        {| res_bid := rwb_bid b; res_offset := rwb_offset b;
           res_num_value_bytes := rwb_size_in_bytes b;
           res_values := entry_rw_batch_buf entry' |} in
      if negb (ret =? 0)
      then loop_stop s w' ret ret (push_result io_result r) entry'
      else loop_continue s w' (ls_bias s) ret (push_result io_result r) entry'
  | LWIS_IO_ENTRY_BIAS sb =>
      loop_continue s w (set_bias_bias sb) (ls_ret s) r entry
  | LWIS_IO_ENTRY_POLL p =>
      '(ret, w') ← lwis_entry_poll fuel w p;
      if negb (ret =? 0) then loop_stop s w' ret ret r entry
      else loop_continue s w' (ls_bias s) ret r entry
  | LWIS_IO_ENTRY_OTHER _ =>
      loop_stop s w (ls_ret s) (- EINVAL) r entry
  end.

(** One iteration on [io_entries[i]]: bias the entry in place, then
    execute it.  The flag is [true] when the iteration leaves the loop
    through [event_push]. *)
Definition process_entry (fuel : nat) (in_irq : bool)
    (reg_value_bytewidth : Z) (entry0 : lwis_io_entry) (s : loop_state)
    : outcome (bool * loop_state) :=
  execute_entry fuel in_irq reg_value_bytewidth
    (lwis_entry_bias entry0 (ls_bias s)) s.

(** The [for] loop over the entries from index [i] on.  The result is
    whether the loop was left through [event_push], the loop variables,
    and the entries that were not visited. *)
Fixpoint process_entries (fuel : nat) (in_irq : bool)
    (reg_value_bytewidth : Z) (todo : list lwis_io_entry) (s : loop_state)
    : outcome (bool * loop_state * list lwis_io_entry) :=
  match todo with
  | [] => Done (false, s, [])
  | entry0 :: rest =>
      match process_entry fuel in_irq reg_value_bytewidth entry0 s with
      | Done (true, s') => Done (true, s', rest)
      | Done (false, s') =>
          process_entries fuel in_irq reg_value_bytewidth rest s'
      | OutOfFuel => OutOfFuel
      | Fault => Fault
      end
  end.

(** The loop variables at the start of [process_transaction]. *)
Definition loop_init (w : W) (r : lwis_transaction_response) : loop_state :=
  {| ls_dev := w; ls_bias := 0; ls_i := 0; ls_ret := 0;
     ls_resp := resp_set_completion_index (-1) r; ls_processed := [] |}.

Definition process_transaction (fuel : nat) (c : lwis_client)
    (transaction : lwis_transaction)
    (pending_events : option (list lwis_pending_event)) (in_irq : bool)
    : outcome (Z * lwis_client * option (list lwis_pending_event)) :=
  let i := info transaction in
  let r := resp transaction in
  let reg_value_bytewidth := Z.quot (native_value_bitwidth (lwis_dev c)) 8 in
  let resp_size :=
    wrap64 (sizeof_lwis_transaction_response_header
            + resp_results_size_bytes r) in
  match load_io_entries (kmem c) i with
  | None => Fault
  | Some es =>
      '(_, s, unvisited) ←
        process_entries fuel in_irq reg_value_bytewidth es
          (loop_init (lwis_dev c) r);
      let r' := ls_resp s in
      let pending_events' :=
        match pending_events with
        | Some pe =>
            Some (lwis_pending_event_push pe
                    (if negb (resp_error_code r' =? 0)
                     then emit_error_event_id i
                     else emit_success_event_id i)
                    r' resp_size)
        | None => None
        end in
      let c1 :=
        set_kmem (store_io_entries (kmem c) i (ls_processed s ++ unvisited))
          (set_lwis_dev (ls_dev s) c) in
      let c2 := save_transaction_to_history c1 i in
      let c3 :=
        if trigger_event_counter i =? LWIS_EVENT_COUNTER_EVERY_TIME
        then c2
        else free_transaction c2 transaction in
      Done (ls_ret s, c3, pending_events')
  end.

Definition cancel_transaction (c : lwis_client)
    (transaction : lwis_transaction) (error_code : Z)
    (pending_events : option (list lwis_pending_event))
    : lwis_client * option (list lwis_pending_event) :=
  let i := info transaction in
  let r :=
    {| resp_id := info_id i; resp_error_code := error_code;
       resp_num_entries := 0; resp_results_size_bytes := 0;
       resp_completion_index := -1; resp_results := [];
       resp_alloc_size := sizeof_lwis_transaction_response_header |} in
  let pending_events' :=
    match pending_events with
    | Some pe =>
        Some (lwis_pending_event_push pe (emit_error_event_id i) r
                sizeof_lwis_transaction_response_header)
    | None => None
    end in
  (free_transaction c transaction, pending_events').

(** *** The worker *)

(** The loop of [transaction_work_func] over the process queue [q]; each
    visited transaction is unlinked before it is handled. *)
Fixpoint transaction_work_loop (fuel : nat) (q : list lwis_transaction)
    (c : lwis_client) (pending_events : list lwis_pending_event)
    : outcome (lwis_client * list lwis_pending_event) :=
  match q with
  | [] => Done (c, pending_events)
  | transaction :: q' =>
      let c1 := set_transaction_process_queue q' c in
      if negb (resp_error_code (resp transaction) =? 0) then
        let '(c2, pe) :=
          cancel_transaction c1 transaction
            (resp_error_code (resp transaction)) (Some pending_events) in
        transaction_work_loop fuel q' c2 (default pending_events pe)
      else
        '(_, c2, pe) ←
          process_transaction fuel (spin_unlock_irqrestore c1) transaction
            (Some pending_events) false;
        transaction_work_loop fuel q' (spin_lock_irqsave c2)
          (default pending_events pe)
  end.

Definition transaction_work_func (fuel : nat) (c : lwis_client)
    : outcome lwis_client :=
  let c0 := spin_lock_irqsave (set_transaction_work false c) in
  '(c1, pending_events) ←
    transaction_work_loop fuel (transaction_process_queue c0) c0 [];
  Done (lwis_pending_events_emit (spin_unlock_irqrestore c1) pending_events).

(** *** Flush *)

Fixpoint flush_transactions (c : lwis_client) (txs : list lwis_transaction)
    : lwis_client :=
  match txs with
  | [] => c
  | transaction :: rest =>
      flush_transactions
        (fst (cancel_transaction c transaction (- ECANCELED) None)) rest
  end.

(** The [hash_for_each_safe] loop of flush: the entries that stay in the
    table, and the client after the cancellations. *)
Fixpoint flush_event_lists (tl : list lwis_transaction_event_list)
    (c : lwis_client) : list lwis_transaction_event_list * lwis_client :=
  match tl with
  | [] => ([], c)
  | it_evt_list :: tl' =>
      if event_id it_evt_list =? LWIS_EVENT_ID_CLIENT_CLEANUP then
        let '(kept, c') := flush_event_lists tl' c in
        (it_evt_list :: kept, c')
      else
        flush_event_lists tl'
          (flush_transactions c (event_transactions it_evt_list))
  end.

(** [drain_workqueue]: the pending work item, if any, runs to its end. *)
Definition drain_workqueue (fuel : nat) (c : lwis_client)
    : outcome lwis_client :=
  if transaction_work c then transaction_work_func fuel c else Done c.

(** The first critical section of flush: every event list but the
    client-cleanup one is emptied and deleted. *)
Definition flush_waiting (c : lwis_client) : lwis_client :=
  let c0 := spin_lock_irqsave c in
  let '(kept, c1) := flush_event_lists (transaction_list c0) c0 in
  spin_unlock_irqrestore (set_transaction_list kept c1).

(** The last critical section of flush: what is still in the process
    queue is cancelled. *)
Definition flush_process_queue (c : lwis_client) : lwis_client :=
  let c0 := spin_lock_irqsave c in
  spin_unlock_irqrestore
    (set_transaction_process_queue []
       (flush_transactions c0 (transaction_process_queue c0))).

Definition lwis_transaction_client_flush (fuel : nat)
    (client : option lwis_client) : outcome (Z * option lwis_client) :=
  match client with
  | None => Done (- ENODEV, None)
  | Some c =>
      let c2 := flush_waiting c in
      c3 ← (if transaction_wq c2 then drain_workqueue fuel c2 else Done c2);
      Done (0, Some (flush_process_queue c3))
  end.

(** *** Submission *)

Definition check_transaction_param_locked (c : lwis_client)
    (transaction : lwis_transaction) (allow_eq : bool)
    : Z * lwis_transaction * lwis_client :=
  let i0 := info_set_current_trigger_event_counter (-1) (info transaction) in
  let i1 :=
    if negb (trigger_event_id i0 =? LWIS_EVENT_ID_NONE) then
      match lwis_device_event_state_find (lwis_dev c) (trigger_event_id i0) with
      | None => info_set_current_trigger_event_counter 0 i0
      | Some event_counter =>
          info_set_current_trigger_event_counter event_counter i0
      end
    else i0 in
  let checked : option lwis_transaction_info :=
    if negb (trigger_event_id i1 =? LWIS_EVENT_ID_NONE)
       && EXPLICIT_EVENT_COUNTER (trigger_event_counter i1)
    then
      if trigger_event_counter i1 =? current_trigger_event_counter i1 then
        if allow_eq
        then Some (info_set_trigger_event_id LWIS_EVENT_ID_NONE i1)
        else None
      else if trigger_event_counter i1 <? current_trigger_event_counter i1
      then None
      else Some i1
    else Some i1 in
  match checked with
  | None => (- ENOENT, set_info i1 transaction, c)
  | Some i2 =>
      let t2 := set_info i2 transaction in
      let '(ok1, w1) :=
        lwis_device_event_state_find_or_create (lwis_dev c)
          (emit_success_event_id i2) in
      if negb ok1 then (- EINVAL, t2, set_lwis_dev w1 c) else
      let '(ok2, w2) :=
        lwis_client_event_state_find_or_create w1
          (emit_success_event_id i2) in
      if negb ok2 then (- EINVAL, t2, set_lwis_dev w2 c) else
      let '(ok3, w3) :=
        lwis_device_event_state_find_or_create w2
          (emit_error_event_id i2) in
      if negb ok3 then (- EINVAL, t2, set_lwis_dev w3 c) else
      let '(ok4, w4) :=
        lwis_client_event_state_find_or_create w3
          (emit_error_event_id i2) in
      if negb ok4 then (- EINVAL, t2, set_lwis_dev w4 c)
      else (0, t2, set_lwis_dev w4 c)
  end.

(** The scan of [prepare_response_locked]: ([read_buf_size],
    [read_entries]). *)
Fixpoint scan_read_entries (reg_value_bytewidth : Z)
    (es : list lwis_io_entry) (read_buf_size read_entries : Z) : Z * Z :=
  match es with
  | [] => (read_buf_size, read_entries)
  | LWIS_IO_ENTRY_READ _ :: rest =>
      scan_read_entries reg_value_bytewidth rest
        (wrap64 (read_buf_size + reg_value_bytewidth)) (read_entries + 1)
  | LWIS_IO_ENTRY_READ_BATCH b :: rest =>
      scan_read_entries reg_value_bytewidth rest
        (wrap64 (read_buf_size + rwb_size_in_bytes b)) (read_entries + 1)
  | _ :: rest =>
      scan_read_entries reg_value_bytewidth rest read_buf_size read_entries
  end.

(** On allocation failure the C code stores NULL in [transaction->resp]
    and returns; the model leaves the field as it was. *)
Definition prepare_response_locked (c : lwis_client)
    (transaction : lwis_transaction)
    : outcome (Z * lwis_transaction * lwis_client) :=
  let reg_value_bytewidth := Z.quot (native_value_bitwidth (lwis_dev c)) 8 in
  let i := info_set_id (transaction_counter c) (info transaction) in
  match load_io_entries (kmem c) i with
  | None => Fault
  | Some es =>
      let '(read_buf_size, read_entries) :=
        scan_read_entries reg_value_bytewidth es 0 0 in
      let resp_size :=
        wrap64 (sizeof_lwis_transaction_response_header
                + read_entries * sizeof_lwis_io_result + read_buf_size) in
      let '(ok, w) := kzalloc (lwis_dev c) resp_size in
      let c1 := set_lwis_dev w c in
      if negb ok then Done (- ENOMEM, set_info i transaction, c1)
      else
        let r :=
          {| resp_id := info_id i; resp_error_code := 0;
             resp_num_entries := read_entries;
             resp_results_size_bytes :=
               wrap64 (read_entries * sizeof_lwis_io_result + read_buf_size);
             resp_completion_index := 0; resp_results := [];
             resp_alloc_size := resp_size |} in
        Done (0, {| info := i; resp := r |}, c1)
  end.

(** The transaction is linked by address, so the list holds it with the
    timestamp that is written after [list_add_tail]. *)
Definition queue_transaction_locked (c : lwis_client)
    (transaction : lwis_transaction)
    : outcome (Z * lwis_transaction * lwis_client) :=
  let i := info transaction in
  if trigger_event_id i =? LWIS_EVENT_ID_NONE then
    let '(now, w) := ktime_get_ns (lwis_dev c) in
    let t' := set_info (info_set_submission_timestamp_ns now i) transaction in
    c1 ← queue_work
           (set_transaction_process_queue
              (transaction_process_queue c ++ [t']) c);
    Done (0, t',
          set_transaction_counter (sint64 (transaction_counter c1 + 1))
            (set_lwis_dev w c1))
  else
    match event_list_find_or_create c (trigger_event_id i) with
    | (None, c1) => Done (- EINVAL, transaction, c1)
    | (Some event_list, c1) =>
        let '(now, w) := ktime_get_ns (lwis_dev c1) in
        let t' :=
          set_info (info_set_submission_timestamp_ns now i) transaction in
        let tl :=
          event_list_store (transaction_list c1) (trigger_event_id i)
            (event_transactions event_list ++ [t']) in
        Done (0, t',
              set_transaction_counter (sint64 (transaction_counter c1 + 1))
                (set_lwis_dev w (set_transaction_list tl c1)))
    end.

Definition lwis_transaction_submit_locked (c : lwis_client)
    (transaction : lwis_transaction)
    : outcome (Z * lwis_transaction * lwis_client) :=
  let '(ret, t1, c1) :=
    check_transaction_param_locked c transaction
      (allow_counter_eq (info transaction)) in
  if negb (ret =? 0) then Done (ret, t1, c1) else
  '(ret, t2, c2) ← prepare_response_locked c1 t1;
  if negb (ret =? 0) then Done (ret, t2, c2) else
  queue_transaction_locked c2 t2.

(** *** Event trigger *)

Definition new_repeating_transaction_iteration (c : lwis_client)
    (transaction : lwis_transaction) : option lwis_transaction * lwis_client :=
  let '(ok, w) := kzalloc (lwis_dev c) sizeof_lwis_transaction in
  if negb ok then (None, set_lwis_dev w c) else
  let size :=
    wrap64 (sizeof_lwis_transaction_response_header
            + resp_results_size_bytes (resp transaction)) in
  let '(ok', w') := kzalloc w size in
  if negb ok' then (None, set_lwis_dev w' c) else
  let r := resp transaction in
  (Some {| info := info transaction;
           resp :=
             {| resp_id := resp_id r; resp_error_code := resp_error_code r;
                resp_num_entries := resp_num_entries r;
                resp_results_size_bytes := resp_results_size_bytes r;
                resp_completion_index := resp_completion_index r;
                resp_results := []; resp_alloc_size := size |} |},
   set_lwis_dev w' c).

Definition enqueue_process (c : lwis_client) (t : lwis_transaction)
    : lwis_client :=
  set_transaction_process_queue (transaction_process_queue c ++ [t]) c.

(** One iteration of the [list_for_each_safe] loop of
    [lwis_transaction_event_trigger].  The first component is the
    transaction as it stays in the event list, or [None] when the iteration
    unlinks it. *)
Definition event_trigger_step (fuel : nat) (event_counter : Z)
    (in_irq : bool) (transaction : lwis_transaction) (c : lwis_client)
    (pending_events : option (list lwis_pending_event))
    : outcome (option lwis_transaction * lwis_client
               * option (list lwis_pending_event)) :=
  if negb (resp_error_code (resp transaction) =? 0) then
    Done (None, enqueue_process c transaction, pending_events)
  else
    let trigger_counter := trigger_event_counter (info transaction) in
    if (trigger_counter =? LWIS_EVENT_COUNTER_ON_NEXT_OCCURRENCE)
       || (trigger_counter =? event_counter)
    then
      if run_in_event_context (info transaction)
         && negb (device_type_is_i2c (lwis_dev c))
      then
        '(_, c1, pe) ←
          process_transaction fuel (spin_unlock_irqrestore c) transaction
            pending_events in_irq;
        Done (None, spin_lock_irqsave c1, pe)
      else Done (None, enqueue_process c transaction, pending_events)
    else if trigger_counter =? LWIS_EVENT_COUNTER_EVERY_TIME then
      match new_repeating_transaction_iteration c transaction with
      | (None, c1) =>
          let t' :=
            set_resp (resp_set_error_code (- ENOMEM) (resp transaction))
              transaction in
          Done (None, enqueue_process c1 t', pending_events)
      | (Some new_instance, c1) =>
          if run_in_event_context (info transaction)
             && negb (device_type_is_i2c (lwis_dev c1))
          then
            '(_, c2, pe) ←
              process_transaction fuel (spin_unlock_irqrestore c1)
                new_instance pending_events in_irq;
            Done (Some transaction, spin_lock_irqsave c2, pe)
          else
            Done (Some transaction, enqueue_process c1 new_instance,
                  pending_events)
      end
    else Done (Some transaction, c, pending_events).

(** The loop over the event list [txs]; [kept] collects, in order, the
    transactions that stay linked. *)
Fixpoint event_trigger_loop (fuel : nat) (event_counter : Z) (in_irq : bool)
    (txs kept : list lwis_transaction) (c : lwis_client)
    (pending_events : option (list lwis_pending_event))
    : outcome (list lwis_transaction * lwis_client
               * option (list lwis_pending_event)) :=
  match txs with
  | [] => Done (kept, c, pending_events)
  | transaction :: rest =>
      '(stay, c1, pe) ←
        event_trigger_step fuel event_counter in_irq transaction c
          pending_events;
      event_trigger_loop fuel event_counter in_irq rest
        (kept ++ match stay with Some t => [t] | None => [] end) c1 pe
  end.

Definition lwis_transaction_event_trigger (fuel : nat) (c : lwis_client)
    (event_id : Z) (event_counter : Z)
    (pending_events : option (list lwis_pending_event)) (in_irq : bool)
    : outcome (Z * lwis_client * option (list lwis_pending_event)) :=
  let c0 := spin_lock_irqsave c in
  match event_list_find (transaction_list c0) event_id with
  | None => Done (0, spin_unlock_irqrestore c0, pending_events)
  | Some event_list =>
      match event_transactions event_list with
      | [] => Done (0, spin_unlock_irqrestore c0, pending_events)
      | txs =>
          '(kept, c1, pe) ←
            event_trigger_loop fuel event_counter in_irq txs [] c0
              pending_events;
          let c2 :=
            set_transaction_list
              (event_list_store (transaction_list c1) event_id kept) c1 in
          c3 ← (match transaction_process_queue c2 with
                | [] => Done c2
                | _ => queue_work c2
                end);
          Done (0, spin_unlock_irqrestore c3, pe)
      end
  end.

(** *** Cancel and replace *)

Fixpoint cancel_in_event_list (txs : list lwis_transaction) (id : Z)
    : option (list lwis_transaction) :=
  match txs with
  | [] => None
  | transaction :: rest =>
      if info_id (info transaction) =? id then
        Some (set_resp (resp_set_error_code (- ECANCELED) (resp transaction))
                transaction :: rest)
      else
        match cancel_in_event_list rest id with
        | Some rest' => Some (transaction :: rest')
        | None => None
        end
  end.

Fixpoint cancel_in_transaction_list (tl : list lwis_transaction_event_list)
    (id : Z) : option (list lwis_transaction_event_list) :=
  match tl with
  | [] => None
  | it_evt_list :: tl' =>
      match cancel_in_event_list (event_transactions it_evt_list) id with
      | Some txs =>
          Some ({| event_id := event_id it_evt_list;
                   event_transactions := txs |} :: tl')
      | None =>
          match cancel_in_transaction_list tl' id with
          | Some tl'' => Some (it_evt_list :: tl'')
          | None => None
          end
      end
  end.

Definition cancel_waiting_transaction_locked (c : lwis_client) (id : Z)
    : Z * lwis_client :=
  match cancel_in_transaction_list (transaction_list c) id with
  | Some tl => (0, set_transaction_list tl c)
  | None => (- ENOENT, c)
  end.

Definition lwis_transaction_cancel (c : lwis_client) (id : Z)
    : Z * lwis_client :=
  let '(ret, c1) := cancel_waiting_transaction_locked (spin_lock_irqsave c) id in
  (ret, spin_unlock_irqrestore c1).

Definition lwis_transaction_replace_locked (c : lwis_client)
    (transaction : lwis_transaction)
    : outcome (Z * lwis_transaction * lwis_client) :=
  let '(ret, t1, c1) :=
    check_transaction_param_locked c transaction false in
  if negb (ret =? 0) then Done (ret, t1, c1) else
  let '(ret, c2) := cancel_waiting_transaction_locked c1 (info_id (info t1)) in
  if negb (ret =? 0) then Done (ret, t1, c2) else
  '(ret, t2, c3) ← prepare_response_locked c2 t1;
  if negb (ret =? 0) then Done (ret, t2, c3) else
  queue_transaction_locked c3 t2.

End Transaction.

(** ** A simulated device

    A register file with a clock, used for the concrete runs.  Writes
    store, reads return what was stored (0 for untouched registers);
    [sim_io_ret] and [sim_alloc] inject the return codes of the next
    register accesses and the results of the next allocations. *)

Record sim_world := {
  sim_regs : gmap (Z * Z) Z;
  sim_now_ms : Z;
  sim_io_ret : list Z;
  sim_alloc : list bool;
  sim_dev_events : gmap Z Z;
  sim_client_events : list Z;
  sim_event_create_ok : bool;
  sim_bitwidth : Z;
  sim_i2c : bool
}.

Definition sim_with_regs (m : gmap (Z * Z) Z) (w : sim_world) :=
  {| sim_regs := m; sim_now_ms := sim_now_ms w; sim_io_ret := sim_io_ret w;
     sim_alloc := sim_alloc w; sim_dev_events := sim_dev_events w;
     sim_client_events := sim_client_events w;
     sim_event_create_ok := sim_event_create_ok w;
     sim_bitwidth := sim_bitwidth w; sim_i2c := sim_i2c w |}.

Definition sim_with_now (t : Z) (w : sim_world) :=
  {| sim_regs := sim_regs w; sim_now_ms := t; sim_io_ret := sim_io_ret w;
     sim_alloc := sim_alloc w; sim_dev_events := sim_dev_events w;
     sim_client_events := sim_client_events w;
     sim_event_create_ok := sim_event_create_ok w;
     sim_bitwidth := sim_bitwidth w; sim_i2c := sim_i2c w |}.

Definition sim_with_io_ret (l : list Z) (w : sim_world) :=
  {| sim_regs := sim_regs w; sim_now_ms := sim_now_ms w; sim_io_ret := l;
     sim_alloc := sim_alloc w; sim_dev_events := sim_dev_events w;
     sim_client_events := sim_client_events w;
     sim_event_create_ok := sim_event_create_ok w;
     sim_bitwidth := sim_bitwidth w; sim_i2c := sim_i2c w |}.

Definition sim_with_alloc (l : list bool) (w : sim_world) :=
  {| sim_regs := sim_regs w; sim_now_ms := sim_now_ms w;
     sim_io_ret := sim_io_ret w;
     sim_alloc := l; sim_dev_events := sim_dev_events w;
     sim_client_events := sim_client_events w;
     sim_event_create_ok := sim_event_create_ok w;
     sim_bitwidth := sim_bitwidth w; sim_i2c := sim_i2c w |}.

Definition sim_with_events (d : gmap Z Z) (cl : list Z) (w : sim_world) :=
  {| sim_regs := sim_regs w; sim_now_ms := sim_now_ms w;
     sim_io_ret := sim_io_ret w;
     sim_alloc := sim_alloc w; sim_dev_events := d;
     sim_client_events := cl;
     sim_event_create_ok := sim_event_create_ok w;
     sim_bitwidth := sim_bitwidth w; sim_i2c := sim_i2c w |}.

Definition sim_reg (w : sim_world) (bid offset : Z) : Z :=
  default 0 (sim_regs w !! (bid, offset)).

Fixpoint sim_write_bytes (m : gmap (Z * Z) Z) (bid offset : Z)
    (bytes : list Z) : gmap (Z * Z) Z :=
  match bytes with
  | [] => m
  | b :: rest => sim_write_bytes (<[(bid, offset) := b]> m) bid (offset + 1) rest
  end.

Fixpoint sim_read_bytes (w : sim_world) (bid offset : Z) (n : nat)
    : list Z :=
  match n with
  | O => []
  | S n' => sim_reg w bid offset :: sim_read_bytes w bid (offset + 1) n'
  end.

(** The next injected return code, 0 when none is left. *)
Definition sim_next_ret (w : sim_world) : Z * sim_world :=
  match sim_io_ret w with
  | [] => (0, w)
  | r :: rest => (r, sim_with_io_ret rest w)
  end.

Definition sim_register_io (w : sim_world) (entry : lwis_io_entry)
    (in_irq : bool) (bitwidth : Z) : Z * lwis_io_entry * sim_world :=
  let '(ret, w1) := sim_next_ret w in
  if negb (ret =? 0) then (ret, entry, w1) else
  match entry with
  | LWIS_IO_ENTRY_WRITE rw =>
      (0, entry,
       sim_with_regs (<[(rw_bid rw, rw_offset rw) := rw_val rw]> (sim_regs w1))
         w1)
  | LWIS_IO_ENTRY_READ rw =>
      (0,
       LWIS_IO_ENTRY_READ
         {| rw_bid := rw_bid rw; rw_offset := rw_offset rw;
            rw_val := sim_reg w1 (rw_bid rw) (rw_offset rw) |},
       w1)
  | LWIS_IO_ENTRY_MODIFY m =>
      let old := sim_reg w1 (mod_bid m) (mod_offset m) in
      let new :=
        Z.lor (Z.land old (not64 (mod_val_mask m)))
              (Z.land (mod_val m) (mod_val_mask m)) in
      (0, entry,
       sim_with_regs (<[(mod_bid m, mod_offset m) := new]> (sim_regs w1)) w1)
  | LWIS_IO_ENTRY_WRITE_BATCH b =>
      (0, entry,
       sim_with_regs
         (sim_write_bytes (sim_regs w1) (rwb_bid b) (rwb_offset b) (rwb_buf b))
         w1)
  | LWIS_IO_ENTRY_READ_BATCH b =>
      (0,
       LWIS_IO_ENTRY_READ_BATCH
         {| rwb_bid := rwb_bid b; rwb_offset := rwb_offset b;
            rwb_size_in_bytes := rwb_size_in_bytes b;
            rwb_buf :=
              sim_read_bytes w1 (rwb_bid b) (rwb_offset b)
                (Z.to_nat (rwb_size_in_bytes b)) |},
       w1)
  | _ => (0, entry, w1)
  end.

Definition sim_single_register_read (w : sim_world) (in_irq : bool)
    (bid offset bitwidth : Z) : Z * Z * sim_world :=
  let '(ret, w1) := sim_next_ret w in
  if negb (ret =? 0) then (ret, 0, w1)
  else (0, sim_reg w1 bid offset, w1).

Definition sim_kzalloc (w : sim_world) (size : Z) : bool * sim_world :=
  match sim_alloc w with
  | [] => (true, w)
  | ok :: rest => (ok, sim_with_alloc rest w)
  end.

Definition sim_device_event_find_or_create (w : sim_world) (id : Z)
    : bool * sim_world :=
  match sim_dev_events w !! id with
  | Some _ => (true, w)
  | None =>
      if sim_event_create_ok w
      then (true,
            sim_with_events (<[id := 0]> (sim_dev_events w))
              (sim_client_events w) w)
      else (false, w)
  end.

Definition sim_client_event_find_or_create (w : sim_world) (id : Z)
    : bool * sim_world :=
  if existsb (Z.eqb id) (sim_client_events w) then (true, w)
  else if sim_event_create_ok w
  then (true, sim_with_events (sim_dev_events w) (id :: sim_client_events w) w)
  else (false, w).

Definition sim_env : lwis_env sim_world :=
  {| native_value_bitwidth := sim_bitwidth;
     device_type_is_i2c := sim_i2c;
     register_io := sim_register_io;
     lwis_device_single_register_read := sim_single_register_read;
     lwis_get_time_ms := fun w => (sim_now_ms w, w);
     usleep_range := fun w lo hi => sim_with_now (sim_now_ms w + lo / 1000) w;
     ktime_get_ns := fun w => (sim_now_ms w * 1000000, w);
     kzalloc := sim_kzalloc;
     lwis_device_event_state_find := fun w id => sim_dev_events w !! id;
     lwis_device_event_state_find_or_create :=
       sim_device_event_find_or_create;
     lwis_client_event_state_find_or_create :=
       sim_client_event_find_or_create |}.

(** A sample configuration of the header constants. *)
Definition sample_constants : lwis_constants :=
  {| LWIS_EVENT_ID_NONE := 0;
     LWIS_EVENT_ID_CLIENT_CLEANUP := 2;
     LWIS_EVENT_COUNTER_ON_NEXT_OCCURRENCE := -1;
     LWIS_EVENT_COUNTER_EVERY_TIME := -2;
     TRANSACTION_DEBUG_HISTORY_SIZE := 4;
     sizeof_lwis_transaction_response_header := 32;
     sizeof_lwis_io_result := 24;
     sizeof_lwis_transaction := 128;
     sizeof_lwis_transaction_event_list := 40 |}.

Definition sim_world0 : sim_world :=
  {| sim_regs := ∅; sim_now_ms := 0; sim_io_ret := []; sim_alloc := [];
     sim_dev_events := ∅; sim_client_events := [];
     sim_event_create_ok := true; sim_bitwidth := 32; sim_i2c := false |}.

Definition sim_client0 : @lwis_client sim_world :=
  {| lwis_dev := sim_world0; transaction_list := [];
     transaction_process_queue := []; transaction_counter := 0;
     transaction_wq := true; transaction_work := false;
     debug_info :=
       {| transaction_hist := []; cur_transaction_hist_idx := 0 |};
     kmem := ∅; transaction_lock := []; emitted := [] |}.

(** A transaction as the ioctl layer hands it over: [n] entries at
    address [p], trigger event [ev] with counter [cnt]. *)
Definition mk_info (ev cnt : Z) (n : Z) (p : N) (inline eq : bool)
    : lwis_transaction_info :=
  {| trigger_event_id := ev; trigger_event_counter := cnt;
     num_io_entries := n; io_entries := p;
     run_in_event_context := inline; allow_counter_eq := eq;
     emit_success_event_id := 100; emit_error_event_id := 101;
     info_id := 0; current_trigger_event_counter := 0;
     submission_timestamp_ns := 0 |}.

Definition blank_resp : lwis_transaction_response :=
  {| resp_id := 0; resp_error_code := 0; resp_num_entries := 0;
     resp_results_size_bytes := 0; resp_completion_index := 0;
     resp_results := []; resp_alloc_size := 0 |}.

Definition mk_transaction (ev cnt : Z) (n : Z) (p : N) (inline eq : bool)
    : lwis_transaction :=
  {| info := mk_info ev cnt n p inline eq; resp := blank_resp |}.

(** The poll of the example: mask 0xFF, expected value 0x3, 10 ms. *)
Definition example_poll : lwis_io_entry_poll :=
  {| poll_bid := 0; poll_offset := 16; poll_val := 3; poll_mask := 255;
     poll_timeout_ms := 10 |}.

(** ** Vocabulary of the statements *)


(** The bias in force after the entries [es], starting from [bias]: the
    value of the last [LWIS_IO_ENTRY_BIAS] entry, if any. *)
Definition last_bias (bias : Z) (es : list lwis_io_entry) : Z :=
  fold_left
    (fun b e =>
       match e with
       | LWIS_IO_ENTRY_BIAS sb => set_bias_bias sb
       | _ => b
       end) es bias.


(** The error code an iteration that leaves the loop records: the return
    code of the failing call, or -EINVAL for an unrecognised entry (which
    leaves [ret] as it was, 0). *)
Definition recorded_error (ret : Z) : Z :=
  if ret =? 0 then - EINVAL else ret.


(** The entries of the round-trip example: write 5 to register 0x10, then
    read register 0x10. *)
Definition roundtrip_entries (bid v0 : Z) : list lwis_io_entry :=
  [LWIS_IO_ENTRY_WRITE {| rw_bid := bid; rw_offset := 16; rw_val := 5 |};
   LWIS_IO_ENTRY_READ {| rw_bid := bid; rw_offset := 16; rw_val := v0 |}].

(** A client of the simulated device whose memory holds [es] at address
    7, and an immediate transaction over these entries. *)
Definition sim_client_with (es : list lwis_io_entry) : @lwis_client sim_world :=
  @set_kmem sim_world (<[7%N := es]> ∅) sim_client0.

Definition sim_immediate (n : Z) : lwis_transaction :=
  mk_transaction 0 0 n 7%N false false.


(** The event counter that the validation compares with: the counter of
    the trigger event's device state, 0 when there is none. *)
Definition current_counter {W : Type} {E : lwis_env W} (c : @lwis_client W)
    (t : lwis_transaction) : Z :=
  match lwis_device_event_state_find (lwis_dev c) (trigger_event_id (info t))
  with
  | Some event_counter => event_counter
  | None => 0
  end.

(** A client of the simulated device on which event 5 has occurred three
    times. *)
Definition sim_client_event5 : @lwis_client sim_world :=
  @set_lwis_dev sim_world (sim_with_events {[5 := 3]} [] sim_world0)
    (sim_client_with []).


(** How many transactions of an event list, and of the whole index, have
    id [id]. *)
Fixpoint count_in_event_list (id : Z) (txs : list lwis_transaction) : nat :=
  match txs with
  | [] => 0
  | t :: rest =>
      ((if (info_id (info t) =? id)%Z then 1 else 0)
       + count_in_event_list id rest)%nat
  end.

Fixpoint count_waiting (id : Z) (tl : list lwis_transaction_event_list)
    : nat :=
  match tl with
  | [] => 0
  | l :: rest =>
      (count_in_event_list id (event_transactions l) + count_waiting id rest)%nat
  end.

(** The index with every transaction of id [id] marked as canceled, each
    in its place. *)
Definition cancel_mark (id : Z) (t : lwis_transaction) : lwis_transaction :=
  if info_id (info t) =? id
  then set_resp (resp_set_error_code (- ECANCELED) (resp t)) t
  else t.

Definition mark_canceled (id : Z) (tl : list lwis_transaction_event_list)
    : list lwis_transaction_event_list :=
  map (fun l =>
         {| event_id := event_id l;
            event_transactions := map (cancel_mark id) (event_transactions l) |})
      tl.

(** A transaction with id [id] waiting for the next occurrence of event 5,
    and a client of the simulated device that holds it. *)
Definition sim_waiting (id : Z) : lwis_transaction :=
  {| info := info_set_id id (mk_info 5 (-1) 0 7%N false false);
     resp := blank_resp |}.

Definition sim_client_waiting (txs : list lwis_transaction)
    : @lwis_client sim_world :=
  @set_transaction_list sim_world
    [{| event_id := 5; event_transactions := txs |}] sim_client0.

(** C6 as it is stated: with exactly one waiting transaction of id [id],
    the first cancel succeeds and a second cancel answers -ENOENT. *)
Definition cancel_twice_as_stated {W : Type} (c : @lwis_client W) (id : Z)
    : Prop :=
  count_waiting id (transaction_list c) = 1%nat ->
  fst (lwis_transaction_cancel c id) = 0
  /\ fst (lwis_transaction_cancel (snd (lwis_transaction_cancel c id)) id)
     = - ENOENT.


(** C8 as it is stated: replace answers what submit's validation (with
    the transaction's own [allow_counter_eq]) answers when that fails;
    otherwise -ENOENT when no waiting transaction has the id; otherwise it
    goes on to cancel, prepare and queue, so it does not answer -ENOENT. *)
Definition replace_as_stated {K : lwis_constants} {W : Type} {E : lwis_env W}
    (c : @lwis_client W) (t : lwis_transaction) : Prop :=
  let '(ret, t1, c1) :=
    check_transaction_param_locked c t (allow_counter_eq (info t)) in
  if negb (ret =? 0) then
    lwis_transaction_replace_locked c t = Done (ret, t1, c1)
  else if Nat.eqb (count_waiting (info_id (info t)) (transaction_list c)) 0
  then lwis_transaction_replace_locked c t = Done (- ENOENT, t1, c1)
  else
    exists r t' c',
      lwis_transaction_replace_locked c t = Done (r, t', c')
      /\ r <> - ENOENT.

(** A client of the simulated device on which event 5 has occurred three
    times and a transaction of id 0 waits for event 9. *)
Definition sim_client_replace : @lwis_client sim_world :=
  @set_transaction_list sim_world
    [{| event_id := 9;
        event_transactions := [mk_transaction 9 (-1) 0 7%N false false] |}]
    sim_client_event5.


(** The waiting transactions that an occurrence [event_counter] of their
    trigger event passes over: no error, an explicit trigger counter, and
    that counter is not the occurrence count. *)
Definition passed_over {K : lwis_constants} (event_counter : Z)
    (t : lwis_transaction) : bool :=
  (resp_error_code (resp t) =? 0)
  && EXPLICIT_EVENT_COUNTER (trigger_event_counter (info t))
  && negb (trigger_event_counter (info t) =? event_counter).


(** A client of the simulated device with two transactions waiting on
    event 5: one for occurrence 9, one for the next occurrence. *)
Definition sim_client_two_waiting : @lwis_client sim_world :=
  sim_client_waiting [mk_transaction 5 9 0 7%N false false; sim_waiting 1].


(** The transactions waiting in the index outside the client-cleanup
    list. *)
Definition is_cleanup_list {K : lwis_constants}
    (l : lwis_transaction_event_list) : bool :=
  event_id l =? LWIS_EVENT_ID_CLIENT_CLEANUP.

Definition waiting_transactions {K : lwis_constants}
    (tl : list lwis_transaction_event_list) : list lwis_transaction :=
  concat
    (map event_transactions
       (List.filter (fun l => negb (is_cleanup_list l)) tl)).

(** The event that the worker emits for a queued transaction [t]: a
    transaction that carries an error is cancelled with that error, any
    other one is executed and reports under its response id. *)
Definition drained_event (t : lwis_transaction) (ev : lwis_pending_event)
    : Prop :=
  if resp_error_code (resp t) =? 0
  then resp_id (pe_payload ev) = resp_id (resp t)
       /\ (pe_event_id ev = emit_success_event_id (info t)
           \/ pe_event_id ev = emit_error_event_id (info t))
  else resp_id (pe_payload ev) = info_id (info t)
       /\ resp_error_code (pe_payload ev) = resp_error_code (resp t)
       /\ pe_event_id ev = emit_error_event_id (info t).



(** A client of the simulated device with the round-trip transaction in
    the process queue (work pending) and one transaction waiting on
    event 5. *)
Definition sim_client_flush : @lwis_client sim_world :=
  @set_transaction_work sim_world true
    (@set_transaction_process_queue sim_world [sim_immediate 2]
       (@set_transaction_list sim_world
          [{| event_id := 5;
              event_transactions :=
                [mk_transaction 5 (-1) 0 8%N false false] |}]
          (sim_client_with (roundtrip_entries 0 0)))).


(** The record that a firing creates for a repeating transaction: the
    info of the original (the same io_entries array with it) and a fresh
    response buffer of the original's size that starts as a copy of the
    original's header. *)
Definition repeating_instance {K : lwis_constants} (t : lwis_transaction)
    : lwis_transaction :=
  {| info := info t;
     resp :=
       {| resp_id := resp_id (resp t);
          resp_error_code := resp_error_code (resp t);
          resp_num_entries := resp_num_entries (resp t);
          resp_results_size_bytes := resp_results_size_bytes (resp t);
          resp_completion_index := resp_completion_index (resp t);
          resp_results := [];
          resp_alloc_size :=
            wrap64 (sizeof_lwis_transaction_response_header
                    + resp_results_size_bytes (resp t)) |} |}.




(** A client of the simulated device on whose event 5 the repeating
    round-trip transaction waits; it runs in the event context when
    [inline] is set. *)
Definition sim_repeating (inline : bool) : lwis_transaction :=
  mk_transaction 5 (-2) 2 7%N inline false.

Definition sim_client_repeating (inline : bool) : @lwis_client sim_world :=
  @set_transaction_list sim_world
    [{| event_id := 5; event_transactions := [sim_repeating inline] |}]
    (sim_client_with (roundtrip_entries 0 0)).


(** The operations on a client, and runs of them.  A run collects, in
    order, the results of its submit and replace calls: the return code
    and the transaction as the call left it. *)
Inductive client_op :=
| OpSubmit (t : lwis_transaction)
| OpReplace (t : lwis_transaction)
| OpCancel (id : Z)
| OpEvent (id event_counter : Z) (in_irq : bool)
| OpWork
| OpFlush.

Definition run_op {K : lwis_constants} {W : Type} {E : lwis_env W}
    (fuel : nat) (c : @lwis_client W) (op : client_op)
    : outcome (option (Z * lwis_transaction) * @lwis_client W) :=
  match op with
  | OpSubmit t =>
      '(ret, t', c') ← lwis_transaction_submit_locked c t;
      Done (Some (ret, t'), c')
  | OpReplace t =>
      '(ret, t', c') ← lwis_transaction_replace_locked c t;
      Done (Some (ret, t'), c')
  | OpCancel id => Done (None, snd (lwis_transaction_cancel c id))
  | OpEvent id event_counter in_irq =>
      '(_, c', pending) ←
        lwis_transaction_event_trigger fuel c id event_counter (Some [])
          in_irq;
      Done (None, lwis_pending_events_emit c' (default [] pending))
  | OpWork => c' ← transaction_work_func fuel c; Done (None, c')
  | OpFlush =>
      '(_, c') ← lwis_transaction_client_flush fuel (Some c);
      Done (None, default c c')
  end.

Fixpoint run_ops {K : lwis_constants} {W : Type} {E : lwis_env W}
    (fuel : nat) (c : @lwis_client W) (ops : list client_op)
    : outcome (list (Z * lwis_transaction) * @lwis_client W) :=
  match ops with
  | [] => Done ([], c)
  | op :: rest =>
      '(o, c1) ← run_op fuel c op;
      '(results, c2) ← run_ops fuel c1 rest;
      Done (match o with Some r => r :: results | None => results end, c2)
  end.

(** The ids given to the transactions that were queued successfully. *)
Definition assigned_ids (results : list (Z * lwis_transaction)) : list Z :=
  map (fun r => info_id (info (snd r)))
    (List.filter (fun r => fst r =? 0) results).

(** [n], [n+1], ..., [m] values in all. *)
Definition consecutive (n : Z) (m : nat) : list Z :=
  map (fun k => n + Z.of_nat k) (seq 0 m).


(** A run on the simulated device: an immediate submission, a stale one
    (it fails), a run of the worker, a submission that waits on event 5, a
    cancel, and one more immediate submission. *)
Definition sim_ops : list client_op :=
  [OpSubmit (mk_transaction 0 0 0 7%N false false);
   OpSubmit (mk_transaction 5 1 0 7%N false false);
   OpWork;
   OpSubmit (mk_transaction 5 9 0 7%N false false);
   OpCancel 1;
   OpSubmit (mk_transaction 0 0 0 7%N false false)].


(** A repeating transaction with a bias: set the bias to 4, then write 5
    to register 0x10.  It waits on event 5 of the simulated device and
    runs in the event context. *)
Definition bias_entries : list lwis_io_entry :=
  [LWIS_IO_ENTRY_BIAS {| set_bias_bias := 4 |};
   LWIS_IO_ENTRY_WRITE {| rw_bid := 0; rw_offset := 16; rw_val := 5 |}].

Definition sim_client_bias : @lwis_client sim_world :=
  @set_transaction_list sim_world
    [{| event_id := 5; event_transactions := [sim_repeating true] |}]
    (sim_client_with bias_entries).


(** The bytes of register data that an entry contributes to the response:
    the native width for a read, the batch size for a batch read, nothing
    for the other entries. *)
Definition entry_result_bytes (reg_value_bytewidth : Z) (e : lwis_io_entry)
    : option Z :=
  match e with
  | LWIS_IO_ENTRY_READ _ => Some reg_value_bytewidth
  | LWIS_IO_ENTRY_READ_BATCH b => Some (rwb_size_in_bytes b)
  | _ => None
  end.

Definition total (l : list Z) : Z := fold_right Z.add 0 l.

(** The register data held by a list of results, in bytes. *)
Definition results_bytes (rs : list lwis_io_result) : Z :=
  total (map res_num_value_bytes rs).



(** ** The life cycle of a client

    What the life-cycle functions read beyond [lwis_env]: the enable count
    of the device, and the creation of the client's workqueue. *)

Class lwis_kernel (W : Type) := {
  (** [lwis_dev->enabled]. *)
  enabled : W -> Z;
  (** [create_workqueue("lwistran")]: whether the returned pointer is not
      NULL. *)
  create_workqueue : W -> bool * W;
  destroy_workqueue : W -> W
}.

Section Lifecycle.

Context {K : lwis_constants} {W : Type} {E : lwis_env W} {D : lwis_kernel W}.

(** The fields that [lwis_transaction_init] writes are set; the others
    are as they were. *)
Definition lwis_transaction_init (c : @lwis_client W) : Z * @lwis_client W :=
  let '(wq, w) := create_workqueue (lwis_dev c) in
  (0,
   {| lwis_dev := w; transaction_list := [];
      transaction_process_queue := []; transaction_counter := 0;
      transaction_wq := wq; transaction_work := false;
      debug_info := debug_info c; kmem := kmem c; transaction_lock := [];
      emitted := emitted c |}).

(** [hash_del] of the entry that [event_list_find] returns for [id]. *)
Fixpoint event_list_del (tl : list lwis_transaction_event_list) (id : Z)
    : list lwis_transaction_event_list :=
  match tl with
  | [] => []
  | l :: tl' => if event_id l =? id then tl' else l :: event_list_del tl' id
  end.

(** The [list_for_each_safe] loop of [lwis_transaction_client_cleanup]
    over the client-cleanup list [txs]; each visited transaction is
    unlinked before it is handled. *)
Fixpoint cleanup_loop (fuel : nat) (txs : list lwis_transaction)
    (c : @lwis_client W) : outcome (@lwis_client W) :=
  match txs with
  | [] => Done c
  | transaction :: rest =>
      let c0 :=
        set_transaction_list
          (event_list_store (transaction_list c) LWIS_EVENT_ID_CLIENT_CLEANUP
             rest) c in
      if negb (resp_error_code (resp transaction) =? 0)
         || (enabled (lwis_dev c0) =? 0)
      then
        cleanup_loop fuel rest
          (fst (cancel_transaction c0 transaction (- ECANCELED) None))
      else
        '(_, c1, _) ←
          process_transaction fuel (spin_unlock_irqrestore c0) transaction
            None false;
        cleanup_loop fuel rest (spin_lock_irqsave c1)
  end.

Definition lwis_transaction_client_cleanup (fuel : nat) (c : @lwis_client W)
    : outcome (Z * @lwis_client W) :=
  let c0 := spin_lock_irqsave c in
  match event_list_find (transaction_list c0) LWIS_EVENT_ID_CLIENT_CLEANUP with
  | None => Done (0, spin_unlock_irqrestore c0)
  | Some it_evt_list =>
      c1 ← cleanup_loop fuel (event_transactions it_evt_list) c0;
      Done (0,
            spin_unlock_irqrestore
              (set_transaction_list
                 (event_list_del (transaction_list c1)
                    LWIS_EVENT_ID_CLIENT_CLEANUP) c1))
  end.

(** [client->transaction_wq] is not reset after [destroy_workqueue]: the
    field still says that the pointer is not NULL. *)
Definition lwis_transaction_clear (fuel : nat) (client : option (@lwis_client W))
    : outcome (Z * option (@lwis_client W)) :=
  '(ret, client') ← lwis_transaction_client_flush fuel client;
  if negb (ret =? 0) then Done (ret, client') else
  match client' with
  | Some c =>
      if transaction_wq c
      then Done (0, Some (set_lwis_dev (destroy_workqueue (lwis_dev c)) c))
      else Done (0, Some c)
  | None => Fault
  end.

End Lifecycle.

(** The life-cycle services of the simulated device: the device is
    enabled [en] times, and a workqueue is created when the next
    allocation succeeds. *)
Definition sim_kernel (en : Z) : lwis_kernel sim_world :=
  {| enabled := fun _ => en;
     create_workqueue := fun w => sim_kzalloc w 0;
     destroy_workqueue := fun w => w |}.

(** Whether the transaction lock is held after the acquisitions and
    releases of [log], starting from [held]; [None] when the lock is
    acquired while held or released while free. *)
Fixpoint lock_state (held : bool) (log : list lock_op) : option bool :=
  match log with
  | [] => Some held
  | Acquire :: rest => if held then None else lock_state true rest
  | Release :: rest => if held then lock_state false rest else None
  end.

Definition lock_free {W : Type} (c : @lwis_client W) : Prop :=
  lock_state false (transaction_lock c) = Some false.

Definition lock_held {W : Type} (c : @lwis_client W) : Prop :=
  lock_state false (transaction_lock c) = Some true.



(** The client of the simulated device after occurrence 1 of event 5 has
    queued an instance of the repeating round-trip transaction. *)
Definition sim_client_repeating_fired : @lwis_client sim_world :=
  match @lwis_transaction_event_trigger sample_constants sim_world sim_env 0
          (sim_client_repeating false) 5 1 (Some []) false with
  | Done (_, c, _) => c
  | _ => sim_client_repeating false
  end.

(** A client of the simulated device whose history is full and whose next
    slot is the last one. *)
Definition sim_client_history : @lwis_client sim_world :=
  @set_debug_info sim_world
    {| transaction_hist := repeat (mk_info 0 0 0 0%N false false) 4;
       cur_transaction_hist_idx := 3 |}
    (sim_client_with (roundtrip_entries 0 0)).



(** The transactions that wait in the index, each as the event id of its
    list, its own trigger event id, and its id. *)
Definition key_of (e : Z) (t : lwis_transaction) : Z * Z * Z :=
  (e, trigger_event_id (info t), info_id (info t)).

Definition waiting_keys (tl : list lwis_transaction_event_list)
    : list (Z * Z * Z) :=
  flat_map (fun l => map (key_of (event_id l)) (event_transactions l)) tl.

(** The index is well formed for the counter value [n]: no two lists
    have the same event id, every waiting transaction is in the list of
    its trigger event and has an id below [n], and no two waiting
    transactions have the same id. *)
Definition index_wf_at (n : Z) (tl : list lwis_transaction_event_list)
    : Prop :=
  NoDup (map event_id tl)
  /\ Forall (fun k => snd (fst k) = fst (fst k) /\ snd k < n) (waiting_keys tl)
  /\ NoDup (map snd (waiting_keys tl)).

Definition index_wf {W : Type} (c : @lwis_client W) : Prop :=
  index_wf_at (transaction_counter c) (transaction_list c).



(** The waiting transactions that a dispatch on the device [w] handles
    without executing anything: those that carry an error, and those that
    are not repeating and do not run in the event context (a transaction
    never runs in the event context of an I2C device). *)
Definition deferred {K : lwis_constants} {W : Type} {E : lwis_env W} (w : W)
    (t : lwis_transaction) : bool :=
  negb (resp_error_code (resp t) =? 0)
  || (negb (trigger_event_counter (info t) =? LWIS_EVENT_COUNTER_EVERY_TIME)
      && (negb (run_in_event_context (info t)) || device_type_is_i2c w)).

(** The event that the worker emits for a cancelled transaction. *)
Definition cancel_event {K : lwis_constants} (t : lwis_transaction)
    (error_code : Z) : lwis_pending_event :=
  {| pe_event_id := emit_error_event_id (info t);
     pe_payload :=
       {| resp_id := info_id (info t); resp_error_code := error_code;
          resp_num_entries := 0; resp_results_size_bytes := 0;
          resp_completion_index := -1; resp_results := [];
          resp_alloc_size := sizeof_lwis_transaction_response_header |};
     pe_size := sizeof_lwis_transaction_response_header |}.



(** A client of the simulated device whose clean-up list holds the round
    trip, and a second list a transaction waiting on event 5. *)
Definition sim_client_cleanup : @lwis_client sim_world :=
  @set_transaction_list sim_world
    [{| event_id := 5;
        event_transactions := [mk_transaction 5 (-1) 0 8%N false false] |};
     {| event_id := 2;
        event_transactions := [mk_transaction 2 (-1) 2 7%N false false] |}]
    (sim_client_with (roundtrip_entries 0 0)).



(** ** The GS101 platform functions

    The file is compiled with [ENABLE_IOVMM] and [ENABLE_QOS] set to 0, so
    what is left is the allocation of the platform data and the runtime
    power management of the platform device. *)

Class lwis_platform_env (P : Type) := {
  (** [kzalloc(sizeof(struct lwis_platform), GFP_KERNEL)]: whether the
      result is a valid pointer ([IS_ERR_OR_NULL] is false). *)
  kzalloc_platform : P -> bool * P;
  pm_runtime_enable : P -> P;
  pm_runtime_get_sync : P -> Z * P;
  pm_runtime_put_sync : P -> Z * P
}.

(** [struct lwis_device], as far as the platform functions use it:
    whether [platform] is set, and the platform device. *)
Record lwis_device (P : Type) := {
  platform : bool;
  plat_dev : P
}.

Arguments platform {P} _.
Arguments plat_dev {P} _.

Section Platform.

Context {P : Type} {PE : lwis_platform_env P}.

Definition lwis_platform_probe (lwis_dev : option (lwis_device P))
    : Z * option (lwis_device P) :=
  match lwis_dev with
  | None => (- ENODEV, None)
  | Some d =>
      let '(ok, p) := kzalloc_platform (plat_dev d) in
      if negb ok
      then (- ENOMEM, Some {| platform := platform d; plat_dev := p |})
      else (0, Some {| platform := true; plat_dev := pm_runtime_enable p |})
  end.

Definition lwis_platform_device_enable (lwis_dev : option (lwis_device P))
    : Z * option (lwis_device P) :=
  match lwis_dev with
  | None => (- ENODEV, None)
  | Some d =>
      if negb (platform d) then (- ENODEV, Some d) else
      let '(ret, p) := pm_runtime_get_sync (plat_dev d) in
      let d' := {| platform := platform d; plat_dev := p |} in
      if ret <? 0 then (ret, Some d') else (0, Some d')
  end.

(** With [ENABLE_QOS] 0 the bodies of the two QoS functions are compiled
    out: they change nothing and return 0, whatever their arguments
    are. *)
Definition lwis_platform_update_qos (lwis_dev : option (lwis_device P))
    (value : Z) (clock_family : Z) : Z :=
  0.

Definition lwis_platform_remove_qos (lwis_dev : option (lwis_device P)) : Z :=
  0.

Definition lwis_platform_device_disable (lwis_dev : option (lwis_device P))
    : Z * option (lwis_device P) :=
  match lwis_dev with
  | None => (- ENODEV, None)
  | Some d =>
      if negb (platform d) then (- ENODEV, Some d) else
      let _ := lwis_platform_remove_qos (Some d) in
      let '(ret, p) := pm_runtime_put_sync (plat_dev d) in
      (ret, Some {| platform := platform d; plat_dev := p |})
  end.

End Platform.

(** A simulated platform device: the log of the power-management calls,
    the results of the next allocations and the return codes of the next
    [pm_runtime_get_sync] and [pm_runtime_put_sync] calls. *)
Inductive pm_call := PmEnable | PmGet | PmPut.

Record sim_platform := {
  sim_pm_log : list pm_call;
  sim_pm_alloc : list bool;
  sim_pm_ret : list Z
}.

Definition sim_pm_next (call : pm_call) (p : sim_platform) : Z * sim_platform :=
  match sim_pm_ret p with
  | [] =>
      (0, {| sim_pm_log := sim_pm_log p ++ [call];
             sim_pm_alloc := sim_pm_alloc p; sim_pm_ret := [] |})
  | r :: rest =>
      (r, {| sim_pm_log := sim_pm_log p ++ [call];
             sim_pm_alloc := sim_pm_alloc p; sim_pm_ret := rest |})
  end.

Definition sim_platform_env : lwis_platform_env sim_platform :=
  {| kzalloc_platform := fun p =>
       match sim_pm_alloc p with
       | [] => (true, p)
       | ok :: rest =>
           (ok, {| sim_pm_log := sim_pm_log p; sim_pm_alloc := rest;
                   sim_pm_ret := sim_pm_ret p |})
       end;
     pm_runtime_enable := fun p =>
       {| sim_pm_log := sim_pm_log p ++ [PmEnable];
          sim_pm_alloc := sim_pm_alloc p; sim_pm_ret := sim_pm_ret p |};
     pm_runtime_get_sync := sim_pm_next PmGet;
     pm_runtime_put_sync := sim_pm_next PmPut |}.

(** A platform device that has not been probed; its next power-management
    calls return the codes [rets]. *)
Definition sim_device (allocs : list bool) (rets : list Z)
    : lwis_device sim_platform :=
  {| platform := false;
     plat_dev := {| sim_pm_log := []; sim_pm_alloc := allocs;
                    sim_pm_ret := rets |} |}.



(** * Properties *)

Section Properties.

Context {K : lwis_constants} {W : Type} {E : lwis_env W}.

(** ** Polling *)












(** ** The entry loop *)

Lemma lwis_entry_bias_is_bias (e : lwis_io_entry) (b : Z) :
  match e with
  | LWIS_IO_ENTRY_BIAS sb => lwis_entry_bias e b = LWIS_IO_ENTRY_BIAS sb
  | _ => forall sb, lwis_entry_bias e b <> LWIS_IO_ENTRY_BIAS sb
  end.
Proof. destruct e; simpl; try reflexivity; discriminate. Qed.

(** An iteration that continues. *)
Lemma process_entry_continue fuel in_irq bw e (s s' : loop_state) :
  process_entry fuel in_irq bw e s = Done (false, s') ->
  ls_i s' = ls_i s + 1
  /\ resp_completion_index (ls_resp s') = ls_i s
  /\ resp_error_code (ls_resp s') = resp_error_code (ls_resp s)
  /\ ls_bias s' = last_bias (ls_bias s) [e]
  /\ (ls_ret s = 0 -> ls_ret s' = 0)
  /\ exists e', ls_processed s' = ls_processed s ++ [e'].
Proof.
  unfold process_entry, execute_entry, loop_continue, loop_stop.
  destruct e as [rw|b|rw|b|m|sb|p|ty]; simpl;
    repeat match goal with
      | |- context [register_io ?w ?e ?i ?n] =>
          destruct (register_io w e i n) as [[? ?] ?]
      | |- context [lwis_entry_poll ?f ?w ?p] =>
          destruct (lwis_entry_poll f w p) as [[? ?]| |]; simpl
      | |- context [negb (?r =? 0)] =>
          let H := fresh "Hr" in destruct (r =? 0) eqn:H; simpl
      end;
    try discriminate;
    intros [= <-]; simpl;
    repeat split; try reflexivity; eauto;
    try (intros _; now apply Z.eqb_eq).
Qed.

(** An iteration that leaves the loop through [event_push]. *)
Lemma process_entry_stop fuel in_irq bw e (s s' : loop_state) :
  process_entry fuel in_irq bw e s = Done (true, s') ->
  ls_ret s = 0 ->
  ls_i s' = ls_i s
  /\ resp_completion_index (ls_resp s') = resp_completion_index (ls_resp s)
  /\ resp_error_code (ls_resp s') = recorded_error (ls_ret s')
  /\ resp_error_code (ls_resp s') <> 0
  /\ exists e', ls_processed s' = ls_processed s ++ [e'].
Proof.
  unfold process_entry, execute_entry, loop_continue, loop_stop, recorded_error.
  destruct e as [rw|b|rw|b|m|sb|p|ty]; simpl;
    repeat match goal with
      | |- context [register_io ?w ?e ?i ?n] =>
          destruct (register_io w e i n) as [[? ?] ?]
      | |- context [lwis_entry_poll ?f ?w ?p] =>
          destruct (lwis_entry_poll f w p) as [[? ?]| |]; simpl
      | |- context [negb (?r =? 0)] =>
          let H := fresh "Hr" in destruct (r =? 0) eqn:H; simpl
      end;
    try discriminate;
    intros [= <-] Hret; simpl;
    try rewrite Hret; try rewrite Hr; simpl;
    repeat split; try reflexivity; eauto;
    try (now apply Z.eqb_neq); try (unfold EINVAL; lia).
Qed.

(** A run of the loop that reaches the end of [es]. *)
Lemma process_entries_complete fuel in_irq bw es :
  forall (s s' : loop_state) u,
    process_entries fuel in_irq bw es s = Done (false, s', u) ->
    u = []
    /\ ls_i s' = ls_i s + Z.of_nat (length es)
    /\ (es <> [] -> resp_completion_index (ls_resp s') = ls_i s' - 1)
    /\ (es = [] -> s' = s)
    /\ resp_error_code (ls_resp s') = resp_error_code (ls_resp s)
    /\ ls_bias s' = last_bias (ls_bias s) es
    /\ (ls_ret s = 0 -> ls_ret s' = 0)
    /\ length (ls_processed s') = (length (ls_processed s) + length es)%nat.
Proof.
  induction es as [|e es IH]; intros s s' u; simpl.
  - intros [= <- <-]. repeat split; auto; try lia. congruence.
  - destruct (process_entry fuel in_irq bw e s) as [[[|] s1]| |] eqn:He;
      try discriminate.
    intros H. apply IH in H.
    destruct H as (-> & Hi & Hci & Hnil & Herr & Hb & Hret & Hlen).
    destruct (process_entry_continue _ _ _ _ _ _ He)
      as (Hi1 & Hci1 & Herr1 & Hb1 & Hret1 & e' & Hp1).
    repeat split; auto; try congruence.
    + lia.
    + intros _. destruct es as [|e2 es].
      * rewrite (Hnil eq_refl). lia.
      * apply Hci. discriminate.
    + rewrite Hb. simpl in Hb1. now rewrite Hb1.
    + rewrite Hlen, Hp1, length_app. simpl. lia.
Qed.

(** The loop over [pre ++ rest] once [pre] has run to its end. *)
Lemma process_entries_app fuel in_irq bw pre rest (s sk : loop_state) :
  process_entries fuel in_irq bw pre s = Done (false, sk, []) ->
  process_entries fuel in_irq bw (pre ++ rest) s
  = process_entries fuel in_irq bw rest sk.
Proof.
  revert s. induction pre as [|e pre IH]; intros s; simpl.
  - now intros [= <-].
  - destruct (process_entry fuel in_irq bw e s) as [[[|] s1]| |];
      try discriminate.
    apply IH.
Qed.


(** [process_transaction] once the run of its loop is known. *)
Lemma process_transaction_run fuel (c : lwis_client) t pending in_irq es
    stop (s : loop_state) u :
  load_io_entries (kmem c) (info t) = Some es ->
  process_entries fuel in_irq (Z.quot (native_value_bitwidth (lwis_dev c)) 8)
    es (loop_init (lwis_dev c) (resp t)) = Done (stop, s, u) ->
  exists c',
    process_transaction fuel c t pending in_irq
    = Done (ls_ret s, c',
            match pending with
            | Some pe =>
                Some (pe ++
                  [{| pe_event_id :=
                        if negb (resp_error_code (ls_resp s) =? 0)
                        then emit_error_event_id (info t)
                        else emit_success_event_id (info t);
                      pe_payload := ls_resp s;
                      pe_size :=
                        wrap64 (sizeof_lwis_transaction_response_header
                                + resp_results_size_bytes (resp t)) |}])
            | None => None
            end)
    /\ lwis_dev c' = ls_dev s
    /\ transaction_list c' = transaction_list c
    /\ transaction_process_queue c' = transaction_process_queue c
    /\ transaction_counter c' = transaction_counter c
    /\ emitted c' = emitted c
    /\ transaction_lock c' = transaction_lock c
    /\ transaction_wq c' = transaction_wq c
    /\ transaction_work c' = transaction_work c.
Proof.
  intros Hload Hrun. unfold process_transaction. rewrite Hload, Hrun. simpl.
  eexists. split.
  - destruct pending; reflexivity.
  - destruct (trigger_event_counter (info t) =? LWIS_EVENT_COUNTER_EVERY_TIME);
      repeat split.
Qed.

(** ** Submission *)

Lemma load_io_entries_set_id m i v :
  load_io_entries m (info_set_id v i) = load_io_entries m i.
Proof. reflexivity. Qed.

(** What [prepare_response_locked] changes: the id and the response of
    the transaction, and the environment of the client. *)
Lemma prepare_response_locked_inv (c : lwis_client) t ret t' c' :
  prepare_response_locked c t = Done (ret, t', c') ->
  info t' = info_set_id (transaction_counter c) (info t)
  /\ c' = set_lwis_dev (lwis_dev c') c
  /\ ((ret = 0 /\ resp_id (resp t') = transaction_counter c
       /\ resp_error_code (resp t') = 0)
      \/ (ret = - ENOMEM /\ resp t' = resp t)).
Proof.
  unfold prepare_response_locked. rewrite load_io_entries_set_id.
  destruct (load_io_entries (kmem c) (info t)) as [es|]; [|discriminate].
  destruct (scan_read_entries _ es 0 0) as [read_buf_size read_entries].
  destruct (kzalloc (lwis_dev c) _) as [[|] w]; simpl;
    intros [= <- <- <-]; simpl; repeat split; auto.
Qed.

Lemma prepare_response_locked_done (c : lwis_client) t :
  is_done (prepare_response_locked c t)
  = match load_io_entries (kmem c) (info t) with
    | Some _ => true
    | None => false
    end.
Proof.
  unfold prepare_response_locked. rewrite load_io_entries_set_id.
  destruct (load_io_entries (kmem c) (info t)) as [es|]; [|reflexivity].
  destruct (scan_read_entries _ es 0 0) as [read_buf_size read_entries].
  now destruct (kzalloc (lwis_dev c) _) as [[|] w].
Qed.

(** An immediate transaction goes to the tail of the process queue. *)
Lemma queue_transaction_locked_immediate (c : lwis_client) t :
  trigger_event_id (info t) = LWIS_EVENT_ID_NONE ->
  transaction_wq c = true ->
  exists t' c',
    queue_transaction_locked c t = Done (0, t', c')
    /\ info_id (info t') = info_id (info t)
    /\ trigger_event_id (info t') = LWIS_EVENT_ID_NONE
    /\ resp t' = resp t
    /\ transaction_process_queue c' = transaction_process_queue c ++ [t']
    /\ transaction_list c' = transaction_list c
    /\ transaction_counter c' = sint64 (transaction_counter c + 1)
    /\ transaction_work c' = true.
Proof.
  intros Hnone Hwq. unfold queue_transaction_locked.
  rewrite Hnone, Z.eqb_refl.
  destruct (ktime_get_ns (lwis_dev c)) as [now w].
  unfold queue_work. simpl. rewrite Hwq. simpl.
  do 2 eexists. split; [reflexivity|]. simpl. repeat split; auto.
Qed.

Lemma queue_transaction_locked_immediate_inv (c : lwis_client) t ret t' c' :
  trigger_event_id (info t) = LWIS_EVENT_ID_NONE ->
  queue_transaction_locked c t = Done (ret, t', c') ->
  ret = 0
  /\ info_id (info t') = info_id (info t)
  /\ trigger_event_id (info t') = LWIS_EVENT_ID_NONE
  /\ transaction_process_queue c' = transaction_process_queue c ++ [t']
  /\ transaction_list c' = transaction_list c
  /\ transaction_counter c' = sint64 (transaction_counter c + 1).
Proof.
  intros Hnone. unfold queue_transaction_locked.
  rewrite Hnone, Z.eqb_refl.
  destruct (ktime_get_ns (lwis_dev c)) as [now w].
  unfold queue_work. simpl. destruct (transaction_wq c); simpl; [|discriminate].
  intros [= <- <- <-]. simpl. repeat split; auto.
Qed.

Lemma check_transaction_param_locked_stale (c : lwis_client) t allow_eq :
  trigger_event_id (info t) <> LWIS_EVENT_ID_NONE ->
  EXPLICIT_EVENT_COUNTER (trigger_event_counter (info t)) = true ->
  trigger_event_counter (info t) < current_counter c t
  \/ (trigger_event_counter (info t) = current_counter c t /\ allow_eq = false) ->
  check_transaction_param_locked c t allow_eq
  = (- ENOENT,
     set_info
       (info_set_current_trigger_event_counter (current_counter c t) (info t))
       t,
     c).
Proof.
  intros Hid Hex Hcmp. unfold check_transaction_param_locked, current_counter in *.
  cbn [trigger_event_id info_set_current_trigger_event_counter].
  apply Z.eqb_neq in Hid. rewrite Hid. cbn [negb].
  destruct (lwis_device_event_state_find (lwis_dev c)
              (trigger_event_id (info t))) as [n|];
    cbn [trigger_event_id trigger_event_counter current_trigger_event_counter
         info_set_current_trigger_event_counter] in *;
    rewrite Hid, Hex; cbn [negb andb];
    (destruct Hcmp as [Hlt|[Heq ->]];
     [ replace (trigger_event_counter (info t) =? _) with false
         by (symmetry; apply Z.eqb_neq; lia);
       replace (trigger_event_counter (info t) <? _) with true
         by (symmetry; apply Z.ltb_lt; lia);
       reflexivity
     | rewrite Heq, Z.eqb_refl; reflexivity ]).
Qed.

Lemma check_transaction_param_locked_convert (c : lwis_client) t :
  trigger_event_id (info t) <> LWIS_EVENT_ID_NONE ->
  EXPLICIT_EVENT_COUNTER (trigger_event_counter (info t)) = true ->
  trigger_event_counter (info t) = current_counter c t ->
  exists ret w,
    check_transaction_param_locked c t true
    = (ret,
       set_info
         (info_set_trigger_event_id LWIS_EVENT_ID_NONE
            (info_set_current_trigger_event_counter (current_counter c t)
               (info t)))
         t,
       set_lwis_dev w c)
    /\ (ret = 0 \/ ret = - EINVAL).
Proof.
  intros Hid Hex Heq. unfold check_transaction_param_locked, current_counter in *.
  cbn [trigger_event_id info_set_current_trigger_event_counter].
  apply Z.eqb_neq in Hid. rewrite Hid. cbn [negb].
  destruct (lwis_device_event_state_find (lwis_dev c)
              (trigger_event_id (info t))) as [n|];
    cbn [trigger_event_id trigger_event_counter current_trigger_event_counter
         info_set_current_trigger_event_counter] in *;
    rewrite Hid, Hex; cbn [negb andb]; rewrite Heq, Z.eqb_refl;
    cbn [emit_success_event_id emit_error_event_id info_set_trigger_event_id];
    repeat match goal with
      | |- context [lwis_device_event_state_find_or_create ?w ?i] =>
          destruct (lwis_device_event_state_find_or_create w i) as [[|] ?];
          cbn [negb]
      | |- context [lwis_client_event_state_find_or_create ?w ?i] =>
          destruct (lwis_client_event_state_find_or_create w i) as [[|] ?];
          cbn [negb]
      end;
    do 2 eexists; (split; [reflexivity|]); auto.
Qed.

Lemma set_lwis_dev_same (c : @lwis_client W) : set_lwis_dev (lwis_dev c) c = c.
Proof. now destruct c. Qed.

(** The validation touches only the environment of the client, and only
    the trigger id and the returned counter of the transaction. *)
Lemma check_transaction_param_locked_frame (c : lwis_client) t allow_eq
    ret t1 c1 :
  check_transaction_param_locked c t allow_eq = (ret, t1, c1) ->
  c1 = set_lwis_dev (lwis_dev c1) c
  /\ resp t1 = resp t
  /\ info_id (info t1) = info_id (info t)
  /\ num_io_entries (info t1) = num_io_entries (info t)
  /\ io_entries (info t1) = io_entries (info t)
  /\ (ret = 0 \/ ret = - ENOENT \/ ret = - EINVAL).
Proof.
  unfold check_transaction_param_locked.
  set (i1 := if negb (trigger_event_id _ =? LWIS_EVENT_ID_NONE) then _ else _).
  assert (Hi1 : info_id i1 = info_id (info t)
                /\ num_io_entries i1 = num_io_entries (info t)
                /\ io_entries i1 = io_entries (info t)).
  { subst i1. destruct (negb _); [|now repeat split].
    destruct (lwis_device_event_state_find _ _); now repeat split. }
  destruct Hi1 as (Hid & Hnum & Hio). clearbody i1.
  match goal with
  | |- context [match ?x with Some _ => _ | None => _ end = _] =>
      set (checked := x);
      assert (Hck : forall i2, checked = Some i2 ->
                info_id i2 = info_id i1
                /\ num_io_entries i2 = num_io_entries i1
                /\ io_entries i2 = io_entries i1)
  end.
  { subst checked. intros i2.
    repeat match goal with
      | |- context [if ?b then _ else _] => destruct b
      end; intros [= <-]; now repeat split. }
  destruct checked as [i2|].
  - destruct (Hck i2 eq_refl) as (Hid2 & Hnum2 & Hio2).
    repeat match goal with
      | |- context [lwis_device_event_state_find_or_create ?w ?i] =>
          destruct (lwis_device_event_state_find_or_create w i) as [[|] ?];
          cbn [negb]
      | |- context [lwis_client_event_state_find_or_create ?w ?i] =>
          destruct (lwis_client_event_state_find_or_create w i) as [[|] ?];
          cbn [negb]
      end;
    intros [= <- <- <-]; cbn; repeat split; auto; congruence.
  - intros [= <- <- <-]. cbn. rewrite set_lwis_dev_same. repeat split; auto.
Qed.

(** Queueing either succeeds, taking the next counter value, or fails with
    -EINVAL before anything is linked. *)
Lemma queue_transaction_locked_inv (c : lwis_client) t ret t' c' :
  queue_transaction_locked c t = Done (ret, t', c') ->
  (ret = 0
   /\ info_id (info t') = info_id (info t)
   /\ resp t' = resp t
   /\ transaction_counter c' = sint64 (transaction_counter c + 1))
  \/ (ret = - EINVAL
      /\ t' = t
      /\ transaction_counter c' = transaction_counter c
      /\ transaction_list c' = transaction_list c
      /\ transaction_process_queue c' = transaction_process_queue c).
Proof.
  unfold queue_transaction_locked.
  destruct (trigger_event_id (info t) =? LWIS_EVENT_ID_NONE).
  - destruct (ktime_get_ns (lwis_dev c)) as [now w]. unfold queue_work. simpl.
    destruct (transaction_wq c); simpl; [|discriminate].
    intros [= <- <- <-]. left. now repeat split.
  - unfold event_list_find_or_create, event_list_create.
    destruct (event_list_find (transaction_list c) _) as [el|].
    + destruct (ktime_get_ns (lwis_dev c)) as [now w].
      intros [= <- <- <-]. left. now repeat split.
    + destruct (kzalloc (lwis_dev c) _) as [[|] w1]; simpl.
      * destruct (ktime_get_ns w1) as [now w].
        intros [= <- <- <-]. left. now repeat split.
      * intros [= <- <- <-]. right. now repeat split.
Qed.

(** A submission either succeeds, giving the transaction the client's
    counter value as its id and advancing the counter, or fails and leaves
    the counter alone. *)
Lemma lwis_transaction_submit_locked_inv (c : lwis_client) t ret t' c' :
  lwis_transaction_submit_locked c t = Done (ret, t', c') ->
  (ret = 0
   /\ info_id (info t') = transaction_counter c
   /\ resp_id (resp t') = transaction_counter c
   /\ transaction_counter c' = sint64 (transaction_counter c + 1))
  \/ (ret <> 0 /\ transaction_counter c' = transaction_counter c).
Proof.
  unfold lwis_transaction_submit_locked.
  destruct (check_transaction_param_locked c t _) as [[ret0 t1] c1] eqn:Hchk.
  destruct (check_transaction_param_locked_frame _ _ _ _ _ _ Hchk)
    as (Hc1 & _).
  destruct (ret0 =? 0) eqn:Hr0; cbn [negb].
  - destruct (prepare_response_locked c1 t1) as [[[ret1 t2] c2]| |] eqn:Hprep;
      cbn; try discriminate.
    destruct (prepare_response_locked_inv _ _ _ _ _ Hprep)
      as (Hinfo & Hc2 & Hres).
    assert (Hcnt : transaction_counter c2 = transaction_counter c)
      by (rewrite Hc2, Hc1; reflexivity).
    destruct Hres as [(-> & Hrid & _) | (-> & _)]; cbn.
    + intros Hq. apply queue_transaction_locked_inv in Hq.
      destruct Hq as [(-> & Hid & Hresp & Hc) | (-> & -> & Hc & _)].
      * left. rewrite Hid, Hinfo, Hresp, Hrid, Hc, Hcnt. cbn.
        rewrite Hc1. now repeat split.
      * right. split; [discriminate|congruence].
    + intros [= <- <- <-]. right. split; [discriminate|exact Hcnt].
  - apply Z.eqb_neq in Hr0. intros [= <- <- <-]. right.
    split; [exact Hr0|]. rewrite Hc1. reflexivity.
Qed.

(** ** Cancel *)

Lemma cancel_mark_id id t : info_id (info (cancel_mark id t)) = info_id (info t).
Proof. unfold cancel_mark. now destruct (info_id (info t) =? id). Qed.

Lemma cancel_mark_idem id t : cancel_mark id (cancel_mark id t) = cancel_mark id t.
Proof.
  unfold cancel_mark. destruct (info_id (info t) =? id) eqn:H; simpl; now rewrite H.
Qed.

Lemma count_in_event_list_mark id txs :
  count_in_event_list id (map (cancel_mark id) txs) = count_in_event_list id txs.
Proof.
  induction txs as [|t txs IH]; simpl; [reflexivity|].
  now rewrite cancel_mark_id, IH.
Qed.

Lemma count_waiting_mark id tl :
  count_waiting id (mark_canceled id tl) = count_waiting id tl.
Proof.
  induction tl as [|l tl IH]; simpl; [reflexivity|].
  now rewrite count_in_event_list_mark, IH.
Qed.

Lemma mark_canceled_idem id tl :
  mark_canceled id (mark_canceled id tl) = mark_canceled id tl.
Proof.
  induction tl as [|l tl IH]; simpl; [reflexivity|]. rewrite IH. f_equal.
  f_equal. rewrite map_map. apply map_ext. intros t. apply cancel_mark_idem.
Qed.

Lemma cancel_in_event_list_none id txs :
  count_in_event_list id txs = 0%nat ->
  cancel_in_event_list txs id = None /\ map (cancel_mark id) txs = txs.
Proof.
  induction txs as [|t txs IH]; simpl; [auto|].
  unfold cancel_mark at 1.
  destruct (info_id (info t) =? id); simpl; [discriminate|].
  intros H. destruct (IH H) as [-> ->]. auto.
Qed.

(** With one transaction of the id in the list, the scan marks it where
    it stands. *)
Lemma cancel_in_event_list_one id txs :
  count_in_event_list id txs = 1%nat ->
  cancel_in_event_list txs id = Some (map (cancel_mark id) txs).
Proof.
  induction txs as [|t txs IH]; simpl; [discriminate|].
  unfold cancel_mark at 1.
  destruct (info_id (info t) =? id); simpl.
  - intros [= H]. destruct (cancel_in_event_list_none _ _ H) as [_ ->].
    reflexivity.
  - intros H. now rewrite (IH H).
Qed.

Lemma cancel_in_transaction_list_none id tl :
  count_waiting id tl = 0%nat ->
  cancel_in_transaction_list tl id = None /\ mark_canceled id tl = tl.
Proof.
  induction tl as [|l tl IH]; simpl; [auto|]. intros H.
  destruct (cancel_in_event_list_none id (event_transactions l)) as [-> ->];
    [lia|].
  destruct IH as [-> ->]; [lia|]. now destruct l.
Qed.

Lemma cancel_in_transaction_list_one id tl :
  count_waiting id tl = 1%nat ->
  cancel_in_transaction_list tl id = Some (mark_canceled id tl).
Proof.
  induction tl as [|l tl IH]; simpl; [discriminate|]. intros H.
  destruct (count_in_event_list id (event_transactions l)) as [|[|n]] eqn:Hl.
  - destruct (cancel_in_event_list_none _ _ Hl) as [-> ->].
    rewrite IH by lia. now destruct l.
  - rewrite (cancel_in_event_list_one _ _ Hl).
    destruct (cancel_in_transaction_list_none id tl) as [_ ->]; [lia|].
    reflexivity.
  - lia.
Qed.

(** A transaction of the id is found exactly when the index holds one. *)
Lemma cancel_in_event_list_some id txs :
  (0 < count_in_event_list id txs)%nat ->
  exists txs', cancel_in_event_list txs id = Some txs'
               /\ length txs' = length txs.
Proof.
  induction txs as [|t txs IH]; simpl; [lia|].
  destruct (info_id (info t) =? id); simpl.
  - intros _. eexists. split; [reflexivity|reflexivity].
  - intros H. destruct (IH H) as (txs' & -> & Hlen).
    eexists. split; [reflexivity|]. simpl. now rewrite Hlen.
Qed.

Lemma cancel_in_transaction_list_some id tl :
  (0 < count_waiting id tl)%nat ->
  exists tl', cancel_in_transaction_list tl id = Some tl'
              /\ map event_id tl' = map event_id tl.
Proof.
  induction tl as [|l tl IH]; simpl; [lia|]. intros H.
  destruct (count_in_event_list id (event_transactions l)) as [|n] eqn:Hl.
  - destruct (cancel_in_event_list_none _ _ Hl) as [-> _].
    destruct IH as (tl' & -> & Hids); [lia|].
    eexists. split; [reflexivity|]. simpl. now rewrite Hids.
  - destruct (cancel_in_event_list_some id (event_transactions l))
      as (txs' & -> & _); [lia|].
    eexists. split; [reflexivity|]. reflexivity.
Qed.

(** ** Replace *)

Lemma event_list_find_store tl id el txs :
  event_list_find tl id = Some el ->
  event_list_find (event_list_store tl id txs) id
  = Some {| event_id := id; event_transactions := txs |}.
Proof.
  induction tl as [|l tl IH]; simpl; [discriminate|].
  destruct (event_id l =? id) eqn:Hl; simpl.
  - intros _. now rewrite Z.eqb_refl.
  - rewrite Hl. exact IH.
Qed.

(** An event-triggered transaction goes to the tail of the list of its
    trigger event. *)
Lemma queue_transaction_locked_event (c : @lwis_client W) t t' c' :
  trigger_event_id (info t) <> LWIS_EVENT_ID_NONE ->
  queue_transaction_locked c t = Done (0, t', c') ->
  event_list_find (transaction_list c') (trigger_event_id (info t))
  = Some {| event_id := trigger_event_id (info t);
            event_transactions :=
              match event_list_find (transaction_list c)
                      (trigger_event_id (info t)) with
              | Some el => event_transactions el
              | None => []
              end ++ [t'] |}
  /\ transaction_process_queue c' = transaction_process_queue c
  /\ transaction_lock c' = transaction_lock c.
Proof.
  intros Hid%Z.eqb_neq. unfold queue_transaction_locked. rewrite Hid.
  unfold event_list_find_or_create, event_list_create.
  destruct (event_list_find (transaction_list c) _) as [el|] eqn:Hfind.
  - destruct (ktime_get_ns (lwis_dev c)) as [now w].
    intros [= <- <-]. cbn. split; [|now split].
    now apply (event_list_find_store _ _ el).
  - destruct (kzalloc (lwis_dev c) _) as [[|] w1]; simpl.
    + destruct (ktime_get_ns w1) as [now w].
      intros [= <- <-]. cbn. rewrite Z.eqb_refl. cbn. rewrite Z.eqb_refl.
      now repeat split.
    + intros [= H]; vm_compute in H; discriminate H.
Qed.

Lemma queue_transaction_locked_lock (c : @lwis_client W) t ret t' c' :
  queue_transaction_locked c t = Done (ret, t', c') ->
  transaction_lock c' = transaction_lock c.
Proof.
  unfold queue_transaction_locked.
  destruct (trigger_event_id (info t) =? LWIS_EVENT_ID_NONE).
  - destruct (ktime_get_ns (lwis_dev c)) as [now w]. unfold queue_work. simpl.
    destruct (transaction_wq c); simpl; [|discriminate].
    now intros [= <- <- <-].
  - unfold event_list_find_or_create, event_list_create.
    destruct (event_list_find (transaction_list c) _) as [el|].
    + destruct (ktime_get_ns (lwis_dev c)) as [now w]. now intros [= <- <- <-].
    + destruct (kzalloc (lwis_dev c) _) as [[|] w1]; simpl.
      * destruct (ktime_get_ns w1) as [now w]. now intros [= <- <- <-].
      * now intros [= <- <- <-].
Qed.

(** Replace after its validation: the cancel, then prepare and queue. *)
Lemma lwis_transaction_replace_locked_unfold (c : @lwis_client W) t ret t1 c1 :
  check_transaction_param_locked c t false = (ret, t1, c1) ->
  lwis_transaction_replace_locked c t
  = if negb (ret =? 0) then Done (ret, t1, c1)
    else
      match cancel_in_transaction_list (transaction_list c)
              (info_id (info t)) with
      | None => Done (- ENOENT, t1, c1)
      | Some tl1 =>
          '(ret, t2, c3) ← prepare_response_locked
                             (set_transaction_list tl1 c1) t1;
          if negb (ret =? 0) then Done (ret, t2, c3)
          else queue_transaction_locked c3 t2
      end.
Proof.
  intros Hchk. unfold lwis_transaction_replace_locked. rewrite Hchk.
  destruct (negb (ret =? 0)); [reflexivity|].
  destruct (check_transaction_param_locked_frame _ _ _ _ _ _ Hchk)
    as (Hc1 & _ & Hid & _).
  unfold cancel_waiting_transaction_locked. rewrite Hid.
  replace (transaction_list c1) with (transaction_list c)
    by (rewrite Hc1; reflexivity).
  now destruct (cancel_in_transaction_list (transaction_list c) _).
Qed.

Lemma queue_transaction_locked_event_done (c : @lwis_client W) t :
  trigger_event_id (info t) <> LWIS_EVENT_ID_NONE ->
  exists ret t' c', queue_transaction_locked c t = Done (ret, t', c').
Proof.
  intros Hid%Z.eqb_neq. unfold queue_transaction_locked. rewrite Hid.
  unfold event_list_find_or_create, event_list_create.
  destruct (event_list_find (transaction_list c) _) as [el|].
  - destruct (ktime_get_ns (lwis_dev c)) as [now w]. do 3 eexists. reflexivity.
  - destruct (kzalloc (lwis_dev c) _) as [[|] w1]; simpl.
    + destruct (ktime_get_ns w1) as [now w]. do 3 eexists. reflexivity.
    + do 3 eexists. reflexivity.
Qed.

(** Prepare and queue, as submit and replace run them after their
    validation: what a returned result says about the client. *)
Lemma prepare_and_queue_inv (c : @lwis_client W) t r t' c' :
  ('(ret, t2, c3) ← prepare_response_locked c t;
   if negb (ret =? 0) then Done (ret, t2, c3)
   else queue_transaction_locked c3 t2) = Done (r, t', c') ->
  transaction_lock c' = transaction_lock c
  /\ ((r = 0
       /\ info_id (info t') = transaction_counter c
       /\ transaction_counter c' = sint64 (transaction_counter c + 1)
       /\ (if trigger_event_id (info t) =? LWIS_EVENT_ID_NONE
           then transaction_process_queue c'
                = transaction_process_queue c ++ [t']
                /\ transaction_list c' = transaction_list c
           else transaction_process_queue c' = transaction_process_queue c
                /\ event_list_find (transaction_list c')
                     (trigger_event_id (info t))
                   = Some {| event_id := trigger_event_id (info t);
                             event_transactions :=
                               match event_list_find (transaction_list c)
                                       (trigger_event_id (info t)) with
                               | Some el => event_transactions el
                               | None => []
                               end ++ [t'] |}))
      \/ (r <> 0 /\ r <> - ENOENT
          /\ transaction_list c' = transaction_list c
          /\ transaction_process_queue c' = transaction_process_queue c
          /\ transaction_counter c' = transaction_counter c)).
Proof.
  destruct (prepare_response_locked c t) as [[[ret2 t2] c3]| |] eqn:Hprep;
    cbn; try discriminate.
  destruct (prepare_response_locked_inv _ _ _ _ _ Hprep) as (Hinfo & Hc3 & Hres).
  assert (Htrig : trigger_event_id (info t2) = trigger_event_id (info t))
    by (rewrite Hinfo; reflexivity).
  destruct Hres as [(-> & _ & _) | (-> & _)]; cbn.
  - intros Hq. split.
    { rewrite (queue_transaction_locked_lock _ _ _ _ _ Hq), Hc3. reflexivity. }
    destruct (queue_transaction_locked_inv _ _ _ _ _ Hq)
      as [(-> & Hid & _ & Hcnt) | (-> & -> & Hcnt & Hlist & Hqueue)].
    + left. split; [reflexivity|]. split; [now rewrite Hid, Hinfo|].
      split; [rewrite Hcnt, Hc3; reflexivity|].
      destruct (trigger_event_id (info t) =? LWIS_EVENT_ID_NONE) eqn:Hnone.
      * apply Z.eqb_eq in Hnone.
        apply queue_transaction_locked_immediate_inv in Hq; [|congruence].
        destruct Hq as (_ & _ & _ & Hqueue & Hlist & _).
        rewrite Hqueue, Hlist, Hc3. now split.
      * apply Z.eqb_neq in Hnone.
        apply queue_transaction_locked_event in Hq; [|congruence].
        destruct Hq as (Hfind & Hqueue & _).
        rewrite Hqueue, <- Htrig, Hfind, Hc3. now split.
    + right. rewrite Hcnt, Hlist, Hqueue, Hc3.
      repeat split; intros H; vm_compute in H; discriminate H.
  - intros [= <- <- <-]. split; [rewrite Hc3; reflexivity|].
    right. rewrite Hc3.
    repeat split; intros H; vm_compute in H; discriminate H.
Qed.

Lemma prepare_and_queue_done (c : @lwis_client W) t :
  load_io_entries (kmem c) (info t) <> None ->
  transaction_wq c = true ->
  exists r t' c',
    ('(ret, t2, c3) ← prepare_response_locked c t;
     if negb (ret =? 0) then Done (ret, t2, c3)
     else queue_transaction_locked c3 t2) = Done (r, t', c').
Proof.
  intros Hload Hwq.
  pose proof (prepare_response_locked_done c t) as Hdone.
  destruct (load_io_entries (kmem c) (info t)); [|congruence].
  destruct (prepare_response_locked c t) as [[[ret2 t2] c3]| |] eqn:Hprep;
    try discriminate. cbn.
  destruct (prepare_response_locked_inv _ _ _ _ _ Hprep) as (Hinfo & Hc3 & Hres).
  destruct Hres as [(-> & _ & _) | (-> & _)]; cbn;
    [|do 3 eexists; reflexivity].
  destruct (Z.eq_dec (trigger_event_id (info t2)) LWIS_EVENT_ID_NONE) as [Hn|Hn].
  - destruct (queue_transaction_locked_immediate c3 t2 Hn) as (t' & c' & Hq & _).
    + rewrite Hc3. exact Hwq.
    + do 3 eexists. exact Hq.
  - exact (queue_transaction_locked_event_done c3 t2 Hn).
Qed.

(** ** Frame of an execution *)

Lemma process_entry_resp_id fuel in_irq bw e (s : loop_state) b s' :
  process_entry fuel in_irq bw e s = Done (b, s') ->
  resp_id (ls_resp s') = resp_id (ls_resp s).
Proof.
  unfold process_entry, execute_entry, loop_continue, loop_stop.
  destruct e as [rw|rb|rw|rb|m|sb|p|ty]; simpl;
    repeat match goal with
      | |- context [register_io ?w ?e ?i ?n] =>
          destruct (register_io w e i n) as [[? ?] ?]
      | |- context [lwis_entry_poll ?f ?w ?p] =>
          destruct (lwis_entry_poll f w p) as [[? ?]| |]; simpl
      | |- context [negb (?r =? 0)] => destruct (r =? 0); simpl
      end;
    try discriminate; now intros [= <- <-].
Qed.

Lemma process_entries_resp_id fuel in_irq bw es :
  forall (s : loop_state) b s' u,
    process_entries fuel in_irq bw es s = Done (b, s', u) ->
    resp_id (ls_resp s') = resp_id (ls_resp s).
Proof.
  induction es as [|e es IH]; intros s b s' u; simpl.
  - now intros [= <- <- <-].
  - destruct (process_entry fuel in_irq bw e s) as [[[|] s1]| |] eqn:He;
      try discriminate.
    + intros [= <- <- <-]. eapply process_entry_resp_id; eauto.
    + intros H. rewrite (IH _ _ _ _ H). eapply process_entry_resp_id; eauto.
Qed.

(** What an execution leaves alone, and the one event it pushes. *)
Lemma process_transaction_inv fuel (c : @lwis_client W) t pending in_irq
    r c' pending' :
  process_transaction fuel c t pending in_irq = Done (r, c', pending') ->
  transaction_list c' = transaction_list c
  /\ transaction_process_queue c' = transaction_process_queue c
  /\ transaction_counter c' = transaction_counter c
  /\ emitted c' = emitted c
  /\ transaction_lock c' = transaction_lock c
  /\ transaction_wq c' = transaction_wq c
  /\ transaction_work c' = transaction_work c
  /\ match pending with
     | Some pe =>
         exists ev, pending' = Some (pe ++ [ev])
                    /\ resp_id (pe_payload ev) = resp_id (resp t)
                    /\ (pe_event_id ev = emit_success_event_id (info t)
                        \/ pe_event_id ev = emit_error_event_id (info t))
     | None => pending' = None
     end.
Proof.
  unfold process_transaction.
  destruct (load_io_entries (kmem c) (info t)) as [es|]; [|discriminate].
  destruct (process_entries fuel in_irq _ es _) as [[[b s] u]| |] eqn:Hrun;
    cbn; try discriminate.
  intros [= <- <- <-].
  apply process_entries_resp_id in Hrun. cbn in Hrun.
  split; [|split; [|split; [|split; [|split; [|split; [|split]]]]]];
    try (destruct (trigger_event_counter (info t)
                   =? LWIS_EVENT_COUNTER_EVERY_TIME); reflexivity).
  destruct pending as [pe|]; [|reflexivity].
  eexists. split; [reflexivity|]. cbn. split; [exact Hrun|].
  destruct (negb (resp_error_code (ls_resp s) =? 0)); auto.
Qed.

(** ** Event trigger *)

Lemma event_list_find_id tl id el :
  event_list_find tl id = Some el -> event_id el = id.
Proof.
  induction tl as [|l tl IH]; simpl; [discriminate|].
  destruct (event_id l =? id) eqn:Hl; [|exact IH].
  intros [= <-]. now apply Z.eqb_eq.
Qed.

(** An iteration on a passed-over transaction changes nothing. *)
Lemma event_trigger_step_passed_over fuel event_counter in_irq t
    (c : @lwis_client W) pending :
  passed_over event_counter t = true ->
  event_trigger_step fuel event_counter in_irq t c pending
  = Done (Some t, c, pending).
Proof.
  unfold passed_over, EXPLICIT_EVENT_COUNTER, event_trigger_step.
  intros [[Herr [Hnext Hevery]%andb_prop]%andb_prop Hneq]%andb_prop.
  rewrite Herr. cbn [negb].
  apply negb_true_iff in Hnext, Hevery, Hneq. now rewrite Hnext, Hevery, Hneq.
Qed.

Lemma passed_over_every_time event_counter t :
  trigger_event_counter (info t) = LWIS_EVENT_COUNTER_EVERY_TIME ->
  passed_over event_counter t = false.
Proof.
  intros H. unfold passed_over, EXPLICIT_EVENT_COUNTER. rewrite H, Z.eqb_refl.
  destruct (resp_error_code (resp t) =? 0);
    destruct (LWIS_EVENT_COUNTER_EVERY_TIME
              =? LWIS_EVENT_COUNTER_ON_NEXT_OCCURRENCE); reflexivity.
Qed.

(** What one iteration does to the lists: the transaction stays as it is
    or is unlinked, and at most one record, never a passed-over one, goes
    to the tail of the process queue. *)
Lemma event_trigger_step_inv fuel event_counter in_irq t (c : @lwis_client W)
    pending stay c' pending' :
  event_trigger_step fuel event_counter in_irq t c pending
  = Done (stay, c', pending') ->
  (stay = Some t \/ (stay = None /\ passed_over event_counter t = false))
  /\ (exists added,
         transaction_process_queue c' = transaction_process_queue c ++ added
         /\ Forall (fun x => passed_over event_counter x = false) added)
  /\ transaction_list c' = transaction_list c
  /\ transaction_counter c' = transaction_counter c
  /\ transaction_wq c' = transaction_wq c.
Proof.
  unfold event_trigger_step.
  destruct (resp_error_code (resp t) =? 0) eqn:Herr; cbn [negb].
  2:{ intros [= <- <- <-].
      assert (Hp : passed_over event_counter t = false)
        by (unfold passed_over; now rewrite Herr).
      split; [right; auto|]. split; [|now repeat split].
      exists [t]. split; [reflexivity|]. now constructor. }
  destruct ((trigger_event_counter (info t)
             =? LWIS_EVENT_COUNTER_ON_NEXT_OCCURRENCE)
            || (trigger_event_counter (info t) =? event_counter)) eqn:Hmatch.
  { assert (Hp : passed_over event_counter t = false).
    { unfold passed_over, EXPLICIT_EVENT_COUNTER.
      apply orb_prop in Hmatch. destruct Hmatch as [-> | ->]; cbn;
        now rewrite ?andb_false_r. }
    destruct (run_in_event_context (info t)
              && negb (device_type_is_i2c (lwis_dev c))).
    - destruct (process_transaction fuel _ t pending in_irq)
        as [[[r c1] pe]| |] eqn:Hpt; cbn; try discriminate.
      intros [= <- <- <-].
      destruct (process_transaction_inv _ _ _ _ _ _ _ _ Hpt)
        as (Hl & Hq & Hc & _ & _ & Hwq & _).
      split; [right; auto|]. split; [|now repeat split].
      exists []. rewrite app_nil_r. split; [exact Hq|constructor].
    - intros [= <- <- <-]. split; [right; auto|]. split; [|now repeat split].
      exists [t]. split; [reflexivity|]. now constructor. }
  destruct (trigger_event_counter (info t) =? LWIS_EVENT_COUNTER_EVERY_TIME)
    eqn:Hevery.
  2:{ intros [= <- <- <-]. split; [left; auto|]. split; [|now repeat split].
      exists []. rewrite app_nil_r. split; [reflexivity|constructor]. }
  apply Z.eqb_eq in Hevery.
  unfold new_repeating_transaction_iteration.
  destruct (kzalloc (lwis_dev c) sizeof_lwis_transaction) as [[|] w1];
    cbn [negb].
  2:{ intros [= <- <- <-]. split; [right; split; auto|].
      - now apply passed_over_every_time.
      - split; [|now repeat split]. eexists [_]. split; [reflexivity|].
        constructor; [|constructor]. now apply passed_over_every_time. }
  destruct (kzalloc w1 _) as [[|] w2]; cbn [negb].
  2:{ intros [= <- <- <-]. split; [right; split; auto|].
      - now apply passed_over_every_time.
      - split; [|now repeat split]. eexists [_]. split; [reflexivity|].
        constructor; [|constructor]. now apply passed_over_every_time. }
  cbn [lwis_dev set_lwis_dev].
  destruct (run_in_event_context (info t) && negb (device_type_is_i2c w2)).
  - destruct (process_transaction fuel _ _ pending in_irq)
      as [[[r c1] pe]| |] eqn:Hpt; cbn; try discriminate.
    intros [= <- <- <-].
    destruct (process_transaction_inv _ _ _ _ _ _ _ _ Hpt)
      as (Hl & Hq & Hc & _ & _ & Hwq & _).
    split; [left; auto|]. split; [|now repeat split].
    exists []. rewrite app_nil_r. split; [exact Hq|constructor].
  - intros [= <- <- <-]. split; [left; auto|]. split; [|now repeat split].
    eexists [_]. split; [reflexivity|].
    constructor; [|constructor]. now apply passed_over_every_time.
Qed.

Lemma event_trigger_loop_inv fuel event_counter in_irq txs :
  forall kept (c : @lwis_client W) pending kept' c' pending',
    event_trigger_loop fuel event_counter in_irq txs kept c pending
    = Done (kept', c', pending') ->
    exists stay added,
      kept' = kept ++ stay
      /\ sublist stay txs
      /\ List.filter (passed_over event_counter) stay
         = List.filter (passed_over event_counter) txs
      /\ transaction_process_queue c' = transaction_process_queue c ++ added
      /\ Forall (fun x => passed_over event_counter x = false) added
      /\ transaction_list c' = transaction_list c
      /\ transaction_counter c' = transaction_counter c
      /\ transaction_wq c' = transaction_wq c.
Proof.
  induction txs as [|t txs IH]; intros kept c pending kept' c' pending'; simpl.
  - intros [= <- <- <-]. exists [], []. rewrite !app_nil_r.
    repeat split; auto; try constructor.
  - destruct (event_trigger_step fuel event_counter in_irq t c pending)
      as [[[stay0 c1] pe1]| |] eqn:Hstep; cbn; try discriminate.
    intros Hloop.
    destruct (event_trigger_step_inv _ _ _ _ _ _ _ _ _ Hstep)
      as (Hstay & (added0 & Hq0 & Hadd0) & Hl0 & Hc0 & Hwq0).
    destruct (IH _ _ _ _ _ _ Hloop)
      as (stay & added & -> & Hsub & Hfil & Hq & Hadd & Hl & Hc & Hwq).
    destruct Hstay as [-> | [-> Hp]].
    + exists (t :: stay), (added0 ++ added).
      rewrite <- app_assoc. split; [reflexivity|].
      split; [now apply sublist_skip|].
      split; [simpl; now rewrite Hfil|].
      split; [rewrite Hq, Hq0; now rewrite app_assoc|].
      split; [now apply Forall_app|]. repeat split; congruence.
    + exists stay, (added0 ++ added).
      rewrite app_nil_r. split; [reflexivity|].
      split; [now apply sublist_cons|].
      split; [simpl; now rewrite Hp|].
      split; [rewrite Hq, Hq0; now rewrite app_assoc|].
      split; [now apply Forall_app|]. repeat split; congruence.
Qed.

Lemma event_trigger_loop_passed_over fuel event_counter in_irq txs :
  forall kept (c : @lwis_client W) pending,
    Forall (fun t => passed_over event_counter t = true) txs ->
    event_trigger_loop fuel event_counter in_irq txs kept c pending
    = Done (kept ++ txs, c, pending).
Proof.
  induction txs as [|t txs IH]; intros kept c pending Hall; simpl.
  - now rewrite app_nil_r.
  - inversion Hall as [|? ? Ht Hrest]; subst.
    rewrite (event_trigger_step_passed_over _ _ _ _ _ _ Ht). cbn.
    rewrite (IH _ _ _ Hrest). now rewrite <- app_assoc.
Qed.

Lemma event_list_store_same tl id el :
  event_list_find tl id = Some el ->
  event_list_store tl id (event_transactions el) = tl.
Proof.
  induction tl as [|l tl IH]; simpl; [discriminate|].
  destruct (event_id l =? id) eqn:Hl.
  - intros [= <-]. apply Z.eqb_eq in Hl. rewrite <- Hl. now destruct l.
  - intros H. now rewrite (IH H).
Qed.

Lemma set_transaction_list_same (c : @lwis_client W) :
  set_transaction_list (transaction_list c) c = c.
Proof. now destruct c. Qed.

(** ** Worker and flush *)

Lemma transaction_work_loop_inv fuel q :
  forall (c : @lwis_client W) pending c' pending',
    transaction_process_queue c = q ->
    transaction_work_loop fuel q c pending = Done (c', pending') ->
    exists new,
      pending' = pending ++ new
      /\ Forall2 drained_event q new
      /\ transaction_process_queue c' = []
      /\ transaction_list c' = transaction_list c
      /\ transaction_counter c' = transaction_counter c
      /\ emitted c' = emitted c
      /\ transaction_wq c' = transaction_wq c
      /\ transaction_work c' = transaction_work c.
Proof.
  induction q as [|t q IH]; intros c pending c' pending' Hq; simpl.
  - intros [= <- <-]. exists []. rewrite app_nil_r.
    repeat split; auto; try constructor.
  - destruct (resp_error_code (resp t) =? 0) eqn:Herr; cbn [negb].
    + destruct (process_transaction fuel _ t (Some pending) false)
        as [[[r c2] pe2]| |] eqn:Hpt; cbn; try discriminate.
      destruct (process_transaction_inv _ _ _ _ _ _ _ _ Hpt)
        as (Hl & Hq2 & Hc & He & _ & Hwq & Hwk & ev & -> & Hid & Hev).
      intros Hloop. apply IH in Hloop; [|exact Hq2].
      destruct Hloop as (new & -> & Hall & Hq' & Hl' & Hc' & He' & Hwq' & Hwk').
      exists (ev :: new). cbn [default from_option id]. rewrite <- app_assoc.
      split; [reflexivity|]. split.
      { constructor; [|exact Hall]. unfold drained_event. rewrite Herr. auto. }
      cbn in *. repeat split; congruence.
    + intros Hloop. apply IH in Hloop; [|reflexivity].
      destruct Hloop as (new & -> & Hall & Hq' & Hl' & Hc' & He' & Hwq' & Hwk').
      eexists (_ :: new).
      cbn [default from_option id lwis_pending_event_push cancel_transaction
           snd].
      unfold lwis_pending_event_push. rewrite <- app_assoc.
      split; [reflexivity|]. split.
      { constructor; [|exact Hall]. unfold drained_event. rewrite Herr.
        cbn. auto. }
      cbn in *. repeat split; congruence.
Qed.

Lemma transaction_work_func_inv fuel (c c' : @lwis_client W) :
  transaction_work_func fuel c = Done c' ->
  exists new,
    emitted c' = emitted c ++ new
    /\ Forall2 drained_event (transaction_process_queue c) new
    /\ transaction_process_queue c' = []
    /\ transaction_list c' = transaction_list c
    /\ transaction_counter c' = transaction_counter c
    /\ transaction_wq c' = transaction_wq c.
Proof.
  unfold transaction_work_func.
  destruct (transaction_work_loop fuel _ _ []) as [[c1 pe]| |] eqn:Hloop;
    cbn; try discriminate.
  intros [= <-].
  apply transaction_work_loop_inv in Hloop; [|reflexivity].
  destruct Hloop as (new & -> & Hall & Hq & Hl & Hc & He & Hwq & _).
  exists new. cbn in *. rewrite He. now repeat split.
Qed.


Lemma flush_transactions_frame txs :
  forall c : @lwis_client W,
    flush_transactions c txs = set_kmem (kmem (flush_transactions c txs)) c.
Proof.
  induction txs as [|t txs IH]; intros c; simpl.
  - now destruct c.
  - rewrite IH at 1. now destruct c.
Qed.

Lemma flush_event_lists_inv tl :
  forall (c : @lwis_client W) kept c',
    flush_event_lists tl c = (kept, c') ->
    kept = List.filter is_cleanup_list tl /\ c' = set_kmem (kmem c') c.
Proof.
  induction tl as [|l tl IH]; intros c kept c'; simpl.
  - intros [= <- <-]. split; [reflexivity|now destruct c].
  - unfold is_cleanup_list at 1.
    destruct (event_id l =? LWIS_EVENT_ID_CLIENT_CLEANUP).
    + destruct (flush_event_lists tl c) as [kept1 c1] eqn:Hrest.
      intros [= <- <-]. destruct (IH _ _ _ Hrest) as [-> Hc].
      split; [reflexivity|exact Hc].
    + intros Hrest. destruct (IH _ _ _ Hrest) as [-> Hc].
      split; [reflexivity|]. rewrite Hc.
      rewrite (flush_transactions_frame (event_transactions l) c).
      reflexivity.
Qed.


Lemma flush_waiting_inv (c : @lwis_client W) :
  transaction_list (flush_waiting c)
  = List.filter is_cleanup_list (transaction_list c)
  /\ transaction_process_queue (flush_waiting c) = transaction_process_queue c
  /\ transaction_counter (flush_waiting c) = transaction_counter c
  /\ emitted (flush_waiting c) = emitted c
  /\ transaction_wq (flush_waiting c) = transaction_wq c
  /\ transaction_work (flush_waiting c) = transaction_work c.
Proof.
  unfold flush_waiting.
  destruct (flush_event_lists _ _) as [kept c1] eqn:Hf.
  destruct (flush_event_lists_inv _ _ _ _ Hf) as [-> Hc1].
  rewrite Hc1. now repeat split.
Qed.

Lemma flush_process_queue_inv (c : @lwis_client W) :
  transaction_list (flush_process_queue c) = transaction_list c
  /\ transaction_process_queue (flush_process_queue c) = []
  /\ transaction_counter (flush_process_queue c) = transaction_counter c
  /\ emitted (flush_process_queue c) = emitted c.
Proof.
  unfold flush_process_queue.
  rewrite (flush_transactions_frame _ (spin_lock_irqsave c)).
  now repeat split.
Qed.

(** ** Repeating transactions *)

Lemma new_repeating_transaction_iteration_inv (c : @lwis_client W) t o c1 :
  new_repeating_transaction_iteration c t = (o, c1) ->
  c1 = set_lwis_dev (lwis_dev c1) c
  /\ (o = None \/ o = Some (repeating_instance t)).
Proof.
  unfold new_repeating_transaction_iteration.
  destruct (kzalloc (lwis_dev c) sizeof_lwis_transaction) as [[|] w1];
    cbn [negb]; [|intros [= <- <-]; auto].
  destruct (kzalloc w1 _) as [[|] w2]; cbn [negb]; intros [= <- <-]; auto.
Qed.









(** ** Transaction ids *)

Lemma sint64_succ (n : Z) :
  - 2 ^ 63 <= n -> n + 1 < 2 ^ 63 -> sint64 (n + 1) = n + 1.
Proof.
  intros Hlo Hhi. unfold sint64, wrap64.
  destruct (Z_lt_dec (n + 1) 0) as [Hneg|Hpos].
  - replace ((n + 1) mod 2 ^ 64) with (n + 1 + 2 ^ 64)
      by (apply Z.mod_unique with (q := -1); lia).
    replace (n + 1 + 2 ^ 64 <? 2 ^ 63) with false
      by (symmetry; apply Z.ltb_ge; lia).
    lia.
  - rewrite Z.mod_small by lia.
    replace (n + 1 <? 2 ^ 63) with true by (symmetry; apply Z.ltb_lt; lia).
    reflexivity.
Qed.

Lemma lwis_transaction_replace_locked_inv (c : @lwis_client W) t ret t' c' :
  lwis_transaction_replace_locked c t = Done (ret, t', c') ->
  (ret = 0
   /\ info_id (info t') = transaction_counter c
   /\ transaction_counter c' = sint64 (transaction_counter c + 1))
  \/ (ret <> 0 /\ transaction_counter c' = transaction_counter c).
Proof.
  destruct (check_transaction_param_locked c t false) as [[ret0 t1] c1] eqn:Hchk.
  rewrite (lwis_transaction_replace_locked_unfold _ _ _ _ _ Hchk).
  destruct (check_transaction_param_locked_frame _ _ _ _ _ _ Hchk)
    as (Hc1 & _).
  assert (Hcnt : transaction_counter c1 = transaction_counter c)
    by (rewrite Hc1; reflexivity).
  destruct (ret0 =? 0) eqn:Hr0; cbn [negb].
  - destruct (cancel_in_transaction_list _ _) as [tl1|].
    + intros Hq. destruct (prepare_and_queue_inv _ _ _ _ _ Hq) as (_ & Hcases).
      cbn in Hcases. rewrite Hcnt in Hcases.
      destruct Hcases as [(-> & Hid & Hc & _) | (Hne & _ & _ & _ & Hc)]; auto.
    + intros [= <- <- <-]. right. split; [|exact Hcnt].
      intros H; vm_compute in H; discriminate H.
  - apply Z.eqb_neq in Hr0. intros [= <- <- <-]. right. auto.
Qed.

Lemma lwis_transaction_event_trigger_counter fuel (c : @lwis_client W) id
    event_counter pending in_irq r c' pending' :
  lwis_transaction_event_trigger fuel c id event_counter pending in_irq
  = Done (r, c', pending') ->
  transaction_counter c' = transaction_counter c.
Proof.
  unfold lwis_transaction_event_trigger.
  destruct (event_list_find _ id) as [el|]; [|now intros [= _ <- _]].
  destruct (event_transactions el) as [|t0 txs]; [now intros [= _ <- _]|].
  destruct (event_trigger_loop fuel event_counter in_irq (t0 :: txs) [] _
              pending) as [[[kept c1] pe1]| |] eqn:Hloop;
    cbn; try discriminate.
  destruct (event_trigger_loop_inv _ _ _ _ _ _ _ _ _ _ Hloop)
    as (_ & _ & _ & _ & _ & _ & _ & _ & Hc & _).
  destruct (transaction_process_queue c1); cbn.
  - intros [= _ <- _]. exact Hc.
  - unfold queue_work. cbn. destruct (transaction_wq c1); cbn; [|discriminate].
    intros [= _ <- _]. exact Hc.
Qed.

Lemma lwis_transaction_client_flush_counter fuel (c : @lwis_client W) r oc :
  lwis_transaction_client_flush fuel (Some c) = Done (r, oc) ->
  exists c', oc = Some c' /\ transaction_counter c' = transaction_counter c.
Proof.
  unfold lwis_transaction_client_flush.
  destruct (flush_waiting_inv c) as (_ & _ & Hc & _).
  destruct (transaction_wq (flush_waiting c)).
  - unfold drain_workqueue. destruct (transaction_work (flush_waiting c)).
    + destruct (transaction_work_func fuel (flush_waiting c)) as [c3| |] eqn:Hw;
        cbn; try discriminate.
      intros [= _ <-]. eexists. split; [reflexivity|].
      destruct (transaction_work_func_inv _ _ _ Hw) as (_ & _ & _ & _ & _ & Hc3 & _).
      destruct (flush_process_queue_inv c3) as (_ & _ & Hc4 & _). congruence.
    + cbn. intros [= _ <-]. eexists. split; [reflexivity|].
      destruct (flush_process_queue_inv (flush_waiting c)) as (_ & _ & Hc4 & _).
      congruence.
  - cbn. intros [= _ <-]. eexists. split; [reflexivity|].
    destruct (flush_process_queue_inv (flush_waiting c)) as (_ & _ & Hc4 & _).
    congruence.
Qed.

(** Only a successful submit or replace moves the counter, by one, and
    the transaction it queued has the old counter value as its id. *)
Lemma run_op_counter fuel (c : @lwis_client W) op o c' :
  run_op fuel c op = Done (o, c') ->
  match o with
  | Some (ret, t') =>
      if ret =? 0
      then info_id (info t') = transaction_counter c
           /\ transaction_counter c' = sint64 (transaction_counter c + 1)
      else transaction_counter c' = transaction_counter c
  | None => transaction_counter c' = transaction_counter c
  end.
Proof.
  destruct op as [t|t|id|id ec irq| |]; cbn [run_op].
  - destruct (lwis_transaction_submit_locked c t) as [[[r t'] c1]| |] eqn:Hs;
      cbn; try discriminate.
    intros [= <- <-].
    destruct (lwis_transaction_submit_locked_inv _ _ _ _ _ Hs)
      as [(-> & Hid & _ & Hc) | (Hne%Z.eqb_neq & Hc)].
    + now split.
    + now rewrite Hne.
  - destruct (lwis_transaction_replace_locked c t) as [[[r t'] c1]| |] eqn:Hs;
      cbn; try discriminate.
    intros [= <- <-].
    destruct (lwis_transaction_replace_locked_inv _ _ _ _ _ Hs)
      as [(-> & Hid & Hc) | (Hne%Z.eqb_neq & Hc)].
    + now split.
    + now rewrite Hne.
  - intros [= <- <-]. unfold lwis_transaction_cancel,
      cancel_waiting_transaction_locked. cbn.
    now destruct (cancel_in_transaction_list _ _).
  - destruct (lwis_transaction_event_trigger fuel c id ec (Some []) irq)
      as [[[r c1] pe]| |] eqn:Ht; cbn; try discriminate.
    intros [= <- <-]. cbn.
    exact (lwis_transaction_event_trigger_counter _ _ _ _ _ _ _ _ _ Ht).
  - destruct (transaction_work_func fuel c) as [c1| |] eqn:Hw;
      cbn; try discriminate.
    intros [= <- <-].
    now destruct (transaction_work_func_inv _ _ _ Hw) as (_ & _ & _ & _ & _ & Hc & _).
  - destruct (lwis_transaction_client_flush fuel (Some c)) as [[r oc]| |] eqn:Hf;
      cbn; try discriminate.
    intros [= <- <-].
    destruct (lwis_transaction_client_flush_counter _ _ _ _ Hf) as (c1 & -> & Hc).
    exact Hc.
Qed.

Lemma consecutive_cons n m : consecutive n (S m) = n :: consecutive (n + 1) m.
Proof.
  unfold consecutive. simpl. rewrite Z.add_0_r. f_equal.
  rewrite <- seq_shift, map_map. apply map_ext. intros k. lia.
Qed.

Lemma consecutive_sorted m : forall n, StronglySorted Z.lt (consecutive n m).
Proof.
  induction m as [|m IH]; intros n; [constructor|].
  rewrite consecutive_cons. constructor; [apply IH|].
  apply List.Forall_forall. intros x Hx. unfold consecutive in Hx.
  apply in_map_iff in Hx. destruct Hx as (k & <- & _). lia.
Qed.

Lemma run_ops_ids fuel ops :
  forall (c : @lwis_client W) results c',
    run_ops fuel c ops = Done (results, c') ->
    - 2 ^ 63 <= transaction_counter c ->
    transaction_counter c + Z.of_nat (length ops) < 2 ^ 63 ->
    assigned_ids results
    = consecutive (transaction_counter c) (length (assigned_ids results))
    /\ transaction_counter c'
       = transaction_counter c + Z.of_nat (length (assigned_ids results))
    /\ (length (assigned_ids results) <= length ops)%nat.
Proof.
  induction ops as [|op ops IH]; intros c results c'; simpl.
  - intros [= <- <-] _ _. cbn. split; [reflexivity|]. split; lia.
  - destruct (run_op fuel c op) as [[o c1]| |] eqn:Hop; cbn; try discriminate.
    destruct (run_ops fuel c1 ops) as [[rs c2]| |] eqn:Hrest;
      cbn; try discriminate.
    intros [= <- <-] Hlo Hhi.
    pose proof (run_op_counter _ _ _ _ _ Hop) as Hc.
    assert (Hstep :
      (exists t', o = Some (0, t')
                  /\ info_id (info t') = transaction_counter c
                  /\ transaction_counter c1 = transaction_counter c + 1)
      \/ (transaction_counter c1 = transaction_counter c
          /\ assigned_ids (match o with Some r => r :: rs | None => rs end)
             = assigned_ids rs)).
    { destruct o as [[r t']|]; [|right; auto].
      destruct (r =? 0) eqn:Hr.
      - apply Z.eqb_eq in Hr. subst r. destruct Hc as [Hid Hc].
        left. exists t'. rewrite Hc, sint64_succ by lia. auto.
      - right. split; [exact Hc|]. unfold assigned_ids. cbn. now rewrite Hr. }
    destruct Hstep as [(t' & -> & Hid & Hc1) | (Hc1 & Hids)].
    + destruct (IH _ _ _ Hrest) as (Hrs & Hc2 & Hlen); [lia|lia|].
      change (assigned_ids ((0, t') :: rs))
        with (info_id (info t') :: assigned_ids rs).
      cbn [length]. rewrite consecutive_cons, Hid. rewrite Hc1 in Hrs, Hc2.
      split; [now rewrite <- Hrs|]. split; lia.
    + destruct (IH _ _ _ Hrest) as (Hrs & Hc2 & Hlen); [lia|lia|].
      rewrite Hids. rewrite Hc1 in Hrs, Hc2. split; [exact Hrs|]. split; lia.
Qed.

Lemma lwis_transaction_submit_locked_done (c : @lwis_client W) t :
  load_io_entries (kmem c) (info t) <> None ->
  transaction_wq c = true ->
  exists ret t' c', lwis_transaction_submit_locked c t = Done (ret, t', c').
Proof.
  intros Hload Hwq. unfold lwis_transaction_submit_locked.
  destruct (check_transaction_param_locked c t _) as [[ret0 t1] c1] eqn:Hchk.
  destruct (check_transaction_param_locked_frame _ _ _ _ _ _ Hchk)
    as (Hc1 & _ & _ & Hnum & Hio & _).
  destruct (negb (ret0 =? 0)); [do 3 eexists; reflexivity|].
  apply prepare_and_queue_done.
  - rewrite Hc1. cbn. unfold load_io_entries in *. now rewrite Hnum, Hio.
  - rewrite Hc1. exact Hwq.
Qed.

(** ** Bias *)


(** Within one pass the entry after the prefix [pre] is executed with the
    bias of the last SetBias entry of [pre] (0 when there is none). *)
Lemma process_entries_bias fuel in_irq bw pre e post (w : W) r sk :
  process_entries fuel in_irq bw pre (loop_init w r) = Done (false, sk, []) ->
  ls_bias sk = last_bias 0 pre
  /\ process_entries fuel in_irq bw (pre ++ e :: post) (loop_init w r)
     = match execute_entry fuel in_irq bw
               (lwis_entry_bias e (last_bias 0 pre)) sk with
       | Done (true, s') => Done (true, s', post)
       | Done (false, s') => process_entries fuel in_irq bw post s'
       | OutOfFuel => OutOfFuel
       | Fault => Fault
       end.
Proof.
  intros Hpre.
  destruct (process_entries_complete _ _ _ _ _ _ _ Hpre)
    as (_ & _ & _ & _ & _ & Hb & _).
  split; [exact Hb|].
  rewrite (process_entries_app _ _ _ _ _ _ _ Hpre). simpl.
  unfold process_entry. now rewrite Hb.
Qed.

(** ** Failure of a submission *)

Lemma queue_transaction_locked_failure (c : @lwis_client W) t ret t' c' :
  queue_transaction_locked c t = Done (ret, t', c') ->
  ret <> 0 ->
  ret = - EINVAL /\ t' = t /\ c' = set_lwis_dev (lwis_dev c') c.
Proof.
  unfold queue_transaction_locked.
  destruct (trigger_event_id (info t) =? LWIS_EVENT_ID_NONE).
  - destruct (ktime_get_ns (lwis_dev c)) as [now w]. unfold queue_work. simpl.
    destruct (transaction_wq c); simpl; [|discriminate].
    intros [= <- <- <-] H. now destruct H.
  - unfold event_list_find_or_create, event_list_create.
    destruct (event_list_find (transaction_list c) _) as [el|].
    + destruct (ktime_get_ns (lwis_dev c)) as [now w].
      intros [= <- <- <-] H. now destruct H.
    + destruct (kzalloc (lwis_dev c) _) as [[|] w1]; simpl.
      * destruct (ktime_get_ns w1) as [now w].
        intros [= <- <- <-] H. now destruct H.
      * intros [= <- <- <-] _. now repeat split.
Qed.

Lemma lwis_transaction_submit_locked_failure (c : @lwis_client W) t ret t' c' :
  lwis_transaction_submit_locked c t = Done (ret, t', c') ->
  ret <> 0 ->
  c' = set_lwis_dev (lwis_dev c') c
  /\ (ret = - ENOENT \/ ret = - EINVAL \/ ret = - ENOMEM).
Proof.
  unfold lwis_transaction_submit_locked.
  destruct (check_transaction_param_locked c t _) as [[ret0 t1] c1] eqn:Hchk.
  destruct (check_transaction_param_locked_frame _ _ _ _ _ _ Hchk)
    as (Hc1 & _ & _ & _ & _ & Hret0).
  destruct (ret0 =? 0) eqn:Hr0; cbn [negb].
  - destruct (prepare_response_locked c1 t1) as [[[ret1 t2] c2]| |] eqn:Hprep;
      cbn; try discriminate.
    destruct (prepare_response_locked_inv _ _ _ _ _ Hprep)
      as (_ & Hc2 & Hres).
    destruct Hres as [(-> & _ & _) | (-> & _)]; cbn.
    + intros Hq Hne.
      destruct (queue_transaction_locked_failure _ _ _ _ _ Hq Hne)
        as (-> & _ & Hc').
      split; [|auto]. rewrite Hc', Hc2, Hc1. reflexivity.
    + intros [= <- <- <-] _. split; [|auto]. rewrite Hc2, Hc1. reflexivity.
  - intros [= <- <- <-] Hne. split; [exact Hc1|].
    destruct Hret0 as [-> | [-> | ->]]; auto. now destruct Hne.
Qed.

(** ** The size of the response *)

Lemma total_app l1 l2 : total (l1 ++ l2) = total l1 + total l2.
Proof.
  unfold total. induction l1 as [|x l1 IH]; simpl; [reflexivity|].
  rewrite IH. lia.
Qed.

Lemma wrap64_idem x : wrap64 (wrap64 x) = wrap64 x.
Proof. unfold wrap64. apply Z.mod_mod. lia. Qed.

Lemma wrap64_add_l x y : wrap64 (wrap64 x + y) = wrap64 (x + y).
Proof. unfold wrap64. apply Z.add_mod_idemp_l. lia. Qed.

Lemma wrap64_add_r x y : wrap64 (x + wrap64 y) = wrap64 (x + y).
Proof. unfold wrap64. apply Z.add_mod_idemp_r. lia. Qed.

Lemma lwis_entry_bias_result_bytes bw e bias :
  entry_result_bytes bw (lwis_entry_bias e bias) = entry_result_bytes bw e.
Proof. now destruct e. Qed.

Lemma scan_read_entries_total bw es :
  forall size n size' n',
    scan_read_entries bw es size n = (size', n') ->
    wrap64 size = size ->
    n' = n + Z.of_nat (length (omap (entry_result_bytes bw) es))
    /\ size' = wrap64 (size + total (omap (entry_result_bytes bw) es)).
Proof.
  induction es as [|e es IH]; intros size n size' n' Hs Hw.
  - simpl in *. injection Hs as <- <-. split; [lia|].
    unfold total; simpl. now rewrite Z.add_0_r.
  - destruct e; simpl in Hs;
      try (apply IH in Hs; [|assumption]; exact Hs);
      (apply IH in Hs; [|apply wrap64_idem]);
      destruct Hs as [-> ->]; simpl;
      change (list_omap lwis_io_entry Z (entry_result_bytes bw) es)
        with (omap (entry_result_bytes bw) es);
      (split; [lia|]); rewrite wrap64_add_l; f_equal; lia.
Qed.

Lemma process_entry_results fuel in_irq bw e (s : loop_state) b s' :
  process_entry fuel in_irq bw e s = Done (b, s') ->
  match entry_result_bytes bw e with
  | Some n =>
      exists r, resp_results (ls_resp s') = resp_results (ls_resp s) ++ [r]
                /\ res_num_value_bytes r = n
  | None => resp_results (ls_resp s') = resp_results (ls_resp s)
  end.
Proof.
  unfold process_entry, execute_entry.
  destruct e as [rw|b0|rw|b0|md|sb|p|k]; cbn [lwis_entry_bias entry_result_bytes].
  - destruct (register_io _ _ _ _) as [[ret e'] w'].
    destruct (negb (ret =? 0)); intros [= <- <-]; cbn; eauto.
  - destruct (register_io _ _ _ _) as [[ret e'] w'].
    destruct (negb (ret =? 0)); intros [= <- <-]; cbn; eauto.
  - destruct (register_io _ _ _ _) as [[ret e'] w'].
    destruct (negb (ret =? 0)); intros [= <- <-]; reflexivity.
  - destruct (register_io _ _ _ _) as [[ret e'] w'].
    destruct (negb (ret =? 0)); intros [= <- <-]; reflexivity.
  - destruct (register_io _ _ _ _) as [[ret e'] w'].
    destruct (negb (ret =? 0)); intros [= <- <-]; reflexivity.
  - intros [= <- <-]; reflexivity.
  - destruct (lwis_entry_poll fuel (ls_dev s) p) as [[ret w']| |]; cbn;
      try discriminate.
    destruct (negb (ret =? 0)); intros [= <- <-]; reflexivity.
  - intros [= <- <-]; reflexivity.
Qed.

Lemma process_entries_results fuel in_irq bw es :
  forall (s : loop_state) b s' u,
    process_entries fuel in_irq bw es s = Done (b, s', u) ->
    exists visited rs,
      es = visited ++ u
      /\ (b = false -> u = [])
      /\ resp_results (ls_resp s') = resp_results (ls_resp s) ++ rs
      /\ map res_num_value_bytes rs = omap (entry_result_bytes bw) visited.
Proof.
  induction es as [|e es IH]; intros s b s' u H.
  - simpl in H. injection H as <- <- <-. exists [], [].
    split; [reflexivity|]. split; [reflexivity|].
    split; [now rewrite app_nil_r|reflexivity].
  - simpl in H.
    destruct (process_entry fuel in_irq bw e s) as [[[|] s1]| |] eqn:He;
      try discriminate;
      pose proof (process_entry_results _ _ _ _ _ _ _ He) as Hr.
    + injection H as <- <- <-.
      exists [e].
      destruct (entry_result_bytes bw e) as [n|] eqn:Hn.
      * destruct Hr as (r & Hr & Hrn). exists [r].
        split; [reflexivity|]. split; [discriminate|]. split; [exact Hr|].
        simpl. now rewrite Hn, Hrn.
      * exists []. rewrite app_nil_r.
        split; [reflexivity|]. split; [discriminate|]. split; [exact Hr|].
        simpl. now rewrite Hn.
    + apply IH in H. destruct H as (visited & rs & -> & Hu & Hres & Hmap).
      exists (e :: visited).
      destruct (entry_result_bytes bw e) as [n|] eqn:Hn.
      * destruct Hr as (r & Hr & Hrn). exists (r :: rs).
        split; [reflexivity|]. split; [exact Hu|]. split.
        -- rewrite Hres, Hr, <- app_assoc. reflexivity.
        -- simpl. rewrite Hn, Hrn. f_equal. exact Hmap.
      * exists rs.
        split; [reflexivity|]. split; [exact Hu|]. split.
        -- now rewrite Hres, Hr.
        -- simpl. rewrite Hn. exact Hmap.
Qed.

Lemma process_entries_stopped fuel in_irq bw es :
  forall (s : loop_state) s' u,
    process_entries fuel in_irq bw es s = Done (true, s', u) ->
    ls_ret s = 0 ->
    resp_error_code (ls_resp s') <> 0.
Proof.
  induction es as [|e es IH]; intros s s' u H H0.
  - discriminate H.
  - simpl in H.
    destruct (process_entry fuel in_irq bw e s) as [[[|] s1]| |] eqn:He;
      try discriminate.
    + injection H as <- <-.
      now destruct (process_entry_stop _ _ _ _ _ _ He H0) as (_ & _ & _ & ? & _).
    + apply IH in H; [exact H|].
      destruct (process_entry_continue _ _ _ _ _ _ He) as (_ & _ & _ & _ & Hr & _).
      now apply Hr.
Qed.

Lemma process_transaction_done_inv fuel (c : @lwis_client W) t pending in_irq
    r c' pending' :
  process_transaction fuel c t pending in_irq = Done (r, c', pending') ->
  exists es stop (s : loop_state) u,
    load_io_entries (kmem c) (info t) = Some es
    /\ process_entries fuel in_irq
         (Z.quot (native_value_bitwidth (lwis_dev c)) 8) es
         (loop_init (lwis_dev c) (resp t)) = Done (stop, s, u).
Proof.
  unfold process_transaction.
  destruct (load_io_entries (kmem c) (info t)) as [es|]; [|discriminate].
  destruct (process_entries _ _ _ es _) as [[[stop s] u]| |] eqn:Hpe;
    try discriminate.
  intros _. exists es, stop, s, u. split; [reflexivity|exact Hpe].
Qed.

(** ** The transaction lock *)

Lemma lock_state_app l1 : forall held l2,
  lock_state held (l1 ++ l2)
  = match lock_state held l1 with
    | Some h => lock_state h l2
    | None => None
    end.
Proof.
  induction l1 as [|[|] l1 IH]; intros held l2; simpl; [reflexivity| |];
    destruct held; auto.
Qed.

Lemma spin_lock_irqsave_held (c : @lwis_client W) :
  lock_free c -> lock_held (spin_lock_irqsave c).
Proof.
  unfold lock_free, lock_held, spin_lock_irqsave. cbn [transaction_lock
    set_transaction_lock]. intros H. now rewrite lock_state_app, H.
Qed.

Lemma spin_unlock_irqrestore_free (c : @lwis_client W) :
  lock_held c -> lock_free (spin_unlock_irqrestore c).
Proof.
  unfold lock_free, lock_held, spin_unlock_irqrestore. cbn [transaction_lock
    set_transaction_lock]. intros H. now rewrite lock_state_app, H.
Qed.

Lemma process_transaction_unlocked fuel (c : @lwis_client W) t pending
    in_irq r c' pending' :
  lock_held c ->
  process_transaction fuel (spin_unlock_irqrestore c) t pending in_irq
  = Done (r, c', pending') ->
  lock_held (spin_lock_irqsave c').
Proof.
  intros Hh Hp. apply spin_lock_irqsave_held.
  destruct (process_transaction_inv _ _ _ _ _ _ _ _ Hp)
    as (_ & _ & _ & _ & Hl & _).
  unfold lock_free. rewrite Hl. now apply spin_unlock_irqrestore_free.
Qed.

Lemma transaction_work_loop_lock fuel q :
  forall (c : @lwis_client W) pending c' pending',
    lock_held c ->
    transaction_work_loop fuel q c pending = Done (c', pending') ->
    lock_held c'.
Proof.
  induction q as [|t q IH]; intros c pending c' pending' Hh H.
  - simpl in H. now injection H as <- <-.
  - simpl in H.
    destruct (negb (resp_error_code (resp t) =? 0)).
    + eapply IH; [|exact H]. exact Hh.
    + destruct (process_transaction _ _ _ _ _) as [[[r c2] pe]| |] eqn:Hp;
        try discriminate.
      cbn in H. eapply IH; [|exact H].
      eapply (process_transaction_unlocked fuel
                (set_transaction_process_queue q c)); [exact Hh|exact Hp].
Qed.

Lemma transaction_work_func_lock fuel (c c' : @lwis_client W) :
  lock_free c -> transaction_work_func fuel c = Done c' -> lock_free c'.
Proof.
  unfold transaction_work_func. intros Hf H.
  destruct (transaction_work_loop _ _ _ _) as [[c1 pe]| |] eqn:Hl;
    try discriminate.
  cbn in H. injection H as <-.
  apply transaction_work_loop_lock in Hl.
  - now apply spin_unlock_irqrestore_free in Hl.
  - now apply (spin_lock_irqsave_held (set_transaction_work false c)).
Qed.

Lemma event_trigger_step_lock fuel event_counter in_irq t (c : @lwis_client W)
    pending stay c' pending' :
  lock_held c ->
  event_trigger_step fuel event_counter in_irq t c pending
  = Done (stay, c', pending') ->
  lock_held c'.
Proof.
  unfold event_trigger_step. intros Hh.
  destruct (negb (resp_error_code (resp t) =? 0)).
  { now intros [= <- <- <-]. }
  destruct (_ || _).
  { destruct (_ && _).
    - destruct (process_transaction _ _ _ _ _) as [[[r c1] pe]| |] eqn:Hp;
        try discriminate.
      cbn. intros [= <- <- <-].
      eapply process_transaction_unlocked; [exact Hh|exact Hp].
    - now intros [= <- <- <-]. }
  destruct (_ =? _); [|now intros [= <- <- <-]].
  destruct (new_repeating_transaction_iteration c t) as [[ni|] c1] eqn:Hn;
    destruct (new_repeating_transaction_iteration_inv _ _ _ _ Hn) as [Hc1 _];
    assert (Hh1 : lock_held c1) by (rewrite Hc1; exact Hh).
  - destruct (_ && _).
    + destruct (process_transaction _ _ _ _ _) as [[[r c2] pe]| |] eqn:Hp;
        try discriminate.
      cbn. intros [= <- <- <-].
      eapply process_transaction_unlocked; [exact Hh1|exact Hp].
    + now intros [= <- <- <-].
  - now intros [= <- <- <-].
Qed.

Lemma event_trigger_loop_lock fuel event_counter in_irq txs :
  forall kept (c : @lwis_client W) pending kept' c' pending',
    lock_held c ->
    event_trigger_loop fuel event_counter in_irq txs kept c pending
    = Done (kept', c', pending') ->
    lock_held c'.
Proof.
  induction txs as [|t txs IH]; intros kept c pending kept' c' pending' Hh H.
  - simpl in H. now injection H as <- <- <-.
  - simpl in H.
    destruct (event_trigger_step _ _ _ _ _ _) as [[[stay c1] pe]| |] eqn:Hs;
      try discriminate.
    cbn in H. eapply IH; [|exact H].
    eapply event_trigger_step_lock; [exact Hh|exact Hs].
Qed.

Lemma lwis_transaction_event_trigger_lock fuel (c : @lwis_client W) id
    event_counter pending in_irq r c' pending' :
  lock_free c ->
  lwis_transaction_event_trigger fuel c id event_counter pending in_irq
  = Done (r, c', pending') ->
  lock_free c'.
Proof.
  unfold lwis_transaction_event_trigger. intros Hf.
  pose proof (spin_lock_irqsave_held _ Hf) as Hh.
  destruct (event_list_find _ id) as [el|].
  2:{ intros [= <- <- <-]. now apply spin_unlock_irqrestore_free. }
  destruct (event_transactions el) as [|t txs].
  { intros [= <- <- <-]. now apply spin_unlock_irqrestore_free. }
  destruct (event_trigger_loop _ _ _ _ _ _ _) as [[[kept c1] pe]| |] eqn:Hl;
    try discriminate.
  cbn [mbind outcome_bind].
  apply event_trigger_loop_lock in Hl; [|exact Hh].
  match goal with
  | |- context [set_transaction_list ?l c1] =>
      set (c2 := set_transaction_list l c1)
  end.
  assert (Hh2 : lock_held c2) by exact Hl.
  destruct (transaction_process_queue c2).
  - intros [= <- <- <-]. now apply spin_unlock_irqrestore_free.
  - unfold queue_work. destruct (transaction_wq c2); [|discriminate].
    intros [= <- <- <-].
    now apply (spin_unlock_irqrestore_free (set_transaction_work true c2)).
Qed.

Lemma flush_waiting_lock (c : @lwis_client W) :
  lock_free c -> lock_free (flush_waiting c).
Proof.
  unfold flush_waiting. intros Hf.
  destruct (flush_event_lists _ _) as [kept c1] eqn:Hfl.
  destruct (flush_event_lists_inv _ _ _ _ Hfl) as [_ Hc1].
  apply (spin_unlock_irqrestore_free (set_transaction_list kept c1)).
  rewrite Hc1. now apply spin_lock_irqsave_held.
Qed.

Lemma flush_process_queue_lock (c : @lwis_client W) :
  lock_free c -> lock_free (flush_process_queue c).
Proof.
  unfold flush_process_queue. intros Hf.
  match goal with
  | |- context [flush_transactions ?c0 ?q] =>
      apply (spin_unlock_irqrestore_free
               (set_transaction_process_queue [] (flush_transactions c0 q)));
      unfold lock_held; cbn [set_transaction_process_queue transaction_lock];
      rewrite (flush_transactions_frame q c0)
  end.
  now apply spin_lock_irqsave_held.
Qed.

Lemma lwis_transaction_client_flush_lock fuel (c : @lwis_client W) r c' :
  lock_free c ->
  lwis_transaction_client_flush fuel (Some c) = Done (r, Some c') ->
  lock_free c'.
Proof.
  unfold lwis_transaction_client_flush, drain_workqueue. intros Hf.
  pose proof (flush_waiting_lock _ Hf) as Hf2.
  destruct (transaction_wq (flush_waiting c)).
  - destruct (transaction_work (flush_waiting c)).
    + destruct (transaction_work_func _ _) as [c3| |] eqn:Hw; try discriminate.
      cbn. intros [= _ <-]. apply flush_process_queue_lock.
      eapply transaction_work_func_lock; [exact Hf2|exact Hw].
    + cbn. intros [= _ <-]. now apply flush_process_queue_lock.
  - cbn. intros [= _ <-]. now apply flush_process_queue_lock.
Qed.

Lemma lwis_transaction_cancel_lock (c : @lwis_client W) id :
  lock_free c -> lock_free (snd (lwis_transaction_cancel c id)).
Proof.
  unfold lwis_transaction_cancel, cancel_waiting_transaction_locked.
  intros Hf. pose proof (spin_lock_irqsave_held _ Hf) as Hh.
  cbn [transaction_list spin_lock_irqsave set_transaction_lock].
  destruct (cancel_in_transaction_list _ id) as [tl|]; cbn [snd].
  - now apply (spin_unlock_irqrestore_free
                 (set_transaction_list tl (spin_lock_irqsave c))).
  - now apply spin_unlock_irqrestore_free.
Qed.

Context {D : lwis_kernel W}.

Lemma cleanup_loop_lock fuel txs :
  forall (c c' : @lwis_client W),
    lock_held c -> cleanup_loop fuel txs c = Done c' -> lock_held c'.
Proof.
  induction txs as [|t txs IH]; intros c c' Hh H.
  - simpl in H. now injection H as <-.
  - simpl in H.
    destruct (_ || _).
    + eapply IH; [|exact H]. exact Hh.
    + destruct (process_transaction _ _ _ _ _) as [[[r c1] pe]| |] eqn:Hp;
        try discriminate.
      cbn in H. eapply IH; [|exact H].
      match type of Hp with
      | process_transaction _ (spin_unlock_irqrestore ?c0) _ _ _ = _ =>
          eapply (process_transaction_unlocked fuel c0); [exact Hh|exact Hp]
      end.
Qed.

Lemma lwis_transaction_client_cleanup_lock fuel (c : @lwis_client W) r c' :
  lock_free c ->
  lwis_transaction_client_cleanup fuel c = Done (r, c') ->
  lock_free c'.
Proof.
  unfold lwis_transaction_client_cleanup. intros Hf.
  pose proof (spin_lock_irqsave_held _ Hf) as Hh.
  destruct (event_list_find _ _) as [el|].
  - destruct (cleanup_loop _ _ _) as [c1| |] eqn:Hl; try discriminate.
    cbn. intros [= _ <-].
    apply cleanup_loop_lock in Hl; [|exact Hh].
    match goal with
    | |- context [set_transaction_list ?l c1] =>
        now apply (spin_unlock_irqrestore_free (set_transaction_list l c1))
    end.
  - intros [= _ <-]. now apply spin_unlock_irqrestore_free.
Qed.

(** ** Memory and history *)

Lemma flush_transactions_kmem txs :
  forall (c : @lwis_client W) p,
    kmem (flush_transactions c txs) !! p
    = if existsb (fun t => N.eqb (io_entries (info t)) p) txs
      then None else kmem c !! p.
Proof.
  induction txs as [|t txs IH]; intros c p; [reflexivity|].
  cbn [flush_transactions existsb]. rewrite IH.
  cbn [cancel_transaction fst free_transaction kmem set_kmem].
  destruct (N.eqb_spec (io_entries (info t)) p) as [->|Hne]; cbn [orb].
  - rewrite lookup_delete_eq. now destruct (existsb _ txs).
  - rewrite lookup_delete_ne by exact Hne. reflexivity.
Qed.

Lemma flush_event_lists_freed tl :
  forall (c : @lwis_client W) t,
    In t (waiting_transactions tl) ->
    kmem (snd (flush_event_lists tl c)) !! io_entries (info t) = None.
Proof.
  assert (Hmono : forall tl (c : @lwis_client W) p,
             kmem c !! p = None ->
             kmem (snd (flush_event_lists tl c)) !! p = None).
  { clear. induction tl as [|l tl IH]; intros c p Hp; [exact Hp|].
    cbn [flush_event_lists].
    destruct (event_id l =? LWIS_EVENT_ID_CLIENT_CLEANUP).
    - specialize (IH c p Hp). destruct (flush_event_lists tl c). exact IH.
    - apply IH. rewrite flush_transactions_kmem, Hp.
      now destruct (existsb _ _). }
  induction tl as [|l tl IH]; intros c t Hin; [destruct Hin|].
  unfold waiting_transactions in Hin. cbn [List.filter] in Hin.
  cbn [flush_event_lists]. unfold is_cleanup_list in Hin.
  destruct (event_id l =? LWIS_EVENT_ID_CLIENT_CLEANUP); cbn [negb] in Hin.
  - specialize (IH c t Hin). destruct (flush_event_lists tl c). exact IH.
  - cbn [map concat] in Hin. apply in_app_or in Hin. destruct Hin as [Hin|Hin].
    + apply Hmono. rewrite flush_transactions_kmem.
      replace (existsb _ _) with true; [reflexivity|].
      symmetry. apply existsb_exists. exists t. split; [exact Hin|].
      apply N.eqb_refl.
    + now apply IH.
Qed.

Lemma flush_waiting_freed (c : @lwis_client W) t :
  In t (waiting_transactions (transaction_list c)) ->
  kmem (flush_waiting c) !! io_entries (info t) = None.
Proof.
  intros Hin. unfold flush_waiting.
  pose proof (flush_event_lists_freed (transaction_list c)
                (spin_lock_irqsave c) t Hin) as H.
  cbn [transaction_list spin_lock_irqsave set_transaction_lock].
  destruct (flush_event_lists _ _) as [kept c1]. exact H.
Qed.

Lemma process_entry_processed fuel in_irq bw e (s : loop_state) b s' :
  process_entry fuel in_irq bw e s = Done (b, s') ->
  exists e', ls_processed s' = ls_processed s ++ [e'].
Proof.
  unfold process_entry, execute_entry.
  destruct e as [rw|b0|rw|b0|md|sb|p|k]; cbn [lwis_entry_bias];
    try (destruct (register_io _ _ _ _) as [[ret e'] w'];
         destruct (negb (ret =? 0)); intros [= <- <-]; cbn; eauto);
    try (intros [= <- <-]; cbn; eauto).
  destruct (lwis_entry_poll fuel (ls_dev s) p) as [[ret w']| |]; cbn;
    try discriminate.
  destruct (negb (ret =? 0)); intros [= <- <-]; cbn; eauto.
Qed.

Lemma process_entries_processed fuel in_irq bw es :
  forall (s : loop_state) b s' u,
    process_entries fuel in_irq bw es s = Done (b, s', u) ->
    (length (ls_processed s') + length u
     = length (ls_processed s) + length es)%nat.
Proof.
  induction es as [|e es IH]; intros s b s' u H.
  - simpl in H. injection H as <- <- <-. reflexivity.
  - simpl in H.
    destruct (process_entry fuel in_irq bw e s) as [[[|] s1]| |] eqn:He;
      try discriminate;
      destruct (process_entry_processed _ _ _ _ _ _ _ He) as (e' & He').
    + injection H as <- <- <-. rewrite He', length_app. simpl. lia.
    + apply IH in H. rewrite H, He', length_app. simpl. lia.
Qed.

Lemma process_transaction_state fuel (c : @lwis_client W) t pending in_irq
    r c' pending' :
  process_transaction fuel c t pending in_irq = Done (r, c', pending') ->
  exists es stop (s : loop_state) u,
    load_io_entries (kmem c) (info t) = Some es
    /\ process_entries fuel in_irq
         (Z.quot (native_value_bitwidth (lwis_dev c)) 8) es
         (loop_init (lwis_dev c) (resp t)) = Done (stop, s, u)
    /\ debug_info c' = debug_info (save_transaction_to_history c (info t))
    /\ kmem c'
       = (if trigger_event_counter (info t) =? LWIS_EVENT_COUNTER_EVERY_TIME
          then store_io_entries (kmem c) (info t) (ls_processed s ++ u)
          else delete (io_entries (info t))
                 (store_io_entries (kmem c) (info t) (ls_processed s ++ u))).
Proof.
  unfold process_transaction.
  destruct (load_io_entries (kmem c) (info t)) as [es|]; [|discriminate].
  destruct (process_entries _ _ _ es _) as [[[stop s] u]| |] eqn:Hpe;
    try discriminate.
  cbn [mbind outcome_bind].
  intros [= _ <- _]. exists es, stop, s, u.
  split; [reflexivity|]. split; [exact Hpe|].
  destruct (_ =? _); split; reflexivity.
Qed.

(** ** Successful submissions *)

Lemma queue_transaction_locked_success (c : @lwis_client W) t t' c' :
  queue_transaction_locked c t = Done (0, t', c') ->
  (exists now,
      t' = set_info (info_set_submission_timestamp_ns now (info t)) t)
  /\ transaction_counter c' = sint64 (transaction_counter c + 1)
  /\ emitted c' = emitted c
  /\ kmem c' = kmem c
  /\ transaction_lock c' = transaction_lock c
  /\ debug_info c' = debug_info c
  /\ transaction_wq c' = transaction_wq c
  /\ (if trigger_event_id (info t) =? LWIS_EVENT_ID_NONE
      then transaction_process_queue c' = transaction_process_queue c ++ [t']
           /\ transaction_list c' = transaction_list c
           /\ transaction_work c' = true
      else transaction_process_queue c' = transaction_process_queue c
           /\ transaction_work c' = transaction_work c
           /\ transaction_list c'
              = match event_list_find (transaction_list c)
                        (trigger_event_id (info t)) with
                | Some el =>
                    event_list_store (transaction_list c)
                      (trigger_event_id (info t))
                      (event_transactions el ++ [t'])
                | None =>
                    {| event_id := trigger_event_id (info t);
                       event_transactions := [t'] |} :: transaction_list c
                end).
Proof.
  unfold queue_transaction_locked.
  destruct (trigger_event_id (info t) =? LWIS_EVENT_ID_NONE) eqn:Hnone.
  - destruct (ktime_get_ns (lwis_dev c)) as [now w]. unfold queue_work. simpl.
    destruct (transaction_wq c) eqn:Hwq; simpl; [|discriminate].
    intros [= <- <-]. cbn. rewrite Hwq. repeat split; eauto.
  - unfold event_list_find_or_create, event_list_create.
    destruct (event_list_find (transaction_list c) _) as [el|] eqn:Hfind.
    + destruct (ktime_get_ns (lwis_dev c)) as [now w].
      intros [= <- <-]. cbn. repeat split; eauto.
    + destruct (kzalloc (lwis_dev c) _) as [[|] w1]; simpl.
      * destruct (ktime_get_ns w1) as [now w].
        intros [= <- <-]. cbn. rewrite Z.eqb_refl. repeat split; eauto.
      * intros H. vm_compute in H. discriminate H.
Qed.

Lemma lwis_transaction_submit_locked_success (c : @lwis_client W) t t' c' :
  lwis_transaction_submit_locked c t = Done (0, t', c') ->
  info_id (info t') = transaction_counter c
  /\ resp_id (resp t') = transaction_counter c
  /\ resp_error_code (resp t') = 0
  /\ io_entries (info t') = io_entries (info t)
  /\ num_io_entries (info t') = num_io_entries (info t)
  /\ transaction_counter c' = sint64 (transaction_counter c + 1)
  /\ emitted c' = emitted c
  /\ kmem c' = kmem c
  /\ transaction_lock c' = transaction_lock c
  /\ debug_info c' = debug_info c
  /\ transaction_wq c' = transaction_wq c
  /\ (if trigger_event_id (info t') =? LWIS_EVENT_ID_NONE
      then transaction_process_queue c' = transaction_process_queue c ++ [t']
           /\ transaction_list c' = transaction_list c
           /\ transaction_work c' = true
      else transaction_process_queue c' = transaction_process_queue c
           /\ transaction_work c' = transaction_work c
           /\ transaction_list c'
              = match event_list_find (transaction_list c)
                        (trigger_event_id (info t')) with
                | Some el =>
                    event_list_store (transaction_list c)
                      (trigger_event_id (info t'))
                      (event_transactions el ++ [t'])
                | None =>
                    {| event_id := trigger_event_id (info t');
                       event_transactions := [t'] |} :: transaction_list c
                end).
Proof.
  unfold lwis_transaction_submit_locked.
  destruct (check_transaction_param_locked c t _) as [[ret0 t1] c1] eqn:Hchk.
  destruct (check_transaction_param_locked_frame _ _ _ _ _ _ Hchk)
    as (Hc1 & _ & _ & Hnum & Hptr & _).
  destruct (Z.eqb_spec ret0 0) as [->|Hne]; cbn [negb].
  2:{ intros [= -> _ _]. now destruct Hne. }
  destruct (prepare_response_locked c1 t1) as [[[ret1 t2] c2]| |] eqn:Hprep;
    cbn; try discriminate.
  destruct (prepare_response_locked_inv _ _ _ _ _ Hprep) as (Hi2 & Hc2 & Hres).
  destruct (Z.eqb_spec ret1 0) as [->|Hne]; cbn [negb].
  2:{ intros [= -> _ _]. now destruct Hne. }
  destruct Hres as [(_ & Hrid & Herr) | (Hbad & _)];
    [|vm_compute in Hbad; discriminate].
  intros Hq.
  destruct (queue_transaction_locked_success _ _ _ _ Hq)
    as ((now & Ht') & Hcnt & Hem & Hk & Hl & Hd & Hwq & Hrest).
  assert (Hc21 : transaction_counter c2 = transaction_counter c
                 /\ transaction_list c2 = transaction_list c
                 /\ transaction_process_queue c2 = transaction_process_queue c
                 /\ transaction_work c2 = transaction_work c
                 /\ emitted c2 = emitted c /\ kmem c2 = kmem c
                 /\ transaction_lock c2 = transaction_lock c
                 /\ debug_info c2 = debug_info c
                 /\ transaction_wq c2 = transaction_wq c).
  { rewrite Hc2, Hc1. now repeat split. }
  destruct Hc21 as (E1 & E2 & E3 & E4 & E5 & E6 & E7 & E8 & E9).
  assert (E0 : transaction_counter c1 = transaction_counter c)
    by (rewrite Hc1; reflexivity).
  rewrite E0 in Hi2, Hrid.
  assert (Hinfo : info t' = info_set_submission_timestamp_ns now (info t2))
    by (rewrite Ht'; reflexivity).
  assert (Hresp : resp t' = resp t2) by (rewrite Ht'; reflexivity).
  assert (Htrig : trigger_event_id (info t') = trigger_event_id (info t2))
    by (rewrite Hinfo; reflexivity).
  rewrite E1 in Hcnt. rewrite E2, E3, E4 in Hrest.
  rewrite Htrig, Hresp, Hinfo, Hi2.
  cbn [info_id info_set_submission_timestamp_ns info_set_id io_entries
       num_io_entries].
  repeat split; try congruence.
  rewrite Hi2 in Hrest. exact Hrest.
Qed.

(** ** The index stays well formed *)

Lemma sublist_map_list {A B : Type} (f : A -> B) (l k : list A) :
  sublist l k -> sublist (map f l) (map f k).
Proof. induction 1; simpl; constructor; auto. Qed.

Lemma Forall_sublist_list {A : Type} (P : A -> Prop) (l k : list A) :
  sublist l k -> Forall P k -> Forall P l.
Proof.
  induction 1; intros HF; [constructor| |]; inversion HF; subst; auto.
Qed.

Lemma event_list_find_None tl id :
  event_list_find tl id = None -> ~ In id (map event_id tl).
Proof.
  induction tl as [|l tl IH]; simpl; [tauto|].
  destruct (Z.eqb_spec (event_id l) id); [discriminate|].
  intros H [Heq|Hin]; [contradiction|]. now apply IH.
Qed.

Lemma event_list_store_event_ids tl id txs :
  map event_id (event_list_store tl id txs) = map event_id tl.
Proof.
  induction tl as [|l tl IH]; simpl; [reflexivity|].
  destruct (Z.eqb_spec (event_id l) id); simpl; congruence.
Qed.

Lemma event_list_store_keys_sublist tl id el kept :
  event_list_find tl id = Some el ->
  sublist kept (event_transactions el) ->
  sublist (waiting_keys (event_list_store tl id kept)) (waiting_keys tl).
Proof.
  induction tl as [|l tl IH]; simpl; [discriminate|].
  destruct (Z.eqb_spec (event_id l) id) as [He|He].
  - intros [= <-] Hs. simpl. apply sublist_app; [|reflexivity].
    rewrite He. now apply sublist_map_list.
  - intros Hf Hs. simpl. apply sublist_app; [reflexivity|]. now apply IH.
Qed.

Lemma event_list_store_keys_append tl id el t' :
  event_list_find tl id = Some el ->
  Permutation
    (waiting_keys (event_list_store tl id (event_transactions el ++ [t'])))
    (key_of id t' :: waiting_keys tl).
Proof.
  induction tl as [|l tl IH]; simpl; [discriminate|].
  destruct (Z.eqb_spec (event_id l) id) as [He|He].
  - intros [= <-]. simpl. rewrite He, map_app, <- app_assoc. simpl.
    symmetry. apply Permutation_middle.
  - intros Hf. simpl.
    etransitivity; [apply Permutation_app_head, IH, Hf|].
    symmetry. apply Permutation_middle.
Qed.

Lemma cancel_in_event_list_keys e txs id txs' :
  cancel_in_event_list txs id = Some txs' ->
  map (key_of e) txs' = map (key_of e) txs.
Proof.
  revert txs'. induction txs as [|t txs IH]; intros txs'; simpl;
    [discriminate|].
  destruct (info_id (info t) =? id).
  - intros [= <-]. reflexivity.
  - destruct (cancel_in_event_list txs id) as [rest|]; [|discriminate].
    intros [= <-]. simpl. f_equal. now apply IH.
Qed.

Lemma cancel_in_transaction_list_keys tl id tl' :
  cancel_in_transaction_list tl id = Some tl' ->
  map event_id tl' = map event_id tl /\ waiting_keys tl' = waiting_keys tl.
Proof.
  revert tl'. induction tl as [|l tl IH]; intros tl'; simpl; [discriminate|].
  destruct (cancel_in_event_list (event_transactions l) id) as [txs|] eqn:Hc.
  - intros [= <-]. simpl. split; [reflexivity|].
    now rewrite (cancel_in_event_list_keys _ _ _ _ Hc).
  - destruct (cancel_in_transaction_list tl id) as [tl''|]; [|discriminate].
    intros [= <-]. destruct (IH _ eq_refl) as [H1 H2]. simpl.
    now rewrite H1, H2.
Qed.

Lemma filter_keys_sublist (p : lwis_transaction_event_list -> bool) tl :
  sublist (map event_id (List.filter p tl)) (map event_id tl)
  /\ sublist (waiting_keys (List.filter p tl)) (waiting_keys tl).
Proof.
  induction tl as [|l tl [IH1 IH2]]; simpl; [split; constructor|].
  destruct (p l); simpl.
  - split; [now constructor|]. apply sublist_app; [reflexivity|exact IH2].
  - split; [now constructor|]. now apply sublist_inserts_l.
Qed.

Lemma index_wf_at_sub n n' tl tl' :
  index_wf_at n tl ->
  n <= n' ->
  sublist (map event_id tl') (map event_id tl) ->
  sublist (waiting_keys tl') (waiting_keys tl) ->
  index_wf_at n' tl'.
Proof.
  intros (H1 & H2 & H3) Hn Hs1 Hs2. split; [|split].
  - eapply sublist_NoDup; [exact H1|exact Hs1].
  - eapply Forall_sublist_list; [exact Hs2|].
    eapply Forall_impl; [exact H2|]. intros k [Hk1 Hk2]. split; [exact Hk1|lia].
  - eapply sublist_NoDup; [exact H3|]. now apply sublist_map_list.
Qed.

Lemma index_wf_at_add n tl t' :
  index_wf_at n tl ->
  info_id (info t') = n ->
  index_wf_at (n + 1)
    match event_list_find tl (trigger_event_id (info t')) with
    | Some el =>
        event_list_store tl (trigger_event_id (info t'))
          (event_transactions el ++ [t'])
    | None =>
        {| event_id := trigger_event_id (info t');
           event_transactions := [t'] |} :: tl
    end.
Proof.
  intros (H1 & H2 & H3) Hid.
  assert (Hfresh : n ∉ map snd (waiting_keys tl)).
  { intros Hin%list_elem_of_In. apply in_map_iff in Hin. destruct Hin as (k & Hk & Hin).
    rewrite List.Forall_forall in H2. destruct (H2 k Hin) as [_ Hlt]. lia. }
  assert (H2' : Forall (fun k => snd (fst k) = fst (fst k) /\ snd k < n + 1)
                  (key_of (trigger_event_id (info t')) t' :: waiting_keys tl)).
  { constructor; [split; [reflexivity|cbn; lia]|].
    eapply Forall_impl; [exact H2|]. intros k [Hk1 Hk2]. split; [exact Hk1|lia]. }
  assert (H3' : NoDup (map snd (key_of (trigger_event_id (info t')) t'
                                  :: waiting_keys tl))).
  { simpl. constructor; [rewrite Hid; exact Hfresh|exact H3]. }
  destruct (event_list_find tl (trigger_event_id (info t'))) as [el|] eqn:Hf.
  - pose proof (event_list_store_keys_append _ _ _ t' Hf) as Hperm.
    split; [|split].
    + now rewrite event_list_store_event_ids.
    + eapply Permutation_Forall; [symmetry; exact Hperm|exact H2'].
    + apply NoDup_ListNoDup.
      eapply Permutation_NoDup; [|apply NoDup_ListNoDup; exact H3'].
      symmetry. now apply Permutation_map.
  - split; [|split].
    + simpl. constructor; [|exact H1].
      rewrite list_elem_of_In. now apply event_list_find_None.
    + exact H2'.
    + exact H3'.
Qed.

Lemma lwis_transaction_event_trigger_index fuel (c : @lwis_client W) id
    event_counter pending in_irq r c' pending' :
  lwis_transaction_event_trigger fuel c id event_counter pending in_irq
  = Done (r, c', pending') ->
  sublist (map event_id (transaction_list c'))
    (map event_id (transaction_list c))
  /\ sublist (waiting_keys (transaction_list c'))
       (waiting_keys (transaction_list c)).
Proof.
  unfold lwis_transaction_event_trigger.
  cbn [transaction_list spin_lock_irqsave set_transaction_lock].
  destruct (event_list_find (transaction_list c) id) as [el|] eqn:Hf;
    [|intros [= _ <- _]; split; reflexivity].
  destruct (event_transactions el) as [|t0 txs] eqn:Htx;
    [intros [= _ <- _]; split; reflexivity|].
  destruct (event_trigger_loop fuel event_counter in_irq (t0 :: txs) [] _
              pending) as [[[kept c1] pe1]| |] eqn:Hloop;
    cbn [mbind outcome_bind]; try discriminate.
  destruct (event_trigger_loop_inv _ _ _ _ _ _ _ _ _ _ Hloop)
    as (stay & added & Hk & Hsub & _ & _ & _ & Htl & _).
  cbn [transaction_list spin_lock_irqsave set_transaction_lock] in Htl.
  rewrite app_nil_l in Hk. subst kept. rewrite <- Htx in Hsub.
  assert (Hgoal :
    sublist (map event_id (event_list_store (transaction_list c1) id stay))
      (map event_id (transaction_list c))
    /\ sublist (waiting_keys (event_list_store (transaction_list c1) id stay))
         (waiting_keys (transaction_list c))).
  { rewrite Htl, event_list_store_event_ids. split; [reflexivity|].
    eapply event_list_store_keys_sublist; eassumption. }
  match goal with
  | |- context [set_transaction_list ?l c1] =>
      set (c2 := set_transaction_list l c1)
  end.
  destruct (transaction_process_queue c2).
  - intros [= _ <- _]. exact Hgoal.
  - unfold queue_work. destruct (transaction_wq c2); [|discriminate].
    intros [= _ <- _]. exact Hgoal.
Qed.

Lemma lwis_transaction_client_flush_index fuel (c : @lwis_client W) r c' :
  lwis_transaction_client_flush fuel (Some c) = Done (r, Some c') ->
  transaction_list c' = List.filter is_cleanup_list (transaction_list c).
Proof.
  unfold lwis_transaction_client_flush, drain_workqueue.
  destruct (flush_waiting_inv c) as (Htl & _).
  destruct (transaction_wq (flush_waiting c)).
  - destruct (transaction_work (flush_waiting c)).
    + destruct (transaction_work_func fuel (flush_waiting c)) as [c3| |] eqn:Hw;
        cbn; try discriminate.
      intros [= _ <-].
      destruct (transaction_work_func_inv _ _ _ Hw) as (_ & _ & _ & _ & Hl3 & _).
      destruct (flush_process_queue_inv c3) as (Hl4 & _). congruence.
    + cbn. intros [= _ <-].
      destruct (flush_process_queue_inv (flush_waiting c)) as (Hl4 & _).
      congruence.
  - cbn. intros [= _ <-].
    destruct (flush_process_queue_inv (flush_waiting c)) as (Hl4 & _).
    congruence.
Qed.

Lemma prepare_and_queue_success (c : @lwis_client W) t t' c' :
  ('(ret, t2, c3) ← prepare_response_locked c t;
   if negb (ret =? 0) then Done (ret, t2, c3)
   else queue_transaction_locked c3 t2) = Done (0, t', c') ->
  info_id (info t') = transaction_counter c
  /\ trigger_event_id (info t') = trigger_event_id (info t)
  /\ transaction_counter c' = sint64 (transaction_counter c + 1)
  /\ (if trigger_event_id (info t') =? LWIS_EVENT_ID_NONE
      then transaction_list c' = transaction_list c
      else transaction_list c'
           = match event_list_find (transaction_list c)
                     (trigger_event_id (info t')) with
             | Some el =>
                 event_list_store (transaction_list c)
                   (trigger_event_id (info t'))
                   (event_transactions el ++ [t'])
             | None =>
                 {| event_id := trigger_event_id (info t');
                    event_transactions := [t'] |} :: transaction_list c
             end).
Proof.
  destruct (prepare_response_locked c t) as [[[ret1 t2] c2]| |] eqn:Hprep;
    cbn; try discriminate.
  destruct (prepare_response_locked_inv _ _ _ _ _ Hprep) as (Hi2 & Hc2 & _).
  destruct (Z.eqb_spec ret1 0) as [->|Hne]; cbn [negb].
  2:{ intros [= -> _ _]. now destruct Hne. }
  intros Hq.
  destruct (queue_transaction_locked_success _ _ _ _ Hq)
    as ((now & Ht') & Hcnt & _ & _ & _ & _ & _ & Hrest).
  assert (E1 : transaction_counter c2 = transaction_counter c)
    by (rewrite Hc2; reflexivity).
  assert (E2 : transaction_list c2 = transaction_list c)
    by (rewrite Hc2; reflexivity).
  assert (Hinfo : info t' = info_set_submission_timestamp_ns now (info t2))
    by (rewrite Ht'; reflexivity).
  assert (Htrig : trigger_event_id (info t') = trigger_event_id (info t2))
    by (rewrite Hinfo; reflexivity).
  rewrite E1 in Hcnt. rewrite E2 in Hrest. rewrite Htrig.
  split; [rewrite Hinfo, Hi2; reflexivity|].
  split; [rewrite Hi2; reflexivity|].
  split; [exact Hcnt|].
  destruct (_ =? _); [tauto|]. now destruct Hrest as (_ & _ & ->).
Qed.

Lemma index_wf_at_queued n tl tl' t' :
  index_wf_at n tl ->
  info_id (info t') = n ->
  (if trigger_event_id (info t') =? LWIS_EVENT_ID_NONE
   then tl' = tl
   else tl'
        = match event_list_find tl (trigger_event_id (info t')) with
          | Some el =>
              event_list_store tl (trigger_event_id (info t'))
                (event_transactions el ++ [t'])
          | None =>
              {| event_id := trigger_event_id (info t');
                 event_transactions := [t'] |} :: tl
          end) ->
  index_wf_at (n + 1) tl'.
Proof.
  intros Hwf Hid Htl.
  destruct (_ =? _); subst tl'.
  - eapply index_wf_at_sub; [exact Hwf|lia|reflexivity|reflexivity].
  - now apply index_wf_at_add.
Qed.

Lemma run_op_index_wf fuel (c : @lwis_client W) op o c' :
  run_op fuel c op = Done (o, c') ->
  index_wf c ->
  - 2 ^ 63 <= transaction_counter c ->
  transaction_counter c + 1 < 2 ^ 63 ->
  index_wf c'.
Proof.
  unfold index_wf. intros Hop Hwf Hlo Hhi.
  destruct op as [t|t|id|id ec irq| |]; cbn [run_op] in Hop.
  - destruct (lwis_transaction_submit_locked c t) as [[[r t'] c1]| |] eqn:Hs;
      cbn in Hop; try discriminate.
    injection Hop as _ <-.
    destruct (Z.eq_dec r 0) as [->|Hne].
    + destruct (lwis_transaction_submit_locked_success _ _ _ _ Hs)
        as (Hid & _ & _ & _ & _ & Hcnt & _ & _ & _ & _ & _ & Hrest).
      rewrite Hcnt, sint64_succ by lia.
      eapply index_wf_at_queued; [exact Hwf|exact Hid|].
      destruct (_ =? _); [now destruct Hrest as (_ & -> & _)|].
      now destruct Hrest as (_ & _ & ->).
    + destruct (lwis_transaction_submit_locked_failure _ _ _ _ _ Hs Hne)
        as (-> & _). exact Hwf.
  - destruct (lwis_transaction_replace_locked c t) as [[[r t'] c1]| |] eqn:Hs;
      cbn in Hop; try discriminate.
    injection Hop as _ <-.
    destruct (check_transaction_param_locked c t false)
      as [[ret0 t1] c0] eqn:Hchk.
    rewrite (lwis_transaction_replace_locked_unfold _ _ _ _ _ Hchk) in Hs.
    destruct (check_transaction_param_locked_frame _ _ _ _ _ _ Hchk)
      as (Hc0 & _).
    destruct (negb (ret0 =? 0)).
    { injection Hs as _ _ <-. rewrite Hc0. exact Hwf. }
    destruct (cancel_in_transaction_list (transaction_list c)
                (info_id (info t))) as [tl1|] eqn:Hcan.
    2:{ injection Hs as _ _ <-. rewrite Hc0. exact Hwf. }
    destruct (cancel_in_transaction_list_keys _ _ _ Hcan) as [Hk1 Hk2].
    assert (Hwf1 : index_wf_at (transaction_counter c) tl1).
    { eapply index_wf_at_sub; [exact Hwf|lia| |].
      - rewrite Hk1. reflexivity.
      - rewrite Hk2. reflexivity. }
    destruct (Z.eq_dec r 0) as [->|Hne].
    + destruct (prepare_and_queue_success _ _ _ _ Hs)
        as (Hid & _ & Hcnt & Hrest).
      assert (Ec : transaction_counter (set_transaction_list tl1 c0)
                   = transaction_counter c) by (rewrite Hc0; reflexivity).
      rewrite Ec in Hid, Hcnt.
      rewrite Hcnt, sint64_succ by lia.
      eapply index_wf_at_queued; [exact Hwf1|exact Hid|exact Hrest].
    + destruct (prepare_and_queue_inv _ _ _ _ _ Hs)
        as (_ & [(-> & _) | (_ & _ & Hl & _ & Hcnt)]); [now destruct Hne|].
      rewrite Hl, Hcnt.
      assert (Ec : transaction_counter (set_transaction_list tl1 c0)
                   = transaction_counter c) by (rewrite Hc0; reflexivity).
      rewrite Ec. exact Hwf1.
  - injection Hop as _ <-.
    unfold lwis_transaction_cancel, cancel_waiting_transaction_locked.
    cbn [transaction_list spin_lock_irqsave set_transaction_lock].
    destruct (cancel_in_transaction_list (transaction_list c) id)
      as [tl1|] eqn:Hcan; cbn; [|exact Hwf].
    destruct (cancel_in_transaction_list_keys _ _ _ Hcan) as [Hk1 Hk2].
    eapply index_wf_at_sub; [exact Hwf|lia| |].
    + rewrite Hk1. reflexivity.
    + rewrite Hk2. reflexivity.
  - destruct (lwis_transaction_event_trigger fuel c id ec (Some []) irq)
      as [[[r c1] pe]| |] eqn:Ht; cbn in Hop; try discriminate.
    injection Hop as _ <-. cbn.
    destruct (lwis_transaction_event_trigger_index _ _ _ _ _ _ _ _ _ Ht)
      as [Hs1 Hs2].
    rewrite (lwis_transaction_event_trigger_counter _ _ _ _ _ _ _ _ _ Ht).
    eapply index_wf_at_sub; [exact Hwf|lia|exact Hs1|exact Hs2].
  - destruct (transaction_work_func fuel c) as [c1| |] eqn:Hw;
      cbn in Hop; try discriminate.
    injection Hop as _ <-.
    destruct (transaction_work_func_inv _ _ _ Hw)
      as (_ & _ & _ & _ & Hl & Hc & _).
    rewrite Hl, Hc. exact Hwf.
  - destruct (lwis_transaction_client_flush fuel (Some c))
      as [[r oc]| |] eqn:Hf; cbn in Hop; try discriminate.
    injection Hop as _ <-.
    destruct (lwis_transaction_client_flush_counter _ _ _ _ Hf)
      as (c1 & -> & Hc).
    change (default c (Some c1)) with c1.
    rewrite (lwis_transaction_client_flush_index _ _ _ _ Hf), Hc.
    destruct (filter_keys_sublist is_cleanup_list (transaction_list c))
      as [Hs1 Hs2].
    eapply index_wf_at_sub; [exact Hwf|lia|exact Hs1|exact Hs2].
Qed.

Lemma run_ops_index_wf fuel ops :
  forall (c : @lwis_client W) results c',
    run_ops fuel c ops = Done (results, c') ->
    index_wf c ->
    - 2 ^ 63 <= transaction_counter c ->
    transaction_counter c + Z.of_nat (length ops) < 2 ^ 63 ->
    index_wf c'.
Proof.
  induction ops as [|op ops IH]; intros c results c'; simpl.
  - now intros [= _ <-].
  - destruct (run_op fuel c op) as [[o c1]| |] eqn:Hop; cbn; try discriminate.
    destruct (run_ops fuel c1 ops) as [[rs c2]| |] eqn:Hrest;
      cbn; try discriminate.
    intros [= _ <-] Hwf Hlo Hhi.
    pose proof (run_op_counter _ _ _ _ _ Hop) as Hc.
    assert (Hc1 : transaction_counter c1 = transaction_counter c
                  \/ transaction_counter c1 = transaction_counter c + 1).
    { destruct o as [[r t']|]; [|now left].
      destruct (r =? 0); [|now left].
      right. destruct Hc as [_ ->]. apply sint64_succ; lia. }
    eapply (IH _ _ _ Hrest).
    + eapply run_op_index_wf; [exact Hop|exact Hwf|lia|lia].
    + lia.
    + lia.
Qed.

Lemma count_waiting_keys id tl :
  count_waiting id tl
  = count_occ Z.eq_dec (map snd (waiting_keys tl)) id.
Proof.
  induction tl as [|l tl IH]; simpl; [reflexivity|].
  rewrite map_app, count_occ_app, IH. f_equal.
  induction (event_transactions l) as [|t txs IHt]; simpl; [reflexivity|].
  rewrite IHt.
  destruct (Z.eqb_spec (info_id (info t)) id) as [He|He];
    destruct (Z.eq_dec (info_id (info t)) id); try contradiction; reflexivity.
Qed.

Lemma index_wf_count_waiting (c : @lwis_client W) id :
  index_wf c -> (count_waiting id (transaction_list c) <= 1)%nat.
Proof.
  intros (_ & _ & H3). rewrite count_waiting_keys.
  apply NoDup_ListNoDup in H3.
  now apply (proj1 (NoDup_count_occ Z.eq_dec _)).
Qed.

Lemma index_wf_count_fresh (c : @lwis_client W) id :
  index_wf c -> transaction_counter c <= id ->
  count_waiting id (transaction_list c) = 0%nat.
Proof.
  intros (_ & H2 & _) Hid. rewrite count_waiting_keys.
  apply count_occ_not_In. intros Hin. apply in_map_iff in Hin.
  destruct Hin as (k & Hk & Hin).
  rewrite List.Forall_forall in H2. destruct (H2 k Hin) as [_ Hlt]. lia.
Qed.

Lemma lwis_transaction_cancel_none (c : @lwis_client W) id :
  count_waiting id (transaction_list c) = 0%nat ->
  lwis_transaction_cancel c id
  = (- ENOENT, set_transaction_lock (transaction_lock c ++ [Acquire; Release]) c).
Proof.
  intros Hcount. unfold lwis_transaction_cancel,
    cancel_waiting_transaction_locked.
  cbn [transaction_list spin_lock_irqsave set_transaction_lock].
  destruct (cancel_in_transaction_list_none _ _ Hcount) as [-> _].
  unfold spin_unlock_irqrestore, spin_lock_irqsave. cbn.
  now rewrite <- app_assoc.
Qed.

(** ** Dispatch without execution *)

Lemma set_transaction_process_queue_same (c : @lwis_client W) :
  set_transaction_process_queue (transaction_process_queue c) c = c.
Proof. now destruct c. Qed.

Lemma event_trigger_step_deferred fuel event_counter in_irq t
    (c : @lwis_client W) pending :
  deferred (lwis_dev c) t = true ->
  event_trigger_step fuel event_counter in_irq t c pending
  = Done (if passed_over event_counter t then Some t else None,
          if passed_over event_counter t then c else enqueue_process c t,
          pending).
Proof.
  unfold deferred, event_trigger_step, passed_over, EXPLICIT_EVENT_COUNTER.
  destruct (resp_error_code (resp t) =? 0); cbn [negb orb andb];
    [|reflexivity].
  destruct (trigger_event_counter (info t)
            =? LWIS_EVENT_COUNTER_EVERY_TIME); cbn [negb orb andb];
    [discriminate|].
  intros Hd.
  assert (Hinline : run_in_event_context (info t)
                    && negb (device_type_is_i2c (lwis_dev c)) = false).
  { destruct (run_in_event_context (info t)),
      (device_type_is_i2c (lwis_dev c)); try reflexivity; discriminate. }
  destruct (trigger_event_counter (info t)
            =? LWIS_EVENT_COUNTER_ON_NEXT_OCCURRENCE); cbn [negb orb andb].
  { now rewrite Hinline. }
  destruct (trigger_event_counter (info t) =? event_counter);
    cbn [negb orb andb].
  { now rewrite Hinline. }
  reflexivity.
Qed.

Lemma event_trigger_loop_deferred fuel event_counter in_irq txs :
  forall kept (c : @lwis_client W) pending,
    Forall (fun t => deferred (lwis_dev c) t = true) txs ->
    event_trigger_loop fuel event_counter in_irq txs kept c pending
    = Done (kept ++ List.filter (passed_over event_counter) txs,
            set_transaction_process_queue
              (transaction_process_queue c
               ++ List.filter (fun t => negb (passed_over event_counter t))
                    txs) c,
            pending).
Proof.
  induction txs as [|t txs IH]; intros kept c pending Hall.
  - simpl. now rewrite !app_nil_r, set_transaction_process_queue_same.
  - inversion Hall as [|? ? Ht Hrest]; subst.
    cbn [event_trigger_loop].
    rewrite (event_trigger_step_deferred _ _ _ _ _ _ Ht).
    cbn [mbind outcome_bind List.filter].
    destruct (passed_over event_counter t); cbn [negb].
    + rewrite (IH _ _ _ Hrest), <- app_assoc. reflexivity.
    + rewrite (IH _ (enqueue_process c t) _ Hrest), app_nil_r.
      unfold enqueue_process. cbn. now rewrite <- app_assoc.
Qed.

Lemma lwis_transaction_event_trigger_deferred fuel (c : @lwis_client W) id
    event_counter pending in_irq el :
  event_list_find (transaction_list c) id = Some el ->
  Forall (fun t => deferred (lwis_dev c) t = true) (event_transactions el) ->
  transaction_wq c = true ->
  exists c',
    lwis_transaction_event_trigger fuel c id event_counter pending in_irq
    = Done (0, c', pending)
    /\ transaction_process_queue c'
       = transaction_process_queue c
         ++ List.filter (fun t => negb (passed_over event_counter t))
              (event_transactions el)
    /\ event_list_find (transaction_list c') id
       = Some {| event_id := id;
                 event_transactions :=
                   List.filter (passed_over event_counter)
                     (event_transactions el) |}
    /\ lwis_dev c' = lwis_dev c
    /\ kmem c' = kmem c
    /\ emitted c' = emitted c
    /\ transaction_counter c' = transaction_counter c
    /\ debug_info c' = debug_info c
    /\ transaction_wq c' = true
    /\ (List.filter (fun t => negb (passed_over event_counter t))
          (event_transactions el) <> [] ->
        transaction_work c' = true).
Proof.
  intros Hf Hall Hwq. unfold lwis_transaction_event_trigger.
  cbn [transaction_list spin_lock_irqsave set_transaction_lock].
  rewrite Hf.
  destruct (event_transactions el) as [|t0 txs] eqn:Htx.
  - eexists. split; [reflexivity|]. cbn.
    rewrite app_nil_r. repeat split; auto.
    rewrite Hf. f_equal. pose proof (event_list_find_id _ _ _ Hf) as Hid.
    destruct el; cbn in *. congruence.
  - rewrite (event_trigger_loop_deferred fuel event_counter in_irq (t0 :: txs)
               [] (spin_lock_irqsave c) pending Hall).
    cbn [mbind outcome_bind app].
    set (moved := List.filter (fun t => negb (passed_over event_counter t))
                    (t0 :: txs)).
    set (kept := List.filter (passed_over event_counter) (t0 :: txs)).
    cbn [transaction_list transaction_process_queue spin_lock_irqsave
         set_transaction_lock set_transaction_process_queue
         set_transaction_list].
    assert (Hfind : event_list_find
                      (event_list_store (transaction_list c) id kept) id
                    = Some {| event_id := id; event_transactions := kept |})
      by (eapply event_list_find_store; exact Hf).
    destruct (transaction_process_queue c ++ moved) as [|q0 q] eqn:Hq.
    + eexists. split; [reflexivity|]. cbn.
      repeat split; auto.
      intros Hm. apply app_eq_nil in Hq. now destruct Hq.
    + unfold queue_work. cbn. rewrite Hwq.
      eexists. split; [reflexivity|]. cbn.
      repeat split; auto.
Qed.

Lemma event_list_find_mark_canceled id tl e :
  event_list_find (mark_canceled id tl) e
  = match event_list_find tl e with
    | Some el =>
        Some {| event_id := event_id el;
                event_transactions :=
                  map (cancel_mark id) (event_transactions el) |}
    | None => None
    end.
Proof.
  induction tl as [|l tl IH]; simpl; [reflexivity|].
  destruct (event_id l =? e); [reflexivity|exact IH].
Qed.

(** ** Clean-up and initialisation *)

Lemma event_list_del_store tl id txs :
  event_list_del (event_list_store tl id txs) id = event_list_del tl id.
Proof.
  induction tl as [|l tl IH]; simpl; [reflexivity|].
  destruct (Z.eqb_spec (event_id l) id) as [He|He]; simpl.
  - now rewrite Z.eqb_refl.
  - destruct (Z.eqb_spec (event_id l) id); [contradiction|]. now rewrite IH.
Qed.

Lemma event_list_find_del tl id id' :
  id' <> id ->
  event_list_find (event_list_del tl id) id' = event_list_find tl id'.
Proof.
  intros Hne. induction tl as [|l tl IH]; simpl; [reflexivity|].
  destruct (Z.eqb_spec (event_id l) id) as [He|He]; simpl.
  - destruct (Z.eqb_spec (event_id l) id'); [congruence|reflexivity].
  - now rewrite IH.
Qed.

Lemma event_list_find_del_same tl id :
  NoDup (map event_id tl) ->
  event_list_find (event_list_del tl id) id = None.
Proof.
  induction tl as [|l tl IH]; simpl; [reflexivity|].
  intros Hnd. apply NoDup_cons in Hnd. destruct Hnd as [Hnotin Hnd].
  destruct (Z.eqb_spec (event_id l) id) as [He|He]; simpl.
  - destruct (event_list_find tl id) as [el|] eqn:Hf; [|reflexivity].
    exfalso. apply Hnotin. rewrite He. clear -Hf.
    induction tl as [|l' tl IH]; simpl in *; [discriminate|].
    destruct (Z.eqb_spec (event_id l') id) as [->|]; [left|right; auto].
  - destruct (Z.eqb_spec (event_id l) id); [contradiction|]. now apply IH.
Qed.

Lemma cleanup_loop_inv fuel txs :
  forall (c c' : @lwis_client W),
    cleanup_loop fuel txs c = Done c' ->
    emitted c' = emitted c
    /\ transaction_process_queue c' = transaction_process_queue c
    /\ transaction_counter c' = transaction_counter c
    /\ transaction_wq c' = transaction_wq c
    /\ transaction_work c' = transaction_work c
    /\ event_list_del (transaction_list c') LWIS_EVENT_ID_CLIENT_CLEANUP
       = event_list_del (transaction_list c) LWIS_EVENT_ID_CLIENT_CLEANUP.
Proof.
  induction txs as [|t txs IH]; intros c c' H.
  - simpl in H. injection H as <-. now repeat split.
  - simpl in H.
    destruct (_ || _).
    + apply IH in H. cbn in H.
      rewrite event_list_del_store in H. exact H.
    + destruct (process_transaction _ _ _ _ _) as [[[r c1] pe]| |] eqn:Hp;
        try discriminate.
      cbn in H. apply IH in H.
      destruct (process_transaction_inv _ _ _ _ _ _ _ _ Hp)
        as (Hl & Hq & Hc & He & _ & Hwq & Hw & _).
      cbn in H, Hl, Hq, Hc, He, Hwq, Hw.
      rewrite Hl, Hq, Hc, He, Hwq, Hw, event_list_del_store in H. exact H.
Qed.

Lemma lwis_transaction_client_cleanup_inv fuel (c : @lwis_client W) r c' :
  lwis_transaction_client_cleanup fuel c = Done (r, c') ->
  r = 0
  /\ emitted c' = emitted c
  /\ transaction_process_queue c' = transaction_process_queue c
  /\ transaction_counter c' = transaction_counter c
  /\ transaction_work c' = transaction_work c
  /\ transaction_list c'
     = event_list_del (transaction_list c) LWIS_EVENT_ID_CLIENT_CLEANUP.
Proof.
  unfold lwis_transaction_client_cleanup.
  cbn [transaction_list spin_lock_irqsave set_transaction_lock].
  destruct (event_list_find (transaction_list c) _) as [el|] eqn:Hf.
  - destruct (cleanup_loop _ _ _) as [c1| |] eqn:Hl; try discriminate.
    cbn [mbind outcome_bind]. intros [= <- <-].
    destruct (cleanup_loop_inv _ _ _ _ Hl) as (He & Hq & Hc & _ & Hw & Hd).
    cbn in *. rewrite He, Hq, Hc, Hw. repeat split. exact Hd.
  - intros [= <- <-]. cbn. repeat split.
    clear -Hf. induction (transaction_list c) as [|l tl IH]; [reflexivity|].
    simpl in *. destruct (event_id l =? LWIS_EVENT_ID_CLIENT_CLEANUP);
      [discriminate|]. now rewrite <- IH.
Qed.

Lemma cleanup_loop_disabled fuel txs :
  forall c : @lwis_client W,
    enabled (lwis_dev c) = 0 ->
    exists c',
      cleanup_loop fuel txs c = Done c'
      /\ lwis_dev c' = lwis_dev c
      /\ debug_info c' = debug_info c
      /\ forall p,
           kmem c' !! p
           = if existsb (fun t => N.eqb (io_entries (info t)) p) txs
             then None else kmem c !! p.
Proof.
  induction txs as [|t txs IH]; intros c Hen.
  - exists c. now repeat split.
  - cbn [cleanup_loop].
    cbn [lwis_dev set_transaction_list]. rewrite Hen, Z.eqb_refl, orb_true_r.
    match goal with
    | |- context [cleanup_loop fuel txs ?c0] =>
        destruct (IH c0) as (c' & Hl & Hd & Hdb & Hk); [exact Hen|]
    end.
    exists c'. split; [exact Hl|]. split; [exact Hd|]. split; [exact Hdb|].
    intros p. rewrite Hk. cbn [existsb kmem cancel_transaction fst
      free_transaction set_kmem set_transaction_list].
    destruct (N.eqb_spec (io_entries (info t)) p) as [->|Hne]; cbn [orb].
    + rewrite lookup_delete_eq. now destruct (existsb _ txs).
    + now rewrite lookup_delete_ne by exact Hne.
Qed.

Lemma filter_cleanup_NoDup tl :
  NoDup (map event_id tl) ->
  event_list_del (List.filter is_cleanup_list tl) LWIS_EVENT_ID_CLIENT_CLEANUP
  = [].
Proof.
  induction tl as [|l tl IH]; simpl; [reflexivity|].
  intros Hnd. apply NoDup_cons in Hnd. destruct Hnd as [Hnotin Hnd].
  unfold is_cleanup_list at 1.
  destruct (Z.eqb_spec (event_id l) LWIS_EVENT_ID_CLIENT_CLEANUP) as [He|He].
  - simpl. destruct (Z.eqb_spec (event_id l) LWIS_EVENT_ID_CLIENT_CLEANUP);
      [|contradiction].
    rewrite He in Hnotin. clear -Hnotin.
    induction tl as [|l' tl IH]; simpl; [reflexivity|].
    unfold is_cleanup_list at 1.
    destruct (Z.eqb_spec (event_id l') LWIS_EVENT_ID_CLIENT_CLEANUP) as [He|He].
    + exfalso. apply Hnotin. rewrite <- He. simpl. left.
    + apply IH. intros Hin. apply Hnotin. simpl. now right.
  - now apply IH.
Qed.

Lemma queue_transaction_locked_needs_wq (c : @lwis_client W) t r t' c' :
  queue_transaction_locked c t = Done (r, t', c') ->
  trigger_event_id (info t) = LWIS_EVENT_ID_NONE ->
  transaction_wq c = true.
Proof.
  unfold queue_transaction_locked. intros H Hnone.
  rewrite Hnone, Z.eqb_refl in H.
  destruct (ktime_get_ns (lwis_dev c)) as [now w]. unfold queue_work in H.
  cbn in H. now destruct (transaction_wq c).
Qed.

Lemma queue_transaction_locked_no_wq (c : @lwis_client W) t :
  trigger_event_id (info t) = LWIS_EVENT_ID_NONE ->
  transaction_wq c = false ->
  queue_transaction_locked c t = Fault.
Proof.
  unfold queue_transaction_locked. intros Hnone Hwq.
  rewrite Hnone, Z.eqb_refl.
  destruct (ktime_get_ns (lwis_dev c)) as [now w]. unfold queue_work.
  cbn. now rewrite Hwq.
Qed.

Lemma lwis_transaction_submit_locked_needs_wq (c : @lwis_client W) t t' c' :
  lwis_transaction_submit_locked c t = Done (0, t', c') ->
  trigger_event_id (info t') = LWIS_EVENT_ID_NONE ->
  transaction_wq c = true.
Proof.
  unfold lwis_transaction_submit_locked.
  destruct (check_transaction_param_locked c t _) as [[ret0 t1] c1] eqn:Hchk.
  destruct (check_transaction_param_locked_frame _ _ _ _ _ _ Hchk)
    as (Hc1 & _).
  destruct (Z.eqb_spec ret0 0) as [->|Hne]; cbn [negb].
  2:{ intros [= -> _ _]. now destruct Hne. }
  destruct (prepare_response_locked c1 t1) as [[[ret1 t2] c2]| |] eqn:Hprep;
    cbn; try discriminate.
  destruct (prepare_response_locked_inv _ _ _ _ _ Hprep) as (Hi2 & Hc2 & _).
  destruct (Z.eqb_spec ret1 0) as [->|Hne]; cbn [negb].
  2:{ intros [= -> _ _]. now destruct Hne. }
  intros Hq Hnone.
  destruct (queue_transaction_locked_success _ _ _ _ Hq) as ((now & Ht') & _).
  assert (Htrig : trigger_event_id (info t2) = LWIS_EVENT_ID_NONE).
  { rewrite Ht' in Hnone. exact Hnone. }
  pose proof (queue_transaction_locked_needs_wq _ _ _ _ _ Hq Htrig) as Hwq.
  rewrite Hc2, Hc1 in Hwq. exact Hwq.
Qed.



Lemma flush_process_queue_wq (c : @lwis_client W) :
  transaction_wq (flush_process_queue c) = transaction_wq c.
Proof.
  unfold flush_process_queue.
  cbn [transaction_wq spin_unlock_irqrestore set_transaction_lock
       set_transaction_process_queue].
  now rewrite flush_transactions_frame.
Qed.

End Properties.

(** * The properties C1 to C10 *)





(** C1.  A transaction submitted with a trigger event and an explicit
    trigger counter: when the counter is below the event's current counter
    (0 when the event has no state), or equal to it without
    [allow_counter_eq], submit returns -ENOENT and the client is exactly as
    before (ready queue, event-trigger index and transaction counter
    included); when it is equal and [allow_counter_eq] is set, the
    validation turns the transaction into an immediate one, submit never
    answers -ENOENT, and on success the transaction is at the tail of the
    ready queue with the index unchanged. *)
Theorem lwis_transaction_submit_counter_check :
  forall (K : lwis_constants) (W : Type) (E : lwis_env W)
    (c : lwis_client) (t : lwis_transaction),
    trigger_event_id (info t) <> LWIS_EVENT_ID_NONE ->
    EXPLICIT_EVENT_COUNTER (trigger_event_counter (info t)) = true ->
    let stale :=
      Done (- ENOENT,
            set_info
              (info_set_current_trigger_event_counter (current_counter c t)
                 (info t)) t,
            c) in
    (trigger_event_counter (info t) < current_counter c t ->
     lwis_transaction_submit_locked c t = stale)
    /\ (trigger_event_counter (info t) = current_counter c t ->
        allow_counter_eq (info t) = false ->
        lwis_transaction_submit_locked c t = stale)
    /\ (trigger_event_counter (info t) = current_counter c t ->
        allow_counter_eq (info t) = true ->
        (exists ret t1 c1,
            check_transaction_param_locked c t true = (ret, t1, c1)
            /\ trigger_event_id (info t1) = LWIS_EVENT_ID_NONE
            /\ (ret = 0 \/ ret = - EINVAL))
        /\ (forall ret t' c',
              lwis_transaction_submit_locked c t = Done (ret, t', c') ->
              trigger_event_id (info t') = LWIS_EVENT_ID_NONE
              /\ ret <> - ENOENT
              /\ (ret = 0 ->
                  transaction_process_queue c'
                  = transaction_process_queue c ++ [t']
                  /\ transaction_list c' = transaction_list c
                  /\ info_id (info t') = transaction_counter c
                  /\ transaction_counter c'
                     = sint64 (transaction_counter c + 1)))
        /\ (load_io_entries (kmem c) (info t) <> None ->
            transaction_wq c = true ->
            exists ret t' c',
              lwis_transaction_submit_locked c t = Done (ret, t', c'))).
Proof.
  intros K W E c t Hid Hex stale. split; [|split].
  - intros Hlt. unfold lwis_transaction_submit_locked.
    rewrite (check_transaction_param_locked_stale c t _ Hid Hex) by auto.
    reflexivity.
  - intros Heq Hallow. unfold lwis_transaction_submit_locked.
    rewrite (check_transaction_param_locked_stale c t _ Hid Hex) by auto.
    reflexivity.
  - intros Heq Hallow.
    destruct (check_transaction_param_locked_convert c t Hid Hex Heq)
      as (ret0 & w & Hchk & Hret0).
    split; [|split].
    + do 3 eexists. split; [exact Hchk|]. split; [reflexivity|exact Hret0].
    + intros ret t' c'. unfold lwis_transaction_submit_locked.
      rewrite Hallow, Hchk.
      destruct Hret0 as [-> | ->]; cbn [Z.eqb negb ENOENT EINVAL Z.opp Pos.eqb].
      * destruct (prepare_response_locked (set_lwis_dev w c) _)
          as [[[ret2 t2] c2]| |] eqn:Hprep; cbn; try discriminate.
        destruct (prepare_response_locked_inv _ _ _ _ _ Hprep)
          as (Hinfo & Hc2 & Hres).
        destruct Hres as [(-> & _ & _) | (-> & _)]; cbn.
        -- intros Hq.
           apply queue_transaction_locked_immediate_inv in Hq;
             [|rewrite Hinfo; reflexivity].
           destruct Hq as (-> & Hqid & Hnone & Hqueue & Hlist & Hcnt).
           split; [exact Hnone|].
           split; [intros H; vm_compute in H; discriminate H|]. intros _.
           rewrite Hqueue, Hlist, Hcnt, Hqid, Hinfo, Hc2. repeat split.
        -- intros [= <- <- <-]. rewrite Hinfo. split; [reflexivity|].
           split; intros H; vm_compute in H; discriminate H.
      * intros [= <- <- <-]. split; [reflexivity|].
        split; intros H; vm_compute in H; discriminate H.
    + intros Hload Hwq. unfold lwis_transaction_submit_locked.
      rewrite Hallow, Hchk.
      destruct Hret0 as [-> | ->]; cbn [Z.eqb negb ENOENT EINVAL Z.opp Pos.eqb];
        [|do 3 eexists; reflexivity].
      pose proof (prepare_response_locked_done (set_lwis_dev w c)
        (set_info
           (info_set_trigger_event_id LWIS_EVENT_ID_NONE
              (info_set_current_trigger_event_counter (current_counter c t)
                 (info t))) t)) as Hdone.
      change (load_io_entries (kmem (set_lwis_dev w c)) _)
        with (load_io_entries (kmem c) (info t)) in Hdone.
      destruct (load_io_entries (kmem c) (info t)); [|congruence].
      destruct (prepare_response_locked (set_lwis_dev w c) _)
        as [[[ret2 t2] c2]| |] eqn:Hprep; try discriminate. cbn.
      destruct (prepare_response_locked_inv _ _ _ _ _ Hprep)
        as (Hinfo & Hc2 & Hres).
      destruct Hres as [(-> & _ & _) | (-> & _)]; cbn;
        [|do 3 eexists; reflexivity].
      destruct (queue_transaction_locked_immediate c2 t2)
        as (t' & c' & Hq & _); [rewrite Hinfo; reflexivity| |].
      * rewrite Hc2. exact Hwq.
      * do 3 eexists. exact Hq.
Qed.

(** C1 on the simulated device, event 5 at occurrence 3: trigger counters 1
    and 3, the latter without and with [allow_counter_eq]. *)
Lemma lwis_transaction_submit_counter_check_witness :
  (exists t',
      @lwis_transaction_submit_locked sample_constants sim_world sim_env
        sim_client_event5 (mk_transaction 5 1 0 7%N false false)
      = Done (- ENOENT, t', sim_client_event5))
  /\ (exists t',
         @lwis_transaction_submit_locked sample_constants sim_world sim_env
           sim_client_event5 (mk_transaction 5 3 0 7%N false false)
         = Done (- ENOENT, t', sim_client_event5))
  /\ (exists ret t' c',
         @lwis_transaction_submit_locked sample_constants sim_world sim_env
           sim_client_event5 (mk_transaction 5 3 0 7%N false true)
         = Done (ret, t', c')).
Proof.
  split; [|split].
  - eexists.
    apply (proj1 (lwis_transaction_submit_counter_check sample_constants
                    sim_world sim_env sim_client_event5
                    (mk_transaction 5 1 0 7%N false false)
                    ltac:(vm_compute; discriminate) eq_refl)).
    vm_compute. reflexivity.
  - eexists.
    apply (proj1 (proj2 (lwis_transaction_submit_counter_check
                           sample_constants sim_world sim_env
                           sim_client_event5
                           (mk_transaction 5 3 0 7%N false false)
                           ltac:(vm_compute; discriminate) eq_refl)));
      reflexivity.
  - apply (proj2 (proj2 (lwis_transaction_submit_counter_check
                           sample_constants sim_world sim_env
                           sim_client_event5
                           (mk_transaction 5 3 0 7%N false true)
                           ltac:(vm_compute; discriminate) eq_refl)));
      [reflexivity | reflexivity | vm_compute; discriminate | reflexivity].
Defined.

(** C6 as the specification states it fails: on a client whose only waiting
    transaction has id 7, the second cancel of id 7 answers 0, not
    -ENOENT. *)
Lemma cancel_twice_counterexample :
  ~ cancel_twice_as_stated (sim_client_waiting [sim_waiting 7]) 7.
Proof.
  unfold cancel_twice_as_stated. intros H.
  destruct (H eq_refl) as [_ H2]. vm_compute in H2. discriminate H2.
Qed.

(** C6, amended.  With exactly one waiting transaction of id [id], cancel
    returns 0 and marks that transaction -ECANCELED where it stands: the
    index keeps its lists and their order.  A second cancel, made before
    the transaction is drained or triggered, returns 0 again and leaves
    the index as the first one left it. *)
Theorem lwis_transaction_cancel_marks_in_place :
  forall (W : Type) (c : @lwis_client W) (id : Z),
    count_waiting id (transaction_list c) = 1%nat ->
    exists c1 c2,
      lwis_transaction_cancel c id = (0, c1)
      /\ transaction_list c1 = mark_canceled id (transaction_list c)
      /\ transaction_process_queue c1 = transaction_process_queue c
      /\ count_waiting id (transaction_list c1) = 1%nat
      /\ lwis_transaction_cancel c1 id = (0, c2)
      /\ transaction_list c2 = transaction_list c1
      /\ transaction_process_queue c2 = transaction_process_queue c.
Proof.
  intros W c id Hone.
  unfold lwis_transaction_cancel, cancel_waiting_transaction_locked.
  cbn [transaction_list spin_lock_irqsave set_transaction_lock].
  rewrite (cancel_in_transaction_list_one _ _ Hone).
  do 2 eexists. split; [reflexivity|]. cbn.
  rewrite count_waiting_mark.
  rewrite (cancel_in_transaction_list_one id (mark_canceled id _))
    by (now rewrite count_waiting_mark).
  rewrite mark_canceled_idem. repeat split; auto.
Qed.

(** C6 on the simulated device: ids 3 and 7 wait on event 5, id 7 is
    cancelled twice. *)
Lemma lwis_transaction_cancel_marks_in_place_witness :
  exists c1 c2,
    lwis_transaction_cancel (sim_client_waiting [sim_waiting 3; sim_waiting 7]) 7
    = (0, c1)
    /\ transaction_list c1
       = [{| event_id := 5;
             event_transactions :=
               [sim_waiting 3;
                set_resp (resp_set_error_code (- ECANCELED) blank_resp)
                  (sim_waiting 7)] |}]
    /\ lwis_transaction_cancel c1 7 = (0, c2).
Proof.
  destruct (lwis_transaction_cancel_marks_in_place sim_world
              (sim_client_waiting [sim_waiting 3; sim_waiting 7]) 7 eq_refl)
    as (c1 & c2 & H1 & Hl & _ & _ & H2 & _).
  exists c1, c2. split; [exact H1|]. split; [|exact H2].
  rewrite Hl. reflexivity.
Defined.

(** C8 as the specification states it fails: the trigger counter equals the event's
    counter and [allow_counter_eq] is set, so submit's validation accepts
    the transaction, and a waiting transaction with its id exists; replace
    still answers -ENOENT, because it validates with counter-equality
    disallowed. *)
Lemma replace_counterexample :
  ~ @replace_as_stated sample_constants sim_world sim_env sim_client_replace
      (mk_transaction 5 3 0 7%N false true).
Proof.
  unfold replace_as_stated. vm_compute.
  intros (r & t' & c' & [= <- _ _] & Hne). now apply Hne.
Qed.

(** C8, amended.  Replace runs the validation of submit with
    counter-equality never allowed (an explicit trigger counter at or below
    the event's counter is answered -ENOENT whatever [allow_counter_eq]
    says) and returns its error.  After a successful validation it answers
    -ENOENT, with index, queue and counter untouched, when no waiting
    transaction has the submitted id; otherwise the first waiting
    transaction with that id is marked -ECANCELED in place, and the
    response is prepared and the transaction queued as in submit.  Replace
    itself never takes or releases the transaction lock. *)
Theorem lwis_transaction_replace_locked_spec :
  forall (K : lwis_constants) (W : Type) (E : lwis_env W)
    (c : lwis_client) (t : lwis_transaction) ret t1 c1,
    check_transaction_param_locked c t false = (ret, t1, c1) ->
    let id := info_id (info t) in
    (trigger_event_id (info t) <> LWIS_EVENT_ID_NONE ->
     EXPLICIT_EVENT_COUNTER (trigger_event_counter (info t)) = true ->
     trigger_event_counter (info t) <= current_counter c t ->
     ret = - ENOENT)
    /\ (ret <> 0 -> lwis_transaction_replace_locked c t = Done (ret, t1, c1))
    /\ (ret = 0 -> count_waiting id (transaction_list c) = 0%nat ->
        lwis_transaction_replace_locked c t = Done (- ENOENT, t1, c1)
        /\ transaction_list c1 = transaction_list c
        /\ transaction_process_queue c1 = transaction_process_queue c
        /\ transaction_counter c1 = transaction_counter c)
    /\ (ret = 0 -> (0 < count_waiting id (transaction_list c))%nat ->
        exists tl1,
          cancel_in_transaction_list (transaction_list c) id = Some tl1
          /\ map event_id tl1 = map event_id (transaction_list c)
          /\ (count_waiting id (transaction_list c) = 1%nat ->
              tl1 = mark_canceled id (transaction_list c))
          /\ (forall r t' c',
                lwis_transaction_replace_locked c t = Done (r, t', c') ->
                (r = 0
                 /\ info_id (info t') = transaction_counter c
                 /\ transaction_counter c'
                    = sint64 (transaction_counter c + 1)
                 /\ (if trigger_event_id (info t1) =? LWIS_EVENT_ID_NONE
                     then transaction_process_queue c'
                          = transaction_process_queue c ++ [t']
                          /\ transaction_list c' = tl1
                     else transaction_process_queue c'
                          = transaction_process_queue c
                          /\ event_list_find (transaction_list c')
                               (trigger_event_id (info t1))
                             = Some
                                 {| event_id := trigger_event_id (info t1);
                                    event_transactions :=
                                      match event_list_find tl1
                                              (trigger_event_id (info t1)) with
                                      | Some el => event_transactions el
                                      | None => []
                                      end ++ [t'] |}))
                \/ (r <> 0 /\ r <> - ENOENT
                    /\ transaction_list c' = tl1
                    /\ transaction_process_queue c'
                       = transaction_process_queue c
                    /\ transaction_counter c' = transaction_counter c))
          /\ (load_io_entries (kmem c) (info t) <> None ->
              transaction_wq c = true ->
              exists r t' c',
                lwis_transaction_replace_locked c t = Done (r, t', c')))
    /\ (forall r t' c',
          lwis_transaction_replace_locked c t = Done (r, t', c') ->
          transaction_lock c' = transaction_lock c).
Proof.
  intros K W E c t ret t1 c1 Hchk id. subst id.
  destruct (check_transaction_param_locked_frame _ _ _ _ _ _ Hchk)
    as (Hc1 & _ & Hid & Hnum & Hio & _).
  pose proof (lwis_transaction_replace_locked_unfold c t _ _ _ Hchk) as HR.
  assert (Hload : load_io_entries (kmem c) (info t1)
                  = load_io_entries (kmem c) (info t))
    by (unfold load_io_entries; now rewrite Hnum, Hio).
  split; [|split; [|split; [|split]]].
  - intros Htrig Hex Hle.
    rewrite (check_transaction_param_locked_stale c t false Htrig Hex) in Hchk
      by (destruct (Z.eq_dec (trigger_event_counter (info t))
                      (current_counter c t)); [right; auto|left; lia]).
    now injection Hchk as <- _ _.
  - intros Hne%Z.eqb_neq. rewrite HR, Hne. reflexivity.
  - intros -> Hcount. rewrite HR. cbn [Z.eqb negb].
    destruct (cancel_in_transaction_list_none _ _ Hcount) as [-> _].
    rewrite Hc1. now repeat split.
  - intros -> Hcount. cbn [Z.eqb negb] in HR.
    destruct (cancel_in_transaction_list_some _ _ Hcount) as (tl1 & Hcancel & Hids).
    rewrite Hcancel in HR.
    exists tl1. split; [exact Hcancel|]. split; [exact Hids|].
    split; [|split].
    + intros Hone.
      rewrite (cancel_in_transaction_list_one _ _ Hone) in Hcancel. congruence.
    + intros r t' c'. rewrite HR. intros Hq.
      destruct (prepare_and_queue_inv _ _ _ _ _ Hq) as (_ & Hcases).
      cbn [transaction_counter transaction_process_queue transaction_list
           set_transaction_list] in Hcases.
      rewrite Hc1 in Hcases.
      cbn [transaction_counter transaction_process_queue set_lwis_dev] in Hcases.
      exact Hcases.
    + intros Hl Hwq. rewrite HR. apply prepare_and_queue_done.
      * cbn [kmem set_transaction_list]. rewrite Hc1. cbn [kmem set_lwis_dev].
        now rewrite Hload.
      * cbn [transaction_wq set_transaction_list]. rewrite Hc1. exact Hwq.
  - intros r t' c'. rewrite HR.
    destruct (negb (ret =? 0)); [intros [= _ _ <-]; now rewrite Hc1|].
    destruct (cancel_in_transaction_list (transaction_list c) _) as [tl1|];
      [|intros [= _ _ <-]; now rewrite Hc1].
    intros Hq. destruct (prepare_and_queue_inv _ _ _ _ _ Hq) as (Hlock & _).
    rewrite Hlock. cbn [transaction_lock set_transaction_list].
    now rewrite Hc1.
Qed.

(** C8 on the simulated device: a replace whose trigger counter equals the
    event's counter, and one that goes through. *)
Lemma lwis_transaction_replace_locked_spec_witness :
  (exists t1 c1,
      @lwis_transaction_replace_locked sample_constants sim_world sim_env
        sim_client_replace (mk_transaction 5 3 0 7%N false true)
      = Done (- ENOENT, t1, c1))
  /\ (exists t' c',
         @lwis_transaction_replace_locked sample_constants sim_world sim_env
           sim_client_replace (mk_transaction 5 4 0 7%N false true)
         = Done (0, t', c')
         /\ transaction_counter c' = 1).
Proof.
  split.
  - do 2 eexists.
    apply (proj1 (proj2 (lwis_transaction_replace_locked_spec
                           sample_constants sim_world sim_env
                           sim_client_replace
                           (mk_transaction 5 3 0 7%N false true)
                           _ _ _ eq_refl))).
    vm_compute. discriminate.
  - destruct (proj1 (proj2 (proj2 (proj2
                (lwis_transaction_replace_locked_spec
                   sample_constants sim_world sim_env sim_client_replace
                   (mk_transaction 5 4 0 7%N false true) _ _ _ eq_refl))))
                eq_refl ltac:(vm_compute; lia))
      as (tl1 & _ & _ & _ & Hinv & Hdone).
    destruct Hdone as (r & t' & c' & Hrep);
      [vm_compute; discriminate | reflexivity |].
    destruct (Hinv r t' c' Hrep) as [(-> & _ & Hcnt & _) | (Hr & _)].
    + exists t', c'. split; [exact Hrep|]. rewrite Hcnt. reflexivity.
    + exfalso. vm_compute in Hrep. injection Hrep as <- _ _. now apply Hr.
Defined.

(** C10.  During event-trigger dispatch a waiting transaction with error
    code zero and an explicit trigger counter other than the occurrence
    count is passed over: its iteration returns it and leaves the client
    and the pending events exactly as they were (nothing is executed or
    queued).  After a whole dispatch the passed-over transactions are still
    in the event list, unmodified and in their order (what is left of the
    list is a sublist of it), and none of them is among the records added
    to the process queue.  When the list holds only such transactions and
    the process queue is empty, the dispatch returns 0 and changes nothing
    but the lock history. *)
Theorem lwis_transaction_event_trigger_passes_over :
  (forall (K : lwis_constants) (W : Type) (E : lwis_env W) fuel event_counter
      in_irq t (c : lwis_client) pending,
      passed_over event_counter t = true ->
      event_trigger_step fuel event_counter in_irq t c pending
      = Done (Some t, c, pending))
  /\ (forall (K : lwis_constants) (W : Type) (E : lwis_env W) fuel
        (c : lwis_client) id event_counter pending in_irq ret c' pending' el,
        lwis_transaction_event_trigger fuel c id event_counter pending in_irq
        = Done (ret, c', pending') ->
        event_list_find (transaction_list c) id = Some el ->
        exists kept added,
          event_list_find (transaction_list c') id
          = Some {| event_id := id; event_transactions := kept |}
          /\ sublist kept (event_transactions el)
          /\ List.filter (passed_over event_counter) kept
             = List.filter (passed_over event_counter) (event_transactions el)
          /\ transaction_process_queue c'
             = transaction_process_queue c ++ added
          /\ Forall (fun x => passed_over event_counter x = false) added)
  /\ (forall (K : lwis_constants) (W : Type) (E : lwis_env W) fuel
        (c : lwis_client) id event_counter pending in_irq el,
        event_list_find (transaction_list c) id = Some el ->
        Forall (fun t => passed_over event_counter t = true)
          (event_transactions el) ->
        transaction_process_queue c = [] ->
        lwis_transaction_event_trigger fuel c id event_counter pending in_irq
        = Done (0,
                set_transaction_lock
                  (transaction_lock c ++ [Acquire; Release]) c,
                pending)).
Proof.
  split; [|split].
  - intros K W E fuel event_counter in_irq t c pending.
    apply event_trigger_step_passed_over.
  - intros K W E fuel c id event_counter pending in_irq ret c' pending' el
      Htrig Hfind.
    unfold lwis_transaction_event_trigger in Htrig.
    cbn [transaction_list spin_lock_irqsave set_transaction_lock] in Htrig.
    rewrite Hfind in Htrig.
    pose proof (event_list_find_id _ _ _ Hfind) as Hid.
    destruct (event_transactions el) as [|t0 txs] eqn:Htxs.
    + injection Htrig as <- <- <-. exists [], [].
      cbn. rewrite Hfind, app_nil_r. repeat split; auto; try constructor.
      rewrite <- Hid, <- Htxs. now destruct el.
    + destruct (event_trigger_loop fuel event_counter in_irq (t0 :: txs) []
                  _ pending) as [[[kept c1] pe1]| |] eqn:Hloop;
        cbn in Htrig; try discriminate.
      destruct (event_trigger_loop_inv _ _ _ _ _ _ _ _ _ _ Hloop)
        as (stay & added & -> & Hsub & Hfil & Hq & Hadd & Hl & _).
      cbn in Hq, Hl. exists stay, added.
      assert (Hfind' :
        event_list_find (event_list_store (transaction_list c1) id stay) id
        = Some {| event_id := id; event_transactions := stay |})
        by (rewrite Hl; now apply (event_list_find_store _ _ el)).
      destruct (transaction_process_queue c1) as [|q0 q] eqn:Hq1;
        cbn in Htrig.
      * injection Htrig as <- <- <-. cbn. rewrite Hfind'.
        split; [reflexivity|]. split; [exact Hsub|]. split; [exact Hfil|].
        split; [rewrite Hq1; exact Hq|exact Hadd].
      * unfold queue_work in Htrig. cbn in Htrig.
        destruct (transaction_wq c1); cbn in Htrig; [|discriminate].
        injection Htrig as <- <- <-. cbn. rewrite Hfind'.
        split; [reflexivity|]. split; [exact Hsub|]. split; [exact Hfil|].
        split; [rewrite Hq1; exact Hq|exact Hadd].
  - intros K W E fuel c id event_counter pending in_irq el Hfind Hall Hqueue.
    unfold lwis_transaction_event_trigger.
    cbn [transaction_list spin_lock_irqsave set_transaction_lock].
    rewrite Hfind.
    destruct (event_transactions el) as [|t0 txs] eqn:Htxs.
    + unfold spin_unlock_irqrestore. cbn. now rewrite <- app_assoc.
    + rewrite (event_trigger_loop_passed_over _ _ _ _ _ _ _ Hall). cbn.
      rewrite <- Htxs, (event_list_store_same _ _ _ Hfind), Hqueue. cbn.
      unfold spin_unlock_irqrestore. cbn. now rewrite <- app_assoc.
Qed.

(** C10 on the simulated device: occurrence 4 of event 5 passes over the
    transaction that waits for occurrence 9. *)
Lemma lwis_transaction_event_trigger_passes_over_witness :
  exists c',
    @lwis_transaction_event_trigger sample_constants sim_world sim_env 0
      sim_client_two_waiting 5 4 (Some []) false
    = Done (0, c', Some [])
    /\ transaction_list c'
       = [{| event_id := 5;
             event_transactions := [mk_transaction 5 9 0 7%N false false] |}]
    /\ transaction_process_queue c' = [sim_waiting 1].
Proof.
  eexists. split; [vm_compute; reflexivity|].
  destruct (proj1 (proj2 lwis_transaction_event_trigger_passes_over)
              sample_constants sim_world sim_env 0%nat
              sim_client_two_waiting 5 4 (Some []) false _ _ _ _
              ltac:(vm_compute; reflexivity) eq_refl)
    as (kept & added & Hfind & _ & Hfil & Hq & _).
  split; reflexivity.
Defined.


(** What flush does with a queued transaction: on the simulated device
    the queued round-trip transaction is not cancelled but executed by the
    drained worker, and its success event (error code 0) is emitted. *)
Lemma flush_executes_queued :
  exists c' ev,
    @lwis_transaction_client_flush sample_constants sim_world sim_env 0
      (Some sim_client_flush) = Done (0, Some c')
    /\ emitted c' = [ev]
    /\ pe_event_id ev = 100
    /\ resp_error_code (pe_payload ev) = 0
    /\ sim_regs (lwis_dev c') !! (0, 16) = Some 5.
Proof. do 2 eexists. split; [vm_compute; reflexivity|]. repeat split. Qed.





(** C9.  A submission that returns either succeeded, in which case the
    transaction (and its response) carries the value the client's counter
    had and the counter has advanced by one, or failed and left the
    counter alone; with its entries in memory and a workqueue, a
    submission does return.  Along any run of client operations (submit,
    replace, cancel, event trigger, worker, flush) that returns, as long
    as the 64-bit counter does not wrap, the ids given to the successfully
    queued transactions are the consecutive values from the initial
    counter on: a strictly increasing sequence, whose length is what the
    counter has advanced by. *)
Theorem transaction_ids_strictly_increasing :
  forall (K : lwis_constants) (W : Type) (E : lwis_env W),
    (forall (c : lwis_client) t ret t' c',
        lwis_transaction_submit_locked c t = Done (ret, t', c') ->
        (ret = 0
         /\ info_id (info t') = transaction_counter c
         /\ resp_id (resp t') = transaction_counter c
         /\ transaction_counter c' = sint64 (transaction_counter c + 1))
        \/ (ret <> 0 /\ transaction_counter c' = transaction_counter c))
    /\ (forall (c : lwis_client) t,
          load_io_entries (kmem c) (info t) <> None ->
          transaction_wq c = true ->
          exists ret t' c',
            lwis_transaction_submit_locked c t = Done (ret, t', c'))
    /\ (forall fuel ops (c : lwis_client) results c',
          run_ops fuel c ops = Done (results, c') ->
          - 2 ^ 63 <= transaction_counter c ->
          transaction_counter c + Z.of_nat (length ops) < 2 ^ 63 ->
          assigned_ids results
          = consecutive (transaction_counter c)
              (length (assigned_ids results))
          /\ StronglySorted Z.lt (assigned_ids results)
          /\ transaction_counter c'
             = transaction_counter c
               + Z.of_nat (length (assigned_ids results))).
Proof.
  intros K W E. split; [|split].
  - intros c t ret t' c'. apply lwis_transaction_submit_locked_inv.
  - intros c t. apply lwis_transaction_submit_locked_done.
  - intros fuel ops c results c' Hrun Hlo Hhi.
    destruct (run_ops_ids _ _ _ _ _ Hrun Hlo Hhi) as (Hids & Hc & _).
    split; [exact Hids|]. split; [|exact Hc].
    rewrite Hids. apply consecutive_sorted.
Qed.

(** C9 on the simulated device: the run [sim_ops]. *)
Lemma transaction_ids_strictly_increasing_witness :
  exists results c',
    @run_ops sample_constants sim_world sim_env 0 sim_client_event5 sim_ops
    = Done (results, c')
    /\ map fst results = [0; - ENOENT; 0; 0]
    /\ assigned_ids results = [0; 1; 2]
    /\ transaction_counter c' = 3.
Proof.
  destruct (@run_ops sample_constants sim_world sim_env 0 sim_client_event5
              sim_ops) as [[results c']| |] eqn:Hrun;
    try (vm_compute in Hrun; discriminate).
  destruct (proj2 (proj2 (transaction_ids_strictly_increasing
                            sample_constants sim_world sim_env))
              0%nat sim_ops sim_client_event5 results c' Hrun
              ltac:(vm_compute; discriminate) ltac:(vm_compute; reflexivity))
    as (Hids & _ & Hc).
  exists results, c'. split; [reflexivity|].
  vm_compute in Hrun. injection Hrun as <- <-.
  repeat split.
Defined.

(** The offset of a poll entry never takes the bias: after a SetBias of 4
    the poll of register 0x10 still reads register 0x10. *)
Lemma poll_offset_not_biased :
  forall p bias,
    @lwis_entry_bias (LWIS_IO_ENTRY_POLL p) bias = LWIS_IO_ENTRY_POLL p.
Proof. reflexivity. Qed.

(** On the simulated device with 3 in register 0x10 and 0 in register
    0x14, the pass [SetBias 4; Poll(0x10, expected 3, mask 0xFF)] succeeds
    at once: the poll reads register 0x10, not 0x14. *)
Lemma poll_after_bias_reads_unbiased_offset :
  exists s,
    @process_entries sim_world sim_env 1 false 4
      [LWIS_IO_ENTRY_BIAS {| set_bias_bias := 4 |};
       LWIS_IO_ENTRY_POLL example_poll]
      (loop_init
         (sim_with_regs {[ (0, 16) := 3; (0, 20) := 0 ]} sim_world0)
         blank_resp)
    = Done (false, s, [])
    /\ ls_bias s = 4
    /\ resp_error_code (ls_resp s) = 0
    /\ resp_completion_index (ls_resp s) = 1
    /\ sim_now_ms (ls_dev s) = 0.
Proof. eexists. split; [vm_compute; reflexivity|]. repeat split. Qed.

(** C7, the code at the failing input.  The repeating transaction
    [SetBias 4; Write(0x10, 5)] fires twice on the simulated device.  The
    first firing writes register 0x14 and leaves offset 0x14 in the shared
    entry; the second firing starts with bias 0 again, but adds 4 to the
    stored 0x14 and writes register 0x18: the bias of the first pass has
    persisted into the second. *)
Theorem bias_persists_across_firings :
  exists c1 c2 ev1 ev2,
    @lwis_transaction_event_trigger sample_constants sim_world sim_env 0
      sim_client_bias 5 1 (Some []) false = Done (0, c1, Some [ev1])
    /\ kmem c1 !! 7%N
       = Some [LWIS_IO_ENTRY_BIAS {| set_bias_bias := 4 |};
               LWIS_IO_ENTRY_WRITE
                 {| rw_bid := 0; rw_offset := 20; rw_val := 5 |}]
    /\ sim_regs (lwis_dev c1) = {[ (0, 20) := 5 ]}
    /\ resp_error_code (pe_payload ev1) = 0
    /\ @lwis_transaction_event_trigger sample_constants sim_world sim_env 0
         c1 5 2 (Some [ev1]) false = Done (0, c2, Some [ev1; ev2])
    /\ kmem c2 !! 7%N
       = Some [LWIS_IO_ENTRY_BIAS {| set_bias_bias := 4 |};
               LWIS_IO_ENTRY_WRITE
                 {| rw_bid := 0; rw_offset := 24; rw_val := 5 |}]
    /\ sim_regs (lwis_dev c2) !! (0, 24) = Some 5
    /\ resp_error_code (pe_payload ev2) = 0
    /\ event_list_find (transaction_list c2) 5
       = Some {| event_id := 5;
                 event_transactions := [sim_repeating true] |}.
Proof.
  do 4 eexists.
  split; [vm_compute; reflexivity|].
  split; [vm_compute; reflexivity|].
  split; [vm_compute; reflexivity|].
  split; [reflexivity|].
  split; [vm_compute; reflexivity|].
  split; [vm_compute; reflexivity|].
  split; [vm_compute; reflexivity|].
  split; reflexivity.
Qed.

(** * Further properties *)

(** X1.  A submission that fails leaves no trace in the client: index,
    ready queue, counter, memory, pending work and emitted events are as
    before; only the environment (event states created by the validation,
    the allocator) may have moved.  The only failure codes are -ENOENT,
    -EINVAL and -ENOMEM. *)
Theorem lwis_transaction_submit_locked_failure_atomic :
  forall (K : lwis_constants) (W : Type) (E : lwis_env W)
    (c : lwis_client) t ret t' c',
    lwis_transaction_submit_locked c t = Done (ret, t', c') ->
    ret <> 0 ->
    c' = set_lwis_dev (lwis_dev c') c
    /\ transaction_list c' = transaction_list c
    /\ transaction_process_queue c' = transaction_process_queue c
    /\ transaction_counter c' = transaction_counter c
    /\ kmem c' = kmem c
    /\ transaction_work c' = transaction_work c
    /\ emitted c' = emitted c
    /\ (ret = - ENOENT \/ ret = - EINVAL \/ ret = - ENOMEM).
Proof.
  intros K W E c t ret t' c' Hs Hne.
  destruct (lwis_transaction_submit_locked_failure _ _ _ _ _ Hs Hne)
    as (Hc' & Hret).
  split; [exact Hc'|]. rewrite Hc'. now repeat split.
Qed.

(** X1 on the simulated device: the allocation of the response fails. *)
Lemma lwis_transaction_submit_locked_failure_atomic_witness :
  exists t' c',
    @lwis_transaction_submit_locked sample_constants sim_world sim_env
      (@set_lwis_dev sim_world (sim_with_alloc [false] sim_world0)
         (sim_client_with (roundtrip_entries 0 0)))
      (sim_immediate 2)
    = Done (- ENOMEM, t', c')
    /\ transaction_process_queue c' = []
    /\ transaction_counter c' = 0.
Proof.
  do 2 eexists. split; [vm_compute; reflexivity|].
  destruct (lwis_transaction_submit_locked_failure_atomic sample_constants
              sim_world sim_env
              (@set_lwis_dev sim_world (sim_with_alloc [false] sim_world0)
                 (sim_client_with (roundtrip_entries 0 0)))
              (sim_immediate 2) _ _ _ ltac:(vm_compute; reflexivity)
              ltac:(vm_compute; discriminate))
    as (_ & _ & Hq & Hc & _).
  split; [exact Hq|exact Hc].
Defined.

(** X2.  The response never outgrows the buffer that submit sized for it.
    When [prepare_response_locked] has prepared a transaction, and the
    entries array and the native register width are at execution what
    they were at submission, the response that [process_transaction]
    emits holds at most [num_entries] results; when it reports no error
    it holds exactly [num_entries] results, and their headers and register
    data add up (modulo 2^64) to [results_size_bytes]. *)
Theorem process_transaction_fills_prepared_response :
  forall (K : lwis_constants) (W : Type) (E : lwis_env W) fuel
    (c c2 : lwis_client) t t' c1 pe in_irq ret c3 pending',
    prepare_response_locked c t = Done (0, t', c1) ->
    load_io_entries (kmem c2) (info t') = load_io_entries (kmem c) (info t) ->
    native_value_bitwidth (lwis_dev c2) = native_value_bitwidth (lwis_dev c) ->
    process_transaction fuel c2 t' (Some pe) in_irq
    = Done (ret, c3, pending') ->
    exists ev,
      pending' = Some (pe ++ [ev])
      /\ Z.of_nat (length (resp_results (pe_payload ev)))
         <= resp_num_entries (resp t')
      /\ (resp_error_code (pe_payload ev) = 0 ->
          Z.of_nat (length (resp_results (pe_payload ev)))
          = resp_num_entries (resp t')
          /\ wrap64 (resp_num_entries (resp t') * sizeof_lwis_io_result
                     + results_bytes (resp_results (pe_payload ev)))
             = resp_results_size_bytes (resp t')).
Proof.
  intros K W E fuel c c2 t t' c1 pe in_irq ret c3 pending' Hprep Hload Hbw
    Hrun.
  destruct (process_transaction_done_inv _ _ _ _ _ _ _ _ Hrun)
    as (es & stop & s & u & Hes & Hpe).
  destruct (process_transaction_run fuel c2 _ (Some pe) in_irq es stop s u
              Hes Hpe) as (c' & Hrun' & _).
  rewrite Hrun in Hrun'. injection Hrun' as _ _ ->.
  eexists. split; [reflexivity|]. cbn [pe_payload].
  destruct (process_entries_results _ _ _ _ _ _ _ _ Hpe)
    as (visited & rs & Hvis & Hu & Hres & Hmap).
  assert (Hstop : resp_error_code (ls_resp s) = 0 -> stop = false).
  { intros Herr. destruct stop; [|reflexivity].
    now destruct (process_entries_stopped _ _ _ _ _ _ _ Hpe eq_refl). }
  rewrite Hload in Hes. rewrite Hbw in Hmap. clear Hpe Hrun Hload.
  unfold prepare_response_locked in Hprep.
  rewrite load_io_entries_set_id, Hes in Hprep.
  destruct (scan_read_entries _ es 0 0) as [size n] eqn:Hscan.
  destruct (kzalloc (lwis_dev c) _) as [[|] w]; cbn [negb] in Hprep;
    [|vm_compute in Hprep; discriminate].
  injection Hprep as <- <-.
  cbn [info resp resp_num_entries resp_results_size_bytes loop_init ls_resp
       resp_set_completion_index resp_results] in *.
  destruct (scan_read_entries_total _ _ _ _ _ _ Hscan eq_refl) as [Hn Hsize].
  rewrite Z.add_0_l in Hn, Hsize.
  rewrite app_nil_l in Hres. rewrite Hres.
  assert (Hlen : length rs
                 = length (omap (entry_result_bytes
                                   (Z.quot (native_value_bitwidth
                                              (lwis_dev c)) 8)) visited)).
  { rewrite <- Hmap. now rewrite length_map. }
  split.
  - rewrite Hn, Hvis, omap_app, length_app, Hlen. lia.
  - intros Herr. rewrite (Hu (Hstop Herr)), app_nil_r in Hvis. subst visited.
    split; [rewrite Hn, Hlen; reflexivity|].
    unfold results_bytes. rewrite Hmap, Hsize, Hn.
    now rewrite wrap64_add_r.
Qed.

(** X2 on the simulated device: the round trip has one read entry, and
    its response holds one result of four bytes. *)
Lemma process_transaction_fills_prepared_response_witness :
  exists t' c1 ret c3 ev,
    @prepare_response_locked sample_constants sim_world sim_env
      (sim_client_with (roundtrip_entries 0 0)) (sim_immediate 2)
    = Done (0, t', c1)
    /\ @process_transaction sample_constants sim_world sim_env 0
         (sim_client_with (roundtrip_entries 0 0)) t' (Some []) false
       = Done (ret, c3, Some [ev])
    /\ Z.of_nat (length (resp_results (pe_payload ev))) <= 1.
Proof.
  do 4 eexists.
  destruct (process_transaction_fills_prepared_response sample_constants
              sim_world sim_env 0%nat
              (sim_client_with (roundtrip_entries 0 0))
              (sim_client_with (roundtrip_entries 0 0))
              (sim_immediate 2) _ _ [] false _ _ _
              ltac:(vm_compute; reflexivity) ltac:(vm_compute; reflexivity)
              eq_refl ltac:(vm_compute; reflexivity))
    as (ev & Hp & Hle & _).
  exists ev.
  split; [vm_compute; reflexivity|].
  split; [|exact Hle].
  injection Hp as <-. vm_compute. reflexivity.
Defined.

(** X3.  Every entry point that takes the transaction lock releases it:
    when the lock is free at the call, the event trigger, the worker,
    flush, cancel and the client clean-up return with the lock free, and
    on the way the lock is never acquired while held nor released while
    free (it is dropped around every execution of a transaction and taken
    again afterwards). *)
Theorem transaction_lock_is_released :
  forall (K : lwis_constants) (W : Type) (E : lwis_env W)
    (D : lwis_kernel W) fuel (c : lwis_client),
    lock_free c ->
    (forall id event_counter pending in_irq r c' pending',
        lwis_transaction_event_trigger fuel c id event_counter pending in_irq
        = Done (r, c', pending') -> lock_free c')
    /\ (forall c', transaction_work_func fuel c = Done c' -> lock_free c')
    /\ (forall r c',
          lwis_transaction_client_flush fuel (Some c) = Done (r, Some c') ->
          lock_free c')
    /\ (forall id, lock_free (snd (lwis_transaction_cancel c id)))
    /\ (forall r c',
          lwis_transaction_client_cleanup fuel c = Done (r, c') ->
          lock_free c').
Proof.
  intros K W E D fuel c Hf. repeat split.
  - intros id ec pending in_irq r c' pending'.
    now apply lwis_transaction_event_trigger_lock.
  - intros c'. now apply transaction_work_func_lock.
  - intros r c'. now apply lwis_transaction_client_flush_lock.
  - intros id. now apply lwis_transaction_cancel_lock.
  - intros r c'. now apply lwis_transaction_client_cleanup_lock.
Qed.

(** X3 on the simulated device: a dispatch that executes a repeating
    transaction in the event context. *)
Lemma transaction_lock_is_released_witness :
  exists c' pending',
    @lwis_transaction_event_trigger sample_constants sim_world sim_env 0
      (sim_client_repeating true) 5 1 (Some []) false
    = Done (0, c', pending')
    /\ transaction_lock c' = [Acquire; Release; Acquire; Release]
    /\ lock_free c'.
Proof.
  do 2 eexists. split; [vm_compute; reflexivity|].
  split; [reflexivity|].
  destruct (transaction_lock_is_released sample_constants sim_world sim_env
              (sim_kernel 1) 0%nat (sim_client_repeating true) eq_refl)
    as (Ht & _).
  eapply (Ht 5 1 (Some []) false). vm_compute. reflexivity.
Defined.

(** X4.  Flush can execute a transaction whose entries it has just freed.
    When a waiting transaction (outside the client-cleanup list) shares
    its entries array with the transaction at the head of the process
    queue, as the original of a repeating transaction does with every
    queued instance of it, flush first frees the array with the waiting
    transaction and then drains the worker, which executes the queued one
    and reads the freed array. *)
Theorem lwis_transaction_client_flush_reads_freed_entries :
  forall (K : lwis_constants) (W : Type) (E : lwis_env W) fuel
    (c : lwis_client) t t' q,
    In t (waiting_transactions (transaction_list c)) ->
    transaction_process_queue c = t' :: q ->
    io_entries (info t') = io_entries (info t) ->
    0 < num_io_entries (info t') ->
    resp_error_code (resp t') = 0 ->
    transaction_wq c = true ->
    transaction_work c = true ->
    lwis_transaction_client_flush fuel (Some c) = Fault.
Proof.
  intros K W E fuel c t t' q Hin Hq Hptr Hnum Herr Hwq Hwork.
  unfold lwis_transaction_client_flush, drain_workqueue.
  destruct (flush_waiting_inv c) as (_ & Hq2 & _ & _ & Hwq2 & Hwork2).
  pose proof (flush_waiting_freed c t Hin) as Hfree.
  rewrite Hwq2, Hwq, Hwork2, Hwork.
  unfold transaction_work_func.
  cbn [transaction_process_queue spin_lock_irqsave set_transaction_lock
       set_transaction_work].
  rewrite Hq2, Hq. cbn [transaction_work_loop]. rewrite Herr.
  cbn [Z.eqb negb].
  unfold process_transaction, load_io_entries.
  cbn [kmem spin_unlock_irqrestore spin_lock_irqsave set_transaction_lock
       set_transaction_process_queue set_transaction_work].
  rewrite Hptr, Hfree.
  destruct (Z.leb_spec (num_io_entries (info t')) 0); [lia|]. reflexivity.
Qed.

(** X4 on the simulated device: event 5 has queued an instance of the
    repeating round trip, and the client is flushed before the worker
    runs. *)
Lemma lwis_transaction_client_flush_reads_freed_entries_witness :
  transaction_process_queue sim_client_repeating_fired
  = [@repeating_instance sample_constants (sim_repeating false)]
  /\ @lwis_transaction_client_flush sample_constants sim_world sim_env 0
       (Some sim_client_repeating_fired) = Fault.
Proof.
  split; [vm_compute; reflexivity|].
  apply (lwis_transaction_client_flush_reads_freed_entries sample_constants
           sim_world sim_env 0%nat sim_client_repeating_fired
           (sim_repeating false) (@repeating_instance sample_constants (sim_repeating false))
           []).
  - vm_compute. left. reflexivity.
  - vm_compute. reflexivity.
  - reflexivity.
  - vm_compute. reflexivity.
  - reflexivity.
  - reflexivity.
  - reflexivity.
Defined.

(** X5.  The debug history is a ring buffer.  While the write index is
    within the buffer, every executed transaction is recorded in the slot
    at the index, the other slots keep their records, and the index moves
    on by one and wraps to 0 at the end of the buffer, so it stays within
    the buffer.  A cancelled transaction is not recorded. *)
Theorem process_transaction_records_history :
  forall (K : lwis_constants) (W : Type) (E : lwis_env W) fuel
    (c : lwis_client) t pending in_irq r c' pending',
    process_transaction fuel c t pending in_irq = Done (r, c', pending') ->
    0 <= cur_transaction_hist_idx (debug_info c)
      < TRANSACTION_DEBUG_HISTORY_SIZE ->
    Z.of_nat (length (transaction_hist (debug_info c)))
    = TRANSACTION_DEBUG_HISTORY_SIZE ->
    let idx := Z.to_nat (cur_transaction_hist_idx (debug_info c)) in
    transaction_hist (debug_info c') !! idx = Some (info t)
    /\ (forall i, i <> idx ->
          transaction_hist (debug_info c') !! i
          = transaction_hist (debug_info c) !! i)
    /\ length (transaction_hist (debug_info c'))
       = length (transaction_hist (debug_info c))
    /\ cur_transaction_hist_idx (debug_info c')
       = (cur_transaction_hist_idx (debug_info c) + 1)
         mod TRANSACTION_DEBUG_HISTORY_SIZE
    /\ 0 <= cur_transaction_hist_idx (debug_info c')
         < TRANSACTION_DEBUG_HISTORY_SIZE
    /\ (forall error_code pe,
          debug_info (fst (cancel_transaction c t error_code pe))
          = debug_info c).
Proof.
  intros K W E fuel c t pending in_irq r c' pending' Hrun Hidx Hlen idx.
  destruct (process_transaction_state _ _ _ _ _ _ _ _ Hrun)
    as (es & stop & s & u & _ & _ & Hd & _).
  rewrite Hd. unfold save_transaction_to_history.
  cbn [debug_info set_debug_info transaction_hist cur_transaction_hist_idx].
  fold idx.
  split.
  { apply list_lookup_insert_eq. subst idx. lia. }
  split.
  { intros i Hi. now apply list_lookup_insert_ne. }
  split.
  { apply length_insert. }
  assert (Hmod : (if cur_transaction_hist_idx (debug_info c) + 1
                     >=? TRANSACTION_DEBUG_HISTORY_SIZE
                  then 0 else cur_transaction_hist_idx (debug_info c) + 1)
                 = (cur_transaction_hist_idx (debug_info c) + 1)
                   mod TRANSACTION_DEBUG_HISTORY_SIZE).
  { destruct (Z.geb_spec (cur_transaction_hist_idx (debug_info c) + 1)
                TRANSACTION_DEBUG_HISTORY_SIZE) as [Hge|Hlt].
    - replace (cur_transaction_hist_idx (debug_info c) + 1)
        with TRANSACTION_DEBUG_HISTORY_SIZE by lia.
      now rewrite Z.mod_same by lia.
    - now rewrite Z.mod_small by lia. }
  rewrite Hmod.
  split; [reflexivity|]. split; [apply Z.mod_pos_bound; lia|].
  reflexivity.
Qed.

(** X5 on the simulated device: the round trip is recorded in the last
    slot and the index wraps to 0. *)
Lemma process_transaction_records_history_witness :
  exists r c' pending',
    @process_transaction sample_constants sim_world sim_env 0
      sim_client_history (sim_immediate 2) (Some []) false
    = Done (r, c', pending')
    /\ transaction_hist (debug_info c') !! 3%nat
       = Some (info (sim_immediate 2))
    /\ cur_transaction_hist_idx (debug_info c') = 0.
Proof.
  do 3 eexists.
  destruct (process_transaction_records_history sample_constants sim_world
              sim_env 0%nat sim_client_history (sim_immediate 2) (Some [])
              false _ _ _ ltac:(vm_compute; reflexivity)
              ltac:(vm_compute; split; [discriminate|reflexivity])
              ltac:(vm_compute; reflexivity))
    as (H1 & _ & _ & H4 & _).
  split; [reflexivity|]. split; [exact H1|exact H4].
Defined.

(** X6.  An execution touches no entries array but its own.  It frees
    that array, unless the transaction is a repeating one (trigger counter
    [LWIS_EVENT_COUNTER_EVERY_TIME]): then the array stays allocated, with
    its length, for the next instance. *)
Theorem process_transaction_memory :
  forall (K : lwis_constants) (W : Type) (E : lwis_env W) fuel
    (c : lwis_client) t pending in_irq r c' pending',
    process_transaction fuel c t pending in_irq = Done (r, c', pending') ->
    (forall p, p <> io_entries (info t) -> kmem c' !! p = kmem c !! p)
    /\ (trigger_event_counter (info t) <> LWIS_EVENT_COUNTER_EVERY_TIME ->
        kmem c' !! io_entries (info t) = None)
    /\ (trigger_event_counter (info t) = LWIS_EVENT_COUNTER_EVERY_TIME ->
        forall arr,
          kmem c !! io_entries (info t) = Some arr ->
          exists arr',
            kmem c' !! io_entries (info t) = Some arr'
            /\ length arr' = length arr).
Proof.
  intros K W E fuel c t pending in_irq r c' pending' Hrun.
  destruct (process_transaction_state _ _ _ _ _ _ _ _ Hrun)
    as (es & stop & s & u & Hload & Hpe & _ & Hk).
  pose proof (process_entries_processed _ _ _ _ _ _ _ _ Hpe) as Hlen.
  cbn [loop_init ls_processed length] in Hlen.
  assert (Hstore : forall p, p <> io_entries (info t) ->
            store_io_entries (kmem c) (info t) (ls_processed s ++ u) !! p
            = kmem c !! p).
  { intros p Hp. unfold store_io_entries.
    destruct (num_io_entries (info t) <=? 0); [reflexivity|].
    destruct (kmem c !! io_entries (info t)); [|reflexivity].
    now rewrite lookup_insert_ne by congruence. }
  split; [|split].
  - intros p Hp. rewrite Hk.
    destruct (_ =? _); [now apply Hstore|].
    rewrite lookup_delete_ne by congruence. now apply Hstore.
  - intros Hne. rewrite Hk.
    destruct (Z.eqb_spec (trigger_event_counter (info t))
                LWIS_EVENT_COUNTER_EVERY_TIME); [contradiction|].
    apply lookup_delete_eq.
  - intros Heq arr Harr. rewrite Hk, Heq, Z.eqb_refl.
    unfold store_io_entries. unfold load_io_entries in Hload.
    destruct (num_io_entries (info t) <=? 0) eqn:Hn.
    + exists arr. now split.
    + rewrite Harr in *.
      destruct (Z.of_nat (length arr) <? num_io_entries (info t)) eqn:Hlt;
        [discriminate|].
      injection Hload as <-.
      eexists. split; [apply lookup_insert_eq|].
      rewrite length_app, length_drop, length_app.
      rewrite length_take in Hlen. lia.
Qed.

(** X6 on the simulated device: the array of the round trip (address 7)
    is freed by an immediate execution and kept by a repeating one. *)
Lemma process_transaction_memory_witness :
  (exists r c' pending',
      @process_transaction sample_constants sim_world sim_env 0
        (sim_client_with (roundtrip_entries 0 0)) (sim_immediate 2)
        (Some []) false
      = Done (r, c', pending')
      /\ kmem c' !! 7%N = None)
  /\ (exists r c' pending' arr',
         @process_transaction sample_constants sim_world sim_env 0
           (sim_client_with (roundtrip_entries 0 0)) (sim_repeating false)
           (Some []) false
         = Done (r, c', pending')
         /\ kmem c' !! 7%N = Some arr'
         /\ length arr' = 2%nat).
Proof.
  split.
  - do 3 eexists.
    destruct (process_transaction_memory sample_constants sim_world sim_env
                0%nat (sim_client_with (roundtrip_entries 0 0))
                (sim_immediate 2) (Some []) false _ _ _
                ltac:(vm_compute; reflexivity)) as (_ & H & _).
    split; [reflexivity|]. apply H. vm_compute. discriminate.
  - destruct (process_transaction_memory sample_constants sim_world sim_env
                0%nat (sim_client_with (roundtrip_entries 0 0))
                (sim_repeating false) (Some []) false _ _ _
                ltac:(vm_compute; reflexivity)) as (_ & _ & H).
    destruct (H eq_refl (roundtrip_entries 0 0) eq_refl) as (arr' & H1 & H2).
    do 3 eexists. exists arr'.
    split; [reflexivity|]. split; [exact H1|exact H2].
Defined.

(** X7.  Immediate transactions complete in the order of their
    submission.  After two successful submissions that went to the process
    queue, one run of the worker emits, after the events of what was
    queued before, one event for the first and then one for the second,
    carrying the consecutive ids that the submissions assigned, and leaves
    the queue empty. *)
Theorem immediate_submissions_complete_in_order :
  forall (K : lwis_constants) (W : Type) (E : lwis_env W) fuel
    (c : lwis_client) ta tb ta' tb' c1 c2 c3,
    lwis_transaction_submit_locked c ta = Done (0, ta', c1) ->
    lwis_transaction_submit_locked c1 tb = Done (0, tb', c2) ->
    trigger_event_id (info ta') = LWIS_EVENT_ID_NONE ->
    trigger_event_id (info tb') = LWIS_EVENT_ID_NONE ->
    transaction_work_func fuel c2 = Done c3 ->
    exists old ea eb,
      emitted c3 = emitted c ++ old ++ [ea; eb]
      /\ length old = length (transaction_process_queue c)
      /\ resp_id (pe_payload ea) = transaction_counter c
      /\ resp_id (pe_payload eb) = sint64 (transaction_counter c + 1)
      /\ transaction_process_queue c3 = [].
Proof.
  intros K W E fuel c ta tb ta' tb' c1 c2 c3 Ha Hb Hna Hnb Hw.
  destruct (lwis_transaction_submit_locked_success _ _ _ _ Ha)
    as (_ & Hida & Herra & _ & _ & Hcnt1 & Hem1 & _ & _ & _ & _ & Hqa).
  destruct (lwis_transaction_submit_locked_success _ _ _ _ Hb)
    as (_ & Hidb & Herrb & _ & _ & _ & Hem2 & _ & _ & _ & _ & Hqb).
  rewrite Hna, Z.eqb_refl in Hqa. rewrite Hnb, Z.eqb_refl in Hqb.
  destruct Hqa as (Hq1 & _). destruct Hqb as (Hq2 & _).
  destruct (transaction_work_func_inv _ _ _ Hw)
    as (new & Hem3 & Hdr & Hq3 & _).
  rewrite Hq2, Hq1 in Hdr.
  apply Forall2_app_inv_l in Hdr.
  destruct Hdr as (k1 & kb & Hdr1 & Hdb & ->).
  apply Forall2_app_inv_l in Hdr1.
  destruct Hdr1 as (old & ka & Hold & Hda & ->).
  inversion Hda as [|? ea ? ? Hea Hnil]; subst. inversion Hnil; subst.
  inversion Hdb as [|? eb ? ? Heb Hnil']; subst. inversion Hnil'; subst.
  unfold drained_event in Hea, Heb.
  rewrite Herra in Hea. rewrite Herrb in Heb. cbn in Hea, Heb.
  exists old, ea, eb.
  split.
  { rewrite Hem3, Hem2, Hem1, <- !app_assoc. reflexivity. }
  split.
  { symmetry. eapply Forall2_length. exact Hold. }
  split; [rewrite (proj1 Hea); exact Hida|].
  split; [rewrite (proj1 Heb), Hidb; exact Hcnt1|exact Hq3].
Qed.


(** X7 on the simulated device: the round trip, then an empty
    transaction. *)
Lemma immediate_submissions_complete_in_order_witness :
  exists ta' c1 tb' c2 c3 ea eb,
    @lwis_transaction_submit_locked sample_constants sim_world sim_env
      (sim_client_with (roundtrip_entries 0 0)) (sim_immediate 2)
    = Done (0, ta', c1)
    /\ @lwis_transaction_submit_locked sample_constants sim_world sim_env
         c1 (sim_immediate 0) = Done (0, tb', c2)
    /\ @transaction_work_func sample_constants sim_world sim_env 0 c2
       = Done c3
    /\ emitted c3 = [ea; eb]
    /\ resp_id (pe_payload ea) = 0
    /\ resp_id (pe_payload eb) = 1.
Proof.
  edestruct (immediate_submissions_complete_in_order sample_constants
              sim_world sim_env 0%nat
              (sim_client_with (roundtrip_entries 0 0))
              (sim_immediate 2) (sim_immediate 0))
    as (old & ea & eb & Hem & Hlen & Ha & Hb & _);
    [vm_compute; reflexivity | vm_compute; reflexivity | reflexivity
    | reflexivity | vm_compute; reflexivity |].
  destruct old; [|discriminate Hlen].
  do 5 eexists. exists ea, eb.
  split; [vm_compute; reflexivity|]. split; [vm_compute; reflexivity|].
  split; [vm_compute; reflexivity|].
  split; [exact Hem|]. split; [exact Ha|exact Hb].
Defined.

(** X8.  No two waiting transactions ever share an id.  A well-formed
    index (distinct event ids, every waiting transaction in the list of
    its trigger event, distinct ids below the transaction counter) stays
    well formed under any run of submit, replace, cancel, event trigger,
    worker and flush, as long as the counter does not reach 2^63; so for
    every id at most one transaction waits, which is the one that cancel
    and replace mark. *)
Theorem waiting_ids_stay_unique :
  forall (K : lwis_constants) (W : Type) (E : lwis_env W) fuel ops
    (c : lwis_client) results c',
    run_ops fuel c ops = Done (results, c') ->
    index_wf c ->
    - 2 ^ 63 <= transaction_counter c ->
    transaction_counter c + Z.of_nat (length ops) < 2 ^ 63 ->
    index_wf c'
    /\ forall id, (count_waiting id (transaction_list c') <= 1)%nat.
Proof.
  intros K W E fuel ops c results c' Hrun Hwf Hlo Hhi.
  pose proof (run_ops_index_wf _ _ _ _ _ Hrun Hwf Hlo Hhi) as Hwf'.
  split; [exact Hwf'|]. intros id. now apply index_wf_count_waiting.
Qed.

(** X8 on the simulated device: the sample run from an empty client. *)
Lemma waiting_ids_stay_unique_witness :
  exists results c',
    @run_ops sample_constants sim_world sim_env 0 sim_client0 sim_ops
    = Done (results, c')
    /\ index_wf c'
    /\ (count_waiting 2 (transaction_list c') <= 1)%nat.
Proof.
  edestruct (waiting_ids_stay_unique sample_constants sim_world sim_env
               0%nat sim_ops sim_client0) as (Hwf & Hcount);
    [vm_compute; reflexivity
    |repeat split; constructor
    |vm_compute; discriminate
    |vm_compute; reflexivity|].
  do 2 eexists. split; [vm_compute; reflexivity|].
  split; [exact Hwf|exact (Hcount 2)].
Defined.

(** X9.  A transaction that is not waiting cannot be cancelled: cancel
    answers -ENOENT and leaves the client as it was (but for the lock
    history).  In particular, on a well-formed index, a transaction that
    submit has put on the process queue is out of the reach of cancel. *)
Theorem lwis_transaction_cancel_not_waiting :
  (forall (W : Type) (c : @lwis_client W) id,
      count_waiting id (transaction_list c) = 0%nat ->
      lwis_transaction_cancel c id
      = (- ENOENT,
         set_transaction_lock (transaction_lock c ++ [Acquire; Release]) c))
  /\ (forall (K : lwis_constants) (W : Type) (E : lwis_env W)
        (c : lwis_client) t t' c1,
        index_wf c ->
        lwis_transaction_submit_locked c t = Done (0, t', c1) ->
        trigger_event_id (info t') = LWIS_EVENT_ID_NONE ->
        In t' (transaction_process_queue c1)
        /\ lwis_transaction_cancel c1 (info_id (info t'))
           = (- ENOENT,
              set_transaction_lock
                (transaction_lock c1 ++ [Acquire; Release]) c1)).
Proof.
  split.
  - intros W c id. apply lwis_transaction_cancel_none.
  - intros K W E c t t' c1 Hwf Hs Hnone.
    destruct (lwis_transaction_submit_locked_success _ _ _ _ Hs)
      as (Hid & _ & _ & _ & _ & _ & _ & _ & _ & _ & _ & Hrest).
    rewrite Hnone, Z.eqb_refl in Hrest. destruct Hrest as (Hq & Hl & _).
    split; [rewrite Hq; apply in_or_app; right; now left|].
    apply lwis_transaction_cancel_none. rewrite Hl, Hid.
    apply index_wf_count_fresh; [exact Hwf|lia].
Qed.

(** X9 on the simulated device: the round trip is submitted, then a
    cancel of its id 0 is attempted. *)
Lemma lwis_transaction_cancel_not_waiting_witness :
  exists t' c1 c2,
    @lwis_transaction_submit_locked sample_constants sim_world sim_env
      (sim_client_with (roundtrip_entries 0 0)) (sim_immediate 2)
    = Done (0, t', c1)
    /\ lwis_transaction_cancel c1 0 = (- ENOENT, c2)
    /\ transaction_process_queue c2 = [t'].
Proof.
  destruct lwis_transaction_cancel_not_waiting as [_ H].
  edestruct (H sample_constants sim_world sim_env
               (sim_client_with (roundtrip_entries 0 0)) (sim_immediate 2))
    as (_ & Hcancel);
    [repeat split; constructor|vm_compute; reflexivity|reflexivity|].
  do 3 eexists. split; [vm_compute; reflexivity|].
  split; [exact Hcancel|]. vm_compute. reflexivity.
Defined.

(** X10.  A dispatch that executes nothing moves the ready transactions to
    the process queue in the order of the event list.  When every
    transaction of the fired event's list either carries an error or is a
    non-repeating transaction that does not run in the event context, the
    trigger returns 0; the transactions that are not passed over are
    appended to the process queue in list order, the passed-over ones stay
    in the list in their order; the device, the memory, the emitted events
    and the pending events are untouched; and the worker is scheduled
    when something was moved. *)
Theorem lwis_transaction_event_trigger_queues_in_order :
  forall (K : lwis_constants) (W : Type) (E : lwis_env W) fuel
    (c : lwis_client) id event_counter pending in_irq el,
    event_list_find (transaction_list c) id = Some el ->
    Forall (fun t => deferred (lwis_dev c) t = true) (event_transactions el) ->
    transaction_wq c = true ->
    exists c',
      lwis_transaction_event_trigger fuel c id event_counter pending in_irq
      = Done (0, c', pending)
      /\ transaction_process_queue c'
         = transaction_process_queue c
           ++ List.filter (fun t => negb (passed_over event_counter t))
                (event_transactions el)
      /\ event_list_find (transaction_list c') id
         = Some {| event_id := id;
                   event_transactions :=
                     List.filter (passed_over event_counter)
                       (event_transactions el) |}
      /\ lwis_dev c' = lwis_dev c
      /\ kmem c' = kmem c
      /\ emitted c' = emitted c
      /\ (List.filter (fun t => negb (passed_over event_counter t))
            (event_transactions el) <> [] ->
          transaction_work c' = true).
Proof.
  intros K W E fuel c id event_counter pending in_irq el Hf Hall Hwq.
  destruct (lwis_transaction_event_trigger_deferred fuel c id event_counter
              pending in_irq el Hf Hall Hwq)
    as (c' & H0 & H1 & H2 & H3 & H4 & H5 & _ & _ & _ & H9).
  exists c'. repeat split; assumption.
Qed.

(** X10 on the simulated device: ids 3 and 7 wait for the next occurrence
    of event 5, between them a transaction that waits for occurrence 9;
    occurrence 4 fires. *)
Lemma lwis_transaction_event_trigger_queues_in_order_witness :
  exists c',
    @lwis_transaction_event_trigger sample_constants sim_world sim_env 0
      (sim_client_waiting
         [sim_waiting 3; mk_transaction 5 9 0 7%N false false; sim_waiting 7])
      5 4 (Some []) false
    = Done (0, c', Some [])
    /\ transaction_process_queue c' = [sim_waiting 3; sim_waiting 7]
    /\ transaction_work c' = true.
Proof.
  edestruct (lwis_transaction_event_trigger_queues_in_order sample_constants
               sim_world sim_env 0%nat
               (sim_client_waiting
                  [sim_waiting 3; mk_transaction 5 9 0 7%N false false;
                   sim_waiting 7])
               5 4 (Some []) false)
    as (c' & H0 & H1 & _ & _ & _ & _ & H6);
    [vm_compute; reflexivity
    |repeat constructor
    |reflexivity|].
  exists c'. split; [exact H0|]. split; [exact H1|].
  apply H6. vm_compute. discriminate.
Defined.

(** X11.  A cancelled transaction is reported when its trigger event next
    fires, and is never executed.  When the only transaction waiting on an
    event is cancelled, the next occurrence of the event, whatever its
    count, moves it to the process queue and schedules the worker; the
    worker then frees it and emits its error event with -ECANCELED, without
    touching the device or the history. *)
Theorem cancelled_transaction_is_reported :
  forall (K : lwis_constants) (W : Type) (E : lwis_env W) fuel
    (c : lwis_client) e t event_counter pending in_irq,
    event_list_find (transaction_list c) e
    = Some {| event_id := e; event_transactions := [t] |} ->
    count_waiting (info_id (info t)) (transaction_list c) = 1%nat ->
    transaction_process_queue c = [] ->
    transaction_wq c = true ->
    exists c1 c2 c3,
      lwis_transaction_cancel c (info_id (info t)) = (0, c1)
      /\ lwis_transaction_event_trigger fuel c1 e event_counter pending in_irq
         = Done (0, c2, pending)
      /\ transaction_process_queue c2 = [cancel_mark (info_id (info t)) t]
      /\ transaction_work c2 = true
      /\ transaction_work_func fuel c2 = Done c3
      /\ emitted c3 = emitted c ++ [cancel_event t (- ECANCELED)]
      /\ lwis_dev c3 = lwis_dev c
      /\ debug_info c3 = debug_info c
      /\ kmem c3 = delete (io_entries (info t)) (kmem c)
      /\ transaction_process_queue c3 = []
      /\ event_list_find (transaction_list c3) e
         = Some {| event_id := e; event_transactions := [] |}.
Proof.
  intros K W E fuel c e t event_counter pending in_irq Hf Hcount Hq Hwq.
  set (id := info_id (info t)) in *.
  set (tc := set_resp (resp_set_error_code (- ECANCELED) (resp t)) t).
  assert (Hmark : cancel_mark id t = tc).
  { unfold cancel_mark, id. now rewrite Z.eqb_refl. }
  assert (Hcancel :
            lwis_transaction_cancel c id
            = (0, spin_unlock_irqrestore
                    (set_transaction_list
                       (mark_canceled id (transaction_list c))
                       (spin_lock_irqsave c)))).
  { unfold lwis_transaction_cancel, cancel_waiting_transaction_locked.
    cbn [transaction_list spin_lock_irqsave set_transaction_lock].
    now rewrite (cancel_in_transaction_list_one _ _ Hcount). }
  set (c1 := spin_unlock_irqrestore
               (set_transaction_list (mark_canceled id (transaction_list c))
                  (spin_lock_irqsave c))) in *.
  assert (Hf1 : event_list_find (transaction_list c1) e
                = Some {| event_id := e; event_transactions := [tc] |}).
  { cbn. rewrite event_list_find_mark_canceled, Hf. cbn. now rewrite Hmark. }
  assert (Hpo : passed_over event_counter tc = false) by reflexivity.
  destruct (lwis_transaction_event_trigger_deferred fuel c1 e event_counter
              pending in_irq _ Hf1)
    as (c2 & Ht & Hq2 & Hl2 & Hd2 & Hk2 & He2 & _ & Hdb2 & Hwq2 & Hw2).
  { constructor; [reflexivity|constructor]. }
  { exact Hwq. }
  cbn [event_transactions List.filter] in Hq2, Hl2, Hw2.
  rewrite Hpo in Hq2, Hl2, Hw2. cbn [negb] in Hq2, Hw2.
  change (transaction_process_queue c1) with (transaction_process_queue c)
    in Hq2.
  rewrite Hq in Hq2. cbn [app] in Hq2.
  exists c1, c2. eexists.
  split; [exact Hcancel|]. split; [exact Ht|].
  split; [rewrite Hmark; exact Hq2|].
  split; [apply Hw2; discriminate|].
  unfold transaction_work_func.
  cbn [transaction_process_queue spin_lock_irqsave set_transaction_lock
       set_transaction_work].
  rewrite Hq2. cbn.
  split; [reflexivity|]. cbn.
  rewrite He2, Hd2, Hdb2, Hk2, Hl2.
  repeat split; reflexivity.
Qed.

(** X11 on the simulated device: id 7 waits for occurrence 9 of event 5,
    is cancelled, and occurrence 4 fires. *)
Lemma cancelled_transaction_is_reported_witness :
  exists c1 c2 c3,
    lwis_transaction_cancel
      (sim_client_waiting
         [set_info (info_set_id 7 (mk_info 5 9 0 7%N false false))
            (sim_waiting 7)]) 7
    = (0, c1)
    /\ @lwis_transaction_event_trigger sample_constants sim_world sim_env 0
         c1 5 4 (Some []) false = Done (0, c2, Some [])
    /\ @transaction_work_func sample_constants sim_world sim_env 0 c2
       = Done c3
    /\ map (fun ev => resp_error_code (pe_payload ev)) (emitted c3)
       = [- ECANCELED].
Proof.
  edestruct (cancelled_transaction_is_reported sample_constants sim_world
               sim_env 0%nat
               (sim_client_waiting
                  [set_info (info_set_id 7 (mk_info 5 9 0 7%N false false))
                     (sim_waiting 7)])
               5
               (set_info (info_set_id 7 (mk_info 5 9 0 7%N false false))
                  (sim_waiting 7))
               4 (Some []) false)
    as (c1 & c2 & c3 & H1 & H2 & _ & _ & H5 & H6 & _);
    [reflexivity|reflexivity|reflexivity|reflexivity|].
  exists c1, c2, c3.
  split; [exact H1|]. split; [exact H2|]. split; [exact H5|].
  rewrite H6. reflexivity.
Defined.

(** X12.  The client clean-up is silent and touches only its own list.
    [lwis_transaction_client_cleanup] returns 0; it emits no event
    (neither for the transactions it executes nor for those it cancels),
    leaves the process queue, the pending work and the transaction counter
    as they were, deletes the client-cleanup list (the first one, in
    iteration order, with that event id) and leaves every other list of
    the index as it was. *)
Theorem lwis_transaction_client_cleanup_spec :
  forall (K : lwis_constants) (W : Type) (E : lwis_env W)
    (D : lwis_kernel W) fuel (c : lwis_client) r c',
    lwis_transaction_client_cleanup fuel c = Done (r, c') ->
    r = 0
    /\ emitted c' = emitted c
    /\ transaction_process_queue c' = transaction_process_queue c
    /\ transaction_work c' = transaction_work c
    /\ transaction_counter c' = transaction_counter c
    /\ transaction_list c'
       = event_list_del (transaction_list c) LWIS_EVENT_ID_CLIENT_CLEANUP
    /\ (forall id, id <> LWIS_EVENT_ID_CLIENT_CLEANUP ->
          event_list_find (transaction_list c') id
          = event_list_find (transaction_list c) id)
    /\ (NoDup (map event_id (transaction_list c)) ->
        event_list_find (transaction_list c') LWIS_EVENT_ID_CLIENT_CLEANUP
        = None).
Proof.
  intros K W E D fuel c r c' H.
  destruct (lwis_transaction_client_cleanup_inv _ _ _ _ H)
    as (Hr & He & Hq & Hc & Hw & Hl).
  repeat split; try assumption.
  - intros id Hid. rewrite Hl. now apply event_list_find_del.
  - intros Hnd. rewrite Hl. now apply event_list_find_del_same.
Qed.

(** X12 on the simulated device, enabled: the clean-up round trip is
    executed (register 0x10 holds 5), nothing is emitted, and the list of
    event 5 is still there. *)
Lemma lwis_transaction_client_cleanup_spec_witness :
  exists c',
    @lwis_transaction_client_cleanup sample_constants sim_world sim_env
      (sim_kernel 1) 0 sim_client_cleanup = Done (0, c')
    /\ sim_regs (lwis_dev c') !! (0, 16) = Some 5
    /\ emitted c' = []
    /\ transaction_list c'
       = [{| event_id := 5;
             event_transactions := [mk_transaction 5 (-1) 0 8%N false false] |}].
Proof.
  edestruct (lwis_transaction_client_cleanup_spec sample_constants sim_world
               sim_env (sim_kernel 1) 0%nat sim_client_cleanup)
    as (_ & He & _ & _ & _ & Hl & _); [vm_compute; reflexivity|].
  eexists. split; [vm_compute; reflexivity|].
  split; [vm_compute; reflexivity|]. split; [exact He|exact Hl].
Defined.

(** X13.  On a disabled device the clean-up executes nothing.  When the
    enable count of the device is 0, the client clean-up always returns
    0, whatever its transactions are; it leaves the device and the
    history untouched and frees the entries of every transaction of the
    clean-up list, and of no other. *)
Theorem lwis_transaction_client_cleanup_disabled :
  forall (K : lwis_constants) (W : Type) (E : lwis_env W)
    (D : lwis_kernel W) fuel (c : lwis_client),
    enabled (lwis_dev c) = 0 ->
    exists c',
      lwis_transaction_client_cleanup fuel c = Done (0, c')
      /\ lwis_dev c' = lwis_dev c
      /\ debug_info c' = debug_info c
      /\ forall p,
           kmem c' !! p
           = if existsb (fun t => N.eqb (io_entries (info t)) p)
                  match event_list_find (transaction_list c)
                          LWIS_EVENT_ID_CLIENT_CLEANUP with
                  | Some el => event_transactions el
                  | None => []
                  end
             then None else kmem c !! p.
Proof.
  intros K W E D fuel c Hen. unfold lwis_transaction_client_cleanup.
  cbn [transaction_list spin_lock_irqsave set_transaction_lock].
  destruct (event_list_find (transaction_list c) _) as [el|].
  - destruct (cleanup_loop_disabled fuel (event_transactions el)
                (spin_lock_irqsave c) Hen) as (c1 & Hl & Hd & Hdb & Hk).
    rewrite Hl. eexists. split; [reflexivity|]. cbn.
    split; [exact Hd|]. split; [exact Hdb|exact Hk].
  - eexists. split; [reflexivity|]. now repeat split.
Qed.

(** X13 on the simulated device, disabled: the clean-up round trip is
    dropped, register 0x10 is never written. *)
Lemma lwis_transaction_client_cleanup_disabled_witness :
  exists c',
    @lwis_transaction_client_cleanup sample_constants sim_world sim_env
      (sim_kernel 0) 0 sim_client_cleanup = Done (0, c')
    /\ sim_regs (lwis_dev c') !! (0, 16) = None
    /\ kmem c' !! 7%N = None.
Proof.
  destruct (lwis_transaction_client_cleanup_disabled sample_constants
              sim_world sim_env (sim_kernel 0) 0%nat sim_client_cleanup
              eq_refl) as (c' & H & Hd & _ & Hk).
  exists c'. split; [exact H|]. split; [rewrite Hd; reflexivity|].
  rewrite Hk. reflexivity.
Defined.

(** X14.  Flush followed by the client clean-up leaves no waiting
    transaction.  On an index whose lists have distinct event ids, a
    flush that returns and a clean-up that returns leave the
    event-trigger index and the process queue empty. *)
Theorem flush_then_cleanup_empties_index :
  forall (K : lwis_constants) (W : Type) (E : lwis_env W)
    (D : lwis_kernel W) fuel (c : lwis_client) r1 c1 r2 c2,
    NoDup (map event_id (transaction_list c)) ->
    lwis_transaction_client_flush fuel (Some c) = Done (r1, Some c1) ->
    lwis_transaction_client_cleanup fuel c1 = Done (r2, c2) ->
    r1 = 0 /\ r2 = 0
    /\ transaction_list c2 = []
    /\ transaction_process_queue c2 = [].
Proof.
  intros K W E D fuel c r1 c1 r2 c2 Hnd Hf Hc.
  pose proof (lwis_transaction_client_flush_index _ _ _ _ Hf) as Hl1.
  destruct (lwis_transaction_client_cleanup_inv _ _ _ _ Hc)
    as (Hr2 & _ & Hq2 & _ & _ & Hl2).
  assert (Hr1 : r1 = 0 /\ transaction_process_queue c1 = []).
  { unfold lwis_transaction_client_flush in Hf.
    destruct (if transaction_wq (flush_waiting c) then _ else _)
      as [c3| |]; try discriminate.
    cbn in Hf. injection Hf as <- <-. split; [reflexivity|].
    now destruct (flush_process_queue_inv c3) as (_ & ? & _). }
  destruct Hr1 as [Hr1 Hq1].
  split; [exact Hr1|]. split; [exact Hr2|].
  split; [|congruence].
  rewrite Hl2, Hl1. now apply filter_cleanup_NoDup.
Qed.

(** X14 on the simulated device: the client with a clean-up list and a
    transaction waiting on event 5 is flushed and cleaned up. *)
Lemma flush_then_cleanup_empties_index_witness :
  exists c1 c2,
    @lwis_transaction_client_flush sample_constants sim_world sim_env 0
      (Some sim_client_cleanup) = Done (0, Some c1)
    /\ @lwis_transaction_client_cleanup sample_constants sim_world sim_env
         (sim_kernel 1) 0 c1 = Done (0, c2)
    /\ transaction_list c2 = [].
Proof.
  edestruct (flush_then_cleanup_empties_index sample_constants sim_world
               sim_env (sim_kernel 1) 0%nat sim_client_cleanup)
    as (_ & _ & Hl & _);
    [apply NoDup_ListNoDup; cbn; repeat constructor; cbn;
     intuition discriminate
    |vm_compute; reflexivity
    |vm_compute; reflexivity|].
  do 2 eexists. split; [vm_compute; reflexivity|].
  split; [vm_compute; reflexivity|exact Hl].
Defined.

(** X15.  A freshly initialised client is empty.  [lwis_transaction_init]
    returns 0 and leaves a well-formed, empty index, an empty process
    queue, a free lock and the counter at 0.  On such a client every
    cancel answers -ENOENT, every event trigger returns 0 without any
    effect but on the lock history, flush returns 0 with nothing to do,
    and the first transaction that is submitted successfully gets id 0. *)
Theorem lwis_transaction_init_spec :
  forall (K : lwis_constants) (W : Type) (E : lwis_env W)
    (D : lwis_kernel W) fuel (c : lwis_client),
    let c0 := snd (lwis_transaction_init c) in
    fst (lwis_transaction_init c) = 0
    /\ transaction_list c0 = []
    /\ transaction_process_queue c0 = []
    /\ transaction_counter c0 = 0
    /\ transaction_work c0 = false
    /\ index_wf c0
    /\ lock_free c0
    /\ (forall id, fst (lwis_transaction_cancel c0 id) = - ENOENT)
    /\ (forall id event_counter pending in_irq,
          lwis_transaction_event_trigger fuel c0 id event_counter pending
            in_irq
          = Done (0, set_transaction_lock [Acquire; Release] c0, pending))
    /\ lwis_transaction_client_flush fuel (Some c0)
       = Done (0,
               Some (set_transaction_lock
                       [Acquire; Release; Acquire; Release] c0))
    /\ (forall t t' c1,
          lwis_transaction_submit_locked c0 t = Done (0, t', c1) ->
          info_id (info t') = 0 /\ resp_id (resp t') = 0).
Proof.
  intros K W E D fuel c c0. subst c0. unfold lwis_transaction_init.
  destruct (create_workqueue (lwis_dev c)) as [wq w]. cbn [fst snd].
  split; [reflexivity|]. split; [reflexivity|]. split; [reflexivity|].
  split; [reflexivity|]. split; [reflexivity|].
  split; [repeat split; constructor|].
  split; [reflexivity|].
  split; [reflexivity|].
  split; [reflexivity|].
  split.
  - unfold lwis_transaction_client_flush, drain_workqueue. cbn.
    destruct wq; reflexivity.
  - intros t t' c1 Hs.
    destruct (lwis_transaction_submit_locked_success _ _ _ _ Hs)
      as (Hid & Hrid & _). split; assumption.
Qed.

(** X16.  The result of [create_workqueue] is not checked.  When the
    workqueue cannot be created, [lwis_transaction_init] still returns 0,
    and the client it leaves accepts no immediate transaction: a
    submission that has passed the validation and has its response
    allocated dereferences the NULL workqueue when it is queued, so no
    submission returns 0 with its transaction on the process queue. *)
Theorem lwis_transaction_init_unchecked_workqueue :
  forall (K : lwis_constants) (W : Type) (E : lwis_env W)
    (D : lwis_kernel W) (c : lwis_client) w,
    create_workqueue (lwis_dev c) = (false, w) ->
    let c0 := snd (lwis_transaction_init c) in
    fst (lwis_transaction_init c) = 0
    /\ transaction_wq c0 = false
    /\ (forall t t1 c1 t2 c2,
          check_transaction_param_locked c0 t (allow_counter_eq (info t))
          = (0, t1, c1) ->
          prepare_response_locked c1 t1 = Done (0, t2, c2) ->
          trigger_event_id (info t2) = LWIS_EVENT_ID_NONE ->
          lwis_transaction_submit_locked c0 t = Fault)
    /\ (forall t t' c1,
          lwis_transaction_submit_locked c0 t = Done (0, t', c1) ->
          trigger_event_id (info t') <> LWIS_EVENT_ID_NONE).
Proof.
  intros K W E D c w Hcw c0. subst c0. unfold lwis_transaction_init.
  rewrite Hcw. cbn [fst snd].
  split; [reflexivity|]. split; [reflexivity|]. split.
  - intros t t1 c1 t2 c2 Hchk Hprep Hnone.
    unfold lwis_transaction_submit_locked. rewrite Hchk. cbn [Z.eqb negb].
    rewrite Hprep. cbn.
    apply queue_transaction_locked_no_wq; [exact Hnone|].
    destruct (check_transaction_param_locked_frame _ _ _ _ _ _ Hchk)
      as (Hc1 & _).
    destruct (prepare_response_locked_inv _ _ _ _ _ Hprep) as (_ & Hc2 & _).
    rewrite Hc2, Hc1. reflexivity.
  - intros t t' c1 Hs Hnone.
    pose proof (lwis_transaction_submit_locked_needs_wq _ _ _ _ Hs Hnone)
      as Hwq.
    discriminate Hwq.
Qed.

(** X16 on the simulated device: the allocation of the workqueue fails,
    and the round trip is submitted to the initialised client. *)
Lemma lwis_transaction_init_unchecked_workqueue_witness :
  @lwis_transaction_submit_locked sample_constants sim_world sim_env
    (snd (@lwis_transaction_init sim_world (sim_kernel 1)
            (@set_lwis_dev sim_world (sim_with_alloc [false] sim_world0)
               (sim_client_with (roundtrip_entries 0 0)))))
    (sim_immediate 2)
  = Fault.
Proof.
  edestruct (lwis_transaction_init_unchecked_workqueue sample_constants
               sim_world sim_env (sim_kernel 1)
               (@set_lwis_dev sim_world (sim_with_alloc [false] sim_world0)
                  (sim_client_with (roundtrip_entries 0 0))))
    as (_ & _ & H & _); [reflexivity|].
  eapply (H (sim_immediate 2)); [vm_compute; reflexivity
                                |vm_compute; reflexivity|reflexivity].
Defined.



(** X18.  A transaction without entries completes at once.  When
    [num_io_entries] is not positive, [process_transaction] returns 0
    without reading the entries array (whatever its pointer is) and
    without touching the device; the event it pushes carries the response
    as it was prepared, with completion index -1, under the success event
    when the response carries no error. *)
Theorem process_transaction_without_entries :
  forall (K : lwis_constants) (W : Type) (E : lwis_env W) fuel
    (c : lwis_client) t pe in_irq,
    num_io_entries (info t) <= 0 ->
    exists c',
      process_transaction fuel c t (Some pe) in_irq
      = Done (0, c',
              Some (pe ++
                [{| pe_event_id :=
                      if resp_error_code (resp t) =? 0
                      then emit_success_event_id (info t)
                      else emit_error_event_id (info t);
                    pe_payload := resp_set_completion_index (-1) (resp t);
                    pe_size :=
                      wrap64 (sizeof_lwis_transaction_response_header
                              + resp_results_size_bytes (resp t)) |}]))
      /\ lwis_dev c' = lwis_dev c
      /\ transaction_list c' = transaction_list c
      /\ transaction_process_queue c' = transaction_process_queue c.
Proof.
  intros K W E fuel c t pe in_irq Hn.
  assert (Hload : load_io_entries (kmem c) (info t) = Some []).
  { unfold load_io_entries.
    now destruct (Z.leb_spec (num_io_entries (info t)) 0); [|lia]. }
  edestruct (process_transaction_run fuel c t (Some pe) in_irq [] false
               (loop_init (lwis_dev c) (resp t)) [] Hload eq_refl)
    as (c' & Hrun & Hd & Hl & Hq & _).
  exists c'. cbn in Hrun. rewrite Hrun.
  split; [|split; [exact Hd|split; [exact Hl|exact Hq]]].
  now destruct (resp_error_code (resp t) =? 0).
Qed.

(** X18 on the simulated device: an empty immediate transaction whose
    entries pointer refers to no array. *)
Lemma process_transaction_without_entries_witness :
  exists c' ev,
    @process_transaction sample_constants sim_world sim_env 0 sim_client0
      (mk_transaction 0 0 0 9%N false false) (Some []) false
    = Done (0, c', Some [ev])
    /\ pe_event_id ev = 100
    /\ resp_completion_index (pe_payload ev) = -1.
Proof.
  destruct (process_transaction_without_entries sample_constants sim_world
              sim_env 0%nat sim_client0
              (mk_transaction 0 0 0 9%N false false) [] false
              ltac:(vm_compute; discriminate)) as (c' & H & _).
  exists c'. eexists. split; [exact H|]. split; reflexivity.
Defined.



(** X20.  The platform functions refuse a device that has not been
    probed, and leave it alone.  For a NULL device, and for a device
    whose platform data is not set (no probe yet, or the allocation of a
    probe failed), enable and disable return -ENODEV and make no
    power-management call.  A probe returns -ENODEV for a NULL device and
    -ENOMEM when the allocation fails, and then neither sets the platform
    data nor enables runtime power management. *)
Theorem lwis_platform_requires_probe :
  forall (P : Type) (PE : lwis_platform_env P),
    lwis_platform_probe None = (- ENODEV, None)
    /\ lwis_platform_device_enable None = (- ENODEV, None)
    /\ lwis_platform_device_disable None = (- ENODEV, None)
    /\ (forall d : lwis_device P,
          platform d = false ->
          lwis_platform_device_enable (Some d) = (- ENODEV, Some d)
          /\ lwis_platform_device_disable (Some d) = (- ENODEV, Some d))
    /\ (forall (d : lwis_device P) p,
          kzalloc_platform (plat_dev d) = (false, p) ->
          lwis_platform_probe (Some d)
          = (- ENOMEM, Some {| platform := platform d; plat_dev := p |}))
    /\ (forall (d : lwis_device P) r d',
          platform d = false ->
          lwis_platform_probe (Some d) = (r, Some d') ->
          r <> 0 ->
          lwis_platform_device_enable (Some d') = (- ENODEV, Some d')).
Proof.
  intros P PE. split; [reflexivity|]. split; [reflexivity|].
  split; [reflexivity|]. split; [|split].
  - intros d Hd. unfold lwis_platform_device_enable,
      lwis_platform_device_disable. now rewrite Hd.
  - intros d p Hk. unfold lwis_platform_probe. now rewrite Hk.
  - intros d r d' Hd. unfold lwis_platform_probe.
    destruct (kzalloc_platform (plat_dev d)) as [[|] p]; cbn [negb].
    + intros [= <- _] Hr. now destruct Hr.
    + intros [= _ <-] _. unfold lwis_platform_device_enable. cbn.
      now rewrite Hd.
Qed.

(** X20 on the simulated platform device: the allocation of the probe
    fails, and the device is then enabled. *)
Lemma lwis_platform_requires_probe_witness :
  exists d',
    @lwis_platform_probe sim_platform sim_platform_env
      (Some (sim_device [false] []))
    = (- ENOMEM, Some d')
    /\ @lwis_platform_device_enable sim_platform sim_platform_env (Some d')
       = (- ENODEV, Some d')
    /\ sim_pm_log (plat_dev d') = [].
Proof.
  destruct (lwis_platform_requires_probe sim_platform sim_platform_env)
    as (_ & _ & _ & _ & _ & H).
  eexists. split; [reflexivity|]. split; [|reflexivity].
  eapply (H (sim_device [false] [])); [reflexivity|reflexivity|].
  vm_compute. discriminate.
Defined.

(** X21.  After a successful probe, enable and disable differ in what
    they return.  A successful probe sets the platform data and enables
    runtime power management once.  Enable then returns the code of
    [pm_runtime_get_sync] when it is negative and 0 otherwise (a positive
    code is not passed on), so it never returns a positive value; disable
    returns the code of [pm_runtime_put_sync] as it is.  Both keep the
    platform data.  The two QoS functions return 0 and change nothing. *)
Theorem lwis_platform_enable_disable :
  forall (P : Type) (PE : lwis_platform_env P) (d : lwis_device P) p,
    kzalloc_platform (plat_dev d) = (true, p) ->
    let d1 := {| platform := true; plat_dev := pm_runtime_enable p |} in
    lwis_platform_probe (Some d) = (0, Some d1)
    /\ (forall d2 : lwis_device P,
          platform d2 = true ->
          lwis_platform_device_enable (Some d2)
          = (Z.min 0 (fst (pm_runtime_get_sync (plat_dev d2))),
             Some {| platform := true;
                     plat_dev := snd (pm_runtime_get_sync (plat_dev d2)) |})
          /\ fst (lwis_platform_device_enable (Some d2)) <= 0
          /\ lwis_platform_device_disable (Some d2)
             = (fst (pm_runtime_put_sync (plat_dev d2)),
                Some {| platform := true;
                        plat_dev := snd (pm_runtime_put_sync (plat_dev d2)) |}))
    /\ (forall (o : option (lwis_device P)) value clock_family,
          lwis_platform_update_qos o value clock_family = 0
          /\ lwis_platform_remove_qos o = 0).
Proof.
  intros P PE d p Hk d1. split; [|split].
  - unfold lwis_platform_probe. now rewrite Hk.
  - intros d2 Hd2.
    assert (He : lwis_platform_device_enable (Some d2)
                 = (Z.min 0 (fst (pm_runtime_get_sync (plat_dev d2))),
                    Some {| platform := true;
                            plat_dev :=
                              snd (pm_runtime_get_sync (plat_dev d2)) |})).
    { unfold lwis_platform_device_enable. rewrite Hd2. cbn [negb].
      destruct (pm_runtime_get_sync (plat_dev d2)) as [ret p2]. cbn [fst snd].
      destruct (Z.ltb_spec ret 0).
      - now rewrite Z.min_r by lia.
      - now rewrite Z.min_l by lia. }
    split; [exact He|]. split; [rewrite He; cbn [fst]; lia|].
    unfold lwis_platform_device_disable.
    rewrite Hd2. cbn [negb].
    destruct (pm_runtime_put_sync (plat_dev d2)) as [ret p2]. reflexivity.
  - intros o value clock_family. split; reflexivity.
Qed.

(** X21 on the simulated platform device: probe, then an enable whose
    [pm_runtime_get_sync] returns 1 (already active), then a disable
    whose [pm_runtime_put_sync] returns 1. *)
Lemma lwis_platform_enable_disable_witness :
  exists d1 d2 d3,
    @lwis_platform_probe sim_platform sim_platform_env
      (Some (sim_device [] [1; 1]))
    = (0, Some d1)
    /\ @lwis_platform_device_enable sim_platform sim_platform_env (Some d1)
       = (0, Some d2)
    /\ @lwis_platform_device_disable sim_platform sim_platform_env (Some d2)
       = (1, Some d3)
    /\ sim_pm_log (plat_dev d3) = [PmEnable; PmGet; PmPut].
Proof.
  destruct (lwis_platform_enable_disable sim_platform sim_platform_env
              (sim_device [] [1; 1]) _ eq_refl) as (H1 & _ & _).
  do 3 eexists. split; [exact H1|]. split; [reflexivity|].
  split; reflexivity.
Defined.

(** X22.  [lwis_transaction_clear] is a flush followed by the destruction
    of the workqueue.  For a NULL client it returns -ENODEV, as flush
    does.  Otherwise, when it returns, it returns 0; the process queue is
    empty and only the client-cleanup list is left in the index, as after
    the flush; nothing is emitted or executed after the flush; and the
    workqueue is destroyed exactly when the client has one, after the
    flush has drained it. *)
Theorem lwis_transaction_clear_spec :
  forall (K : lwis_constants) (W : Type) (E : lwis_env W)
    (D : lwis_kernel W) fuel,
    lwis_transaction_clear fuel None = Done (- ENODEV, None)
    /\ forall (c : lwis_client) r oc,
         lwis_transaction_clear fuel (Some c) = Done (r, oc) ->
         exists c1,
           lwis_transaction_client_flush fuel (Some c) = Done (0, Some c1)
           /\ r = 0
           /\ oc = Some (set_lwis_dev
                           (if transaction_wq c
                            then destroy_workqueue (lwis_dev c1)
                            else lwis_dev c1) c1)
           /\ transaction_process_queue c1 = []
           /\ transaction_list c1
              = List.filter is_cleanup_list (transaction_list c).
Proof.
  intros K W E D fuel. split; [reflexivity|].
  intros c r oc. unfold lwis_transaction_clear.
  destruct (lwis_transaction_client_flush fuel (Some c)) as [[r1 oc1]| |]
    eqn:Hf; cbn [mbind outcome_bind]; try discriminate.
  destruct (lwis_transaction_client_flush_counter _ _ _ _ Hf)
    as (c1 & -> & _).
  assert (Hr1 : r1 = 0 /\ transaction_process_queue c1 = []
                /\ transaction_wq c1 = transaction_wq c).
  { unfold lwis_transaction_client_flush in Hf.
    destruct (flush_waiting_inv c) as (_ & _ & _ & _ & Hwq & _).
    destruct (transaction_wq (flush_waiting c)) eqn:Hwq2.
    - unfold drain_workqueue in Hf.
      destruct (transaction_work (flush_waiting c)).
      + destruct (transaction_work_func fuel (flush_waiting c))
          as [c3| |] eqn:Hw; try discriminate.
        cbn in Hf. injection Hf as <- <-.
        destruct (transaction_work_func_inv _ _ _ Hw)
          as (_ & _ & _ & _ & _ & _ & Hwq3).
        split; [reflexivity|].
        split; [now destruct (flush_process_queue_inv c3) as (_ & ? & _)|].
        rewrite flush_process_queue_wq. congruence.
      + cbn in Hf. injection Hf as <- <-.
        split; [reflexivity|].
        split; [now destruct (flush_process_queue_inv (flush_waiting c))
                  as (_ & ? & _)|].
        rewrite flush_process_queue_wq. congruence.
    - cbn in Hf. injection Hf as <- <-.
      split; [reflexivity|].
      split; [now destruct (flush_process_queue_inv (flush_waiting c))
                as (_ & ? & _)|].
      rewrite flush_process_queue_wq. congruence. }
  destruct Hr1 as (-> & Hq1 & Hwq1). cbn [Z.eqb negb].
  pose proof (lwis_transaction_client_flush_index _ _ _ _ Hf) as Hl1.
  rewrite Hwq1.
  destruct (transaction_wq c); intros [= <- <-]; exists c1;
    repeat split; auto.
  now rewrite set_lwis_dev_same.
Qed.

(** X22 on the simulated device: the client with one queued and one
    waiting transaction is cleared. *)
Lemma lwis_transaction_clear_spec_witness :
  exists c',
    @lwis_transaction_clear sample_constants sim_world sim_env
      (sim_kernel 1) 0 (Some sim_client_flush) = Done (0, Some c')
    /\ transaction_process_queue c' = []
    /\ transaction_list c' = [].
Proof.
  destruct (lwis_transaction_clear_spec sample_constants sim_world sim_env
              (sim_kernel 1) 0%nat) as [_ H].
  edestruct (H sim_client_flush) as (c1 & _ & _ & Hoc & _);
    [vm_compute; reflexivity|].
  eexists. split; [vm_compute; reflexivity|]. split; reflexivity.
Defined.

